(** * The query-resolution pipeline of the watch catalogue assistant

    A shallow embedding of [lib/livePriceNoUrls.js] (price text parser,
    price cache, live price resolver) and of [app/api/chat/route.ts]
    (catalogue retrieval, intent classification, the POST handler), with
    the properties stated about them.

    The repository holds two copies of each file.  The first copy of each
    is embedded first and carries most of the properties.  The second
    copy of the helper adds a scraper fallback behind an option the
    handler never passes ([getLivePriceNoUrl2]); the second copy of the
    route differs in how a failed import is handled, in what it checks
    of the embedding, and in [extractTopMetadata] ([POST2],
    [getEmbedding2], [extractTopMetadata2]).

    Layout: the fragment of JavaScript the two files rely on (strings,
    numbers, JSON values, exceptions), then the two files function by
    function, then the vocabulary of the properties, then the
    properties. *)

From Stdlib Require Import ZArith NArith List String Ascii Lia Bool.
From Stdlib Require Import Floats.SpecFloat.
From stdpp Require Import base option list gmap.

Local Open Scope N_scope.

(** ** Strings

    A JavaScript string is a sequence of UTF-16 code units; a code unit is
    kept as its number.  [str] turns an ASCII literal into such a
    sequence. *)

Abbreviation jsstring := (list N).

Definition str (s : string) : jsstring :=
  map N_of_ascii (list_ascii_of_string s).
Arguments str : simpl never.

(** Decimal digits [0-9]. *)
Definition isDigit (c : N) : bool := (48 <=? c) && (c <=? 57).

(** WhiteSpace and LineTerminator code units: what [\s] matches and what
    [trim] removes. *)
Definition isSpace (c : N) : bool :=
  ((9 <=? c) && (c <=? 13)) || (c =? 32) || (c =? 160) || (c =? 5760)
  || ((8192 <=? c) && (c <=? 8202)) || (c =? 8232) || (c =? 8233)
  || (c =? 8239) || (c =? 8287) || (c =? 12288) || (c =? 65279).

Definition isUpper (c : N) : bool := (65 <=? c) && (c <=? 90).
Definition isLower (c : N) : bool := (97 <=? c) && (c <=? 122).

(** The letters A-Z and a-z in the other case; every other code unit as
    it is. *)
Definition lowerUnit (c : N) : N := if isUpper c then c + 32 else c.
Definition upperUnit (c : N) : N := if isLower c then c - 32 else c.

Fixpoint takeWhile (p : N -> bool) (s : jsstring) : jsstring :=
  match s with
  | c :: r => if p c then c :: takeWhile p r else []
  | [] => []
  end.

Fixpoint dropWhile (p : N -> bool) (s : jsstring) : jsstring :=
  match s with
  | c :: r => if p c then dropWhile p r else s
  | [] => []
  end.

Definition trimStart (s : jsstring) : jsstring := dropWhile isSpace s.
Definition trimEnd (s : jsstring) : jsstring := rev (dropWhile isSpace (rev s)).
Definition trim (s : jsstring) : jsstring := trimEnd (trimStart s).

(** [a] and [b] are the same unit, or the same letter A-Z in the two
    cases. *)
Definition sameLetter (a b : N) : Prop :=
  a = b \/ (isUpper a = true /\ b = a + 32) \/ (isUpper b = true /\ a = b + 32).

(** [String.prototype.toLowerCase].  The engine lowers every cased letter
    of Unicode, looks at the neighbours of a capital sigma, and gives two
    units for U+0130; that table is not written out here.  The function
    is a parameter of the development, with the facts about it that the
    properties rely on: on a string of ASCII units it lowers the letters
    A-Z and nothing else; it does not see the case of a letter A-Z,
    whatever stands around it; it commutes with [trim]; applying it twice
    is applying it once; its result holds no letter A-Z; it brings no
    pipe into a string that has none; and U+00DF, the sharp s, is its own
    lower case. *)
Class CaseMapping : Type := {
  toLowerCase : jsstring -> jsstring;
  toLowerCase_ascii :
    forall s, Forall (fun c => c < 128) s -> toLowerCase s = map lowerUnit s;
  toLowerCase_letters :
    forall s t, Forall2 sameLetter s t -> toLowerCase s = toLowerCase t;
  toLowerCase_trim :
    forall s, toLowerCase (trim s) = trim (toLowerCase s);
  toLowerCase_twice :
    forall s, toLowerCase (toLowerCase s) = toLowerCase s;
  toLowerCase_lower :
    forall s, Forall (fun c => isUpper c = false) (toLowerCase s);
  toLowerCase_pipe :
    forall s, Forall (fun c => c <> 124) s -> Forall (fun c => c <> 124) (toLowerCase s);
  toLowerCase_sharp_s : toLowerCase [223] = [223]
}.

(** The mapping that lowers the letters A-Z and leaves every other unit:
    the engine's on ASCII strings, which is what the scenarios hold. *)
Definition asciiCase : CaseMapping.
Proof.
  assert (Hupper : forall c, isUpper (lowerUnit c) = false).
  { intros c. unfold lowerUnit. destruct (isUpper c) eqn:H; [| done].
    unfold isUpper in *. apply andb_prop in H as [H1 H2].
    apply N.leb_le in H1, H2. apply andb_false_iff. right. apply N.leb_gt. lia. }
  assert (Hspace : forall c, isSpace (lowerUnit c) = isSpace c).
  { intros c. unfold lowerUnit. destruct (isUpper c) eqn:H; [| done].
    unfold isUpper in H. apply andb_prop in H as [H1 H2].
    apply N.leb_le in H1, H2. unfold isSpace.
    repeat match goal with
           | |- context [?a <=? ?b] =>
               first [ replace (a <=? b) with true by (symmetry; apply N.leb_le; lia)
                     | replace (a <=? b) with false by (symmetry; apply N.leb_gt; lia) ]
           | |- context [?a =? ?b] =>
               replace (a =? b) with false by (symmetry; apply N.eqb_neq; lia)
           end.
    done. }
  assert (Hdrop : forall s, map lowerUnit (dropWhile isSpace s)
                            = dropWhile isSpace (map lowerUnit s)).
  { induction s as [| c s IH]; [done |]. simpl. rewrite Hspace.
    destruct (isSpace c); [apply IH | done]. }
  refine {| toLowerCase := map lowerUnit |}.
  - done.
  - induction 1 as [| a b s t Hab _ IH]; simpl; [done |]. f_equal; [| done].
    unfold sameLetter in Hab. unfold lowerUnit.
    destruct Hab as [-> | [[Ha ->] | [Hb ->]]]; [done | |].
    + rewrite Ha. unfold isUpper in *. apply andb_prop in Ha as [H1 H2].
      apply N.leb_le in H1, H2.
      replace ((65 <=? a + 32) && (a + 32 <=? 90)) with false; [done |].
      symmetry. apply andb_false_iff. right. apply N.leb_gt. lia.
    + rewrite Hb. unfold isUpper in *. apply andb_prop in Hb as [H1 H2].
      apply N.leb_le in H1, H2.
      replace ((65 <=? b + 32) && (b + 32 <=? 90)) with false; [done |].
      symmetry. apply andb_false_iff. right. apply N.leb_gt. lia.
  - intros s. unfold trim, trimEnd, trimStart.
    by rewrite map_rev, Hdrop, map_rev, Hdrop.
  - intros s. rewrite map_map. apply map_ext. intros c.
    unfold lowerUnit at 1. by rewrite Hupper.
  - intros s. apply Forall_map. apply Forall_forall. intros c _. apply Hupper.
  - intros s H. apply Forall_map. eapply Forall_impl; [apply H |].
    intros c Hc. simpl. unfold lowerUnit. destruct (isUpper c) eqn:Hu; [| done].
    unfold isUpper in Hu. apply andb_prop in Hu as [H1 H2].
    apply N.leb_le in H1, H2. lia.
  - done.
Defined.

Definition jsstring_eqb (a b : jsstring) : bool := bool_decide (a = b).

(** [startsWith pat s]: the rest of [s] after the prefix [pat]. *)
Fixpoint startsWith (pat s : jsstring) : option jsstring :=
  match pat, s with
  | [], _ => Some s
  | p :: pat', c :: s' => if p =? c then startsWith pat' s' else None
  | _ :: _, [] => None
  end.

(** [s.replace(/p/g, "")] for a single-unit class [p]. *)
Fixpoint removeAll (p : N -> bool) (s : jsstring) : jsstring :=
  match s with
  | c :: r => if p c then removeAll p r else c :: removeAll p r
  | [] => []
  end.

(** [xs.join(sep)] on strings. *)
Fixpoint joinWith (sep : jsstring) (xs : list jsstring) : jsstring :=
  match xs with
  | [] => []
  | [x] => x
  | x :: rest => x ++ sep ++ joinWith sep rest
  end.

(** ** Numbers

    A Number is an IEEE 754 binary64 value: [spec_float] at precision 53
    and maximal exponent 1024. *)

Abbreviation number := spec_float.

Definition prec : Z := 53.
Definition emax : Z := 1024.

Definition numberOfZ (z : Z) : number := binary_normalize prec emax z 0 false.

(** The binary64 value nearest to [m * 10^e] (ties to even), for [m >= 0]. *)
Definition decimalToNumber (neg : bool) (m e : Z) : number :=
  match m with
  | Z0 => S754_zero neg
  | Zneg _ => S754_nan
  | Zpos p =>
      match e with
      | Zneg k =>
          let '(q, e', l) := SFdiv_core_binary prec emax m 0 (10 ^ Zpos k) 0 in
          binary_round_aux prec emax neg q e' l
      | _ => binary_round prec emax neg (Z.to_pos (m * 10 ^ e)) 0
      end
  end.

Definition isNaN (n : number) : bool :=
  match n with S754_nan => true | _ => false end.

Definition isZero (n : number) : bool :=
  match n with S754_zero _ => true | _ => false end.

(** The digits of a natural number, most significant first. *)
Fixpoint digitsFuel (fuel : nat) (n : N) (acc : jsstring) : jsstring :=
  match fuel with
  | O => acc
  | S f =>
      let acc' := (48 + n mod 10) :: acc in
      if n <? 10 then acc' else digitsFuel f (n / 10) acc'
  end.

Definition digitsOfN (n : N) : jsstring := digitsFuel (S (N.to_nat (N.log2 n))) n [].

Fixpoint valueOfDigits (ds : jsstring) (acc : Z) : Z :=
  match ds with
  | [] => acc
  | d :: r => valueOfDigits r (10 * acc + (Z.of_N d - 48))%Z
  end.

(** The value of a well-formed ExponentPart at the head of [s], 0 when
    there is none. *)
Definition exponentPart (s : jsstring) : Z :=
  match s with
  | c :: r =>
      if (c =? 101) || (c =? 69) then
        let '(neg, r') :=
          match r with
          | 43 :: t => (false, t)
          | 45 :: t => (true, t)
          | _ => (false, r)
          end in
        match takeWhile isDigit r' with
        | [] => 0%Z
        | ds => if neg then (- valueOfDigits ds 0)%Z else valueOfDigits ds 0
        end
      else 0%Z
  | [] => 0%Z
  end.

(** [parseFloat]: leading white space is skipped, the longest prefix that
    is a StrDecimalLiteral is read, and its value rounded to a Number;
    [NaN] when no prefix is one. *)
Definition parseFloat (s : jsstring) : number :=
  let t := trimStart s in
  let '(neg, u) :=
    match t with
    | 43 :: r => (false, r)
    | 45 :: r => (true, r)
    | _ => (false, t)
    end in
  match startsWith (str "Infinity") u with
  | Some _ => S754_infinity neg
  | None =>
      let ip := takeWhile isDigit u in
      let r1 := dropWhile isDigit u in
      match r1 with
      | 46 :: r2 =>
          let fp := takeWhile isDigit r2 in
          let r3 := dropWhile isDigit r2 in
          match ip, fp with
          | [], [] => S754_nan
          | _, _ =>
              decimalToNumber neg (valueOfDigits (ip ++ fp) 0)
                (exponentPart r3 - Z.of_nat (length fp))
          end
      | _ =>
          match ip with
          | [] => S754_nan
          | _ => decimalToNumber neg (valueOfDigits ip 0) (exponentPart r1)
          end
      end
  end.

(** *** Number::toString

    For a positive finite [x = m * 2^e]: the shortest digit string [s] of
    [k] digits and the exponent [n] with [s * 10^(n-k)] rounding to [x],
    then the layout rules of the language (plain digits, a decimal point,
    or exponent notation). *)

(** [x] as the fraction [num / den]. *)
Definition fractionOf (m : positive) (e : Z) : Z * Z :=
  match e with
  | Zneg k => (Zpos m, 2 ^ Zpos k)%Z
  | _ => (Zpos m * 2 ^ e, 1)%Z
  end.

(** The [n] with [10^(n-1) <= num/den < 10^n]. *)
Fixpoint decimalExponentUp (fuel : nat) (num den n : Z) : Z :=
  match fuel with
  | O => n
  | S f => if (num <? den * 10 ^ n)%Z then n else decimalExponentUp f num den (n + 1)
  end.

Fixpoint decimalExponentDown (fuel : nat) (num den n : Z) : Z :=
  match fuel with
  | O => n
  | S f =>
      if (den <=? num * 10 ^ (1 - n))%Z then n
      else decimalExponentDown f num den (n - 1)
  end.

Definition decimalExponent (num den : Z) : Z :=
  if (den <=? num)%Z then decimalExponentUp 400 num den 1
  else decimalExponentDown 400 num den 0.

(** The candidate digit strings of length [k]: [x / 10^(n-k)] rounded
    down and up, the nearer one first. *)
Definition candidates (num den n k : Z) : list (Z * Z) :=
  let '(a, b) :=
    if (0 <=? k - n)%Z then (num * 10 ^ (k - n), den)%Z
    else (num, den * 10 ^ (n - k))%Z in
  let lo := (a / b)%Z in
  let r := (a mod b)%Z in
  let hi := (lo + 1)%Z in
  let up := if (hi <? 10 ^ k)%Z then (hi, n) else ((10 ^ (k - 1))%Z, (n + 1)%Z) in
  match (2 * r ?= b)%Z with
  | Lt => [(lo, n); up]
  | Gt => [up; (lo, n)]
  | Eq => if Z.even lo then [(lo, n); up] else [up; (lo, n)]
  end.

Definition roundTrips (x : number) (k : Z) (c : Z * Z) : bool :=
  match x, decimalToNumber false (fst c) (snd c - k) with
  | S754_finite _ m e, S754_finite _ m' e' => (Pos.eqb m m') && (Z.eqb e e')
  | _, _ => false
  end.

Fixpoint shortest (fuel : nat) (x : number) (num den n k : Z) : Z * Z * Z :=
  match fuel with
  | O => (0, 0, 0)%Z
  | S f =>
      match List.find (roundTrips x k) (candidates num den n k) with
      | Some (s, n') => (s, n', k)
      | None => shortest f x num den n (k + 1)
      end
  end.

Definition zeros (n : Z) : jsstring := repeat 48 (Z.to_nat n).

Definition layout (s n k : Z) : jsstring :=
  let ds := digitsOfN (Z.to_N s) in
  if ((k <=? n) && (n <=? 21))%Z then ds ++ zeros (n - k)
  else if ((0 <? n) && (n <=? 21))%Z then
    take (Z.to_nat n) ds ++ str "." ++ drop (Z.to_nat n) ds
  else if ((-6 <? n) && (n <=? 0))%Z then str "0." ++ zeros (- n) ++ ds
  else
    let e := (n - 1)%Z in
    let sign := if (e <? 0)%Z then str "-" else str "+" in
    let mant := if (k =? 1)%Z then ds else take 1 ds ++ str "." ++ drop 1 ds in
    mant ++ str "e" ++ sign ++ digitsOfN (Z.to_N (Z.abs e)).

Definition NumberToString (x : number) : jsstring :=
  match x with
  | S754_nan => str "NaN"
  | S754_zero _ => str "0"
  | S754_infinity s => (if s then str "-" else []) ++ str "Infinity"
  | S754_finite s m e =>
      let '(num, den) := fractionOf m e in
      let n := decimalExponent num den in
      let '(d, n', k) := shortest 17 x num den n 1 in
      (if s then str "-" else []) ++ layout d n' k
  end.

(** ** Values, exceptions, property access

    The values that travel through the two files are JSON documents
    returned by the collaborators, plus [undefined] for an absent
    property. *)

#[warnings="-register-all"]
Inductive jsval : Type :=
| Undefined
| Null
| Bool (b : bool)
| Num (n : number)
| Str (s : jsstring)
| Arr (elems : list jsval)
| Obj (props : list (jsstring * jsval)).

(** What can be thrown: an Error object with its message.  A TypeError
    comes from the engine (reading a property of [null], calling what is
    not a function) or from [fetch] when the network fails, an [Error] is
    made by the code, a SyntaxError comes from [resp.json()] on a body
    that is not JSON.  The wording of the engine's messages is not part
    of the model. *)
Inductive exn : Type :=
| TypeError (message : jsstring)
| Error (message : jsstring)
| SyntaxError (message : jsstring).

Inductive completion (A : Type) : Type :=
| Normal (a : A)
| Throw (e : exn).
Arguments Normal {A} a.
Arguments Throw {A} e.

(** Sequencing of steps that may throw. *)
Definition bindC {A B} (c : completion A) (f : A -> completion B) : completion B :=
  match c with
  | Normal a => f a
  | Throw e => Throw e
  end.

Declare Scope completion_scope.
Delimit Scope completion_scope with completion.
Notation "x <- m ;; k" := (bindC m (fun x => k))
  (at level 100, m at next level, k at level 200, right associativity)
  : completion_scope.
Local Open Scope completion_scope.

Definition truthy (v : jsval) : bool :=
  match v with
  | Undefined | Null => false
  | Bool b => b
  | Num n => negb (isZero n || isNaN n)
  | Str s => match s with [] => false | _ => true end
  | Arr _ | Obj _ => true
  end.

Definition nullish (v : jsval) : bool :=
  match v with Undefined | Null => true | _ => false end.

(** [a || b] and [a ?? b] on operands already evaluated. *)
Definition orElse (a b : jsval) : jsval := if truthy a then a else b.
Definition coalesce (a b : jsval) : jsval := if nullish a then b else a.

Declare Scope js_scope.
Delimit Scope js_scope with js.
Infix "|||" := orElse (at level 50, left associativity) : js_scope.
Infix "???" := coalesce (at level 50, left associativity) : js_scope.
Local Open Scope js_scope.

Fixpoint lookupProp (k : jsstring) (ps : list (jsstring * jsval)) : jsval :=
  match ps with
  | [] => Undefined
  | (k', v) :: rest => if jsstring_eqb k' k then v else lookupProp k rest
  end.

Fixpoint hasProp (k : jsstring) (ps : list (jsstring * jsval)) : bool :=
  match ps with
  | [] => false
  | (k', _) :: rest => jsstring_eqb k' k || hasProp k rest
  end.

(** [v.k], for the property names the sources read (none of them is
    defined on a built-in prototype, so a primitive, an array or a string
    has them only as [length]). *)
Definition Get (v : jsval) (k : string) : completion jsval :=
  match v with
  | Undefined | Null =>
      Throw (TypeError (str "Cannot read properties of " ++ str k))
  | Obj ps => Normal (lookupProp (str k) ps)
  | Arr xs =>
      if jsstring_eqb (str k) (str "length")
      then Normal (Num (numberOfZ (Z.of_nat (length xs))))
      else Normal Undefined
  | Str s =>
      if jsstring_eqb (str k) (str "length")
      then Normal (Num (numberOfZ (Z.of_nat (length s))))
      else Normal Undefined
  | Bool _ | Num _ => Normal Undefined
  end.

(** [v[i]]. *)
Definition GetIndex (v : jsval) (i : nat) : completion jsval :=
  match v with
  | Undefined | Null => Throw (TypeError (str "Cannot read properties of index"))
  | Obj ps => Normal (lookupProp (digitsOfN (N.of_nat i)) ps)
  | Arr xs => Normal (nth i xs Undefined)
  | Str s => Normal (match s !! i with Some c => Str [c] | None => Undefined end)
  | Bool _ | Num _ => Normal Undefined
  end.

(** [v?.k] and [v?.[i]]. *)
Definition GetOpt (v : jsval) (k : string) : completion jsval :=
  if nullish v then Normal Undefined else Get v k.
Definition GetIndexOpt (v : jsval) (i : nat) : completion jsval :=
  if nullish v then Normal Undefined else GetIndex v i.

(** ToString, as applied by template literals, [join] and [toString()].
    An array prints its elements joined by commas, [null] and [undefined]
    elements as nothing.  An object prints through
    [Object.prototype.toString] unless the document gave it a [toString]
    property of its own, which is not callable. *)
Fixpoint ToString (v : jsval) : completion jsstring :=
  match v with
  | Undefined => Normal (str "undefined")
  | Null => Normal (str "null")
  | Bool true => Normal (str "true")
  | Bool false => Normal (str "false")
  | Num n => Normal (NumberToString n)
  | Str s => Normal s
  | Arr xs =>
      let fix each (xs : list jsval) : completion (list jsstring) :=
        match xs with
        | [] => Normal []
        | x :: rest =>
            s <- (if nullish x then Normal [] else ToString x) ;;
            ss <- each rest ;;
            Normal (s :: ss)
        end in
      ss <- each xs ;; Normal (joinWith (str ",") ss)
  | Obj ps =>
      if hasProp (str "toString") ps
      then Throw (TypeError (str "Cannot convert object to primitive value"))
      else Normal (str "[object Object]")
  end.

(** [xs.join(sep)] on values. *)
Fixpoint joinValues (sep : jsstring) (xs : list jsval) : completion jsstring :=
  match xs with
  | [] => Normal []
  | x :: rest =>
      s <- (if nullish x then Normal [] else ToString x) ;;
      match rest with
      | [] => Normal s
      | _ => t <- joinValues sep rest ;; Normal (s ++ sep ++ t)
      end
  end.

(** ** Collaborators, the cache and the effects of a request *)

(** An extracted or resolved price: [{ value, currency, raw, source }],
    with [ts] once resolved and [cached] once served from the cache.  A
    property the object does not have reads as [Undefined]. *)
Record price : Type := Price {
  value : jsval;
  currency : jsval;
  raw : jsval;
  source : jsval;
  ts : jsval;
  cached : jsval
}.

(** A cache entry [{ ts: now, value: out }]. *)
Record CacheEntry : Type := Entry {
  timestamp : Z;
  payload : price
}.

(** The requests sent with [fetch]: the Exa search for a query, the OpenAI
    embedding of a text, the Pinecone query for a vector and a breadth. *)
Inductive request : Type :=
| ExaSearch (query : jsstring)
| Embeddings (input : jsstring)
| PineconeQuery (vector : jsval) (topK : Z).

(** What [fetch] resolves with: [resp.ok], [resp.status], and what
    [resp.text()] and [resp.json()] give. *)
Record Response : Type := {
  ok : bool;
  status : number;
  text : completion jsstring;
  json : completion jsval
}.

(** What one run observes of the outside: the configured API key, the
    behaviour of [fetch], the clock ([Date.now()] and
    [new Date().toISOString()]) and whether the dynamic import of the
    helper gives a function. *)
Record env : Type := {
  EXA_API_KEY : jsval;
  fetch : request -> completion Response;
  Date_now : Z;
  toISOString : jsstring;
  liveLibLoads : bool
}.

(** What a run does to the outside: the requests it sends and the calls
    of the handler to the live price helper.  Console output is not part
    of the model. *)
Inductive event : Type :=
| Fetched (r : request)
| Resolving (brand model reference_number : jsval).

(** The module-level [cache] and the calls made so far. *)
Record world : Type := World {
  cache : gmap jsstring CacheEntry;
  trace : list event
}.

Definition prog (A : Type) : Type := world -> completion A * world.

Definition retP {A} (a : A) : prog A := fun w => (Normal a, w).
Definition bindP {A B} (m : prog A) (f : A -> prog B) : prog B :=
  fun w =>
    match m w with
    | (Normal a, w') => f a w'
    | (Throw e, w') => (Throw e, w')
    end.

Declare Scope prog_scope.
Delimit Scope prog_scope with prog.
Notation "x <- m ;; k" := (bindP m (fun x => k))
  (at level 100, m at next level, k at level 200, right associativity)
  : prog_scope.
Notation "m ;; k" := (bindP m (fun _ => k))
  (at level 100, k at level 200, right associativity) : prog_scope.

Definition lift {A} (c : completion A) : prog A := fun w => (c, w).
Definition throw {A} (e : exn) : prog A := fun w => (Throw e, w).
Definition emit (ev : event) : prog unit :=
  fun w => (Normal tt, World (cache w) (trace w ++ [ev])).
Definition cacheGet (k : jsstring) : prog (option CacheEntry) :=
  fun w => (Normal (cache w !! k), w).
Definition cacheSet (k : jsstring) (e : CacheEntry) : prog unit :=
  fun w => (Normal tt, World (<[k := e]> (cache w)) (trace w)).
Definition tryCatch {A} (body : prog A) (handler : exn -> prog A) : prog A :=
  fun w =>
    match body w with
    | (Normal a, w') => (Normal a, w')
    | (Throw e, w') => handler e w'
    end.

(** [await fetch(...)]. *)
Definition doFetch (E : env) (r : request) : prog Response :=
  (emit (Fetched r) ;; lift (fetch E r))%prog.

(** [await resp.text().catch(() => "")]. *)
Definition textOrEmpty (resp : Response) : jsstring :=
  match text resp with Normal t => t | Throw _ => [] end.

(** ** A second trace, for the scraper

    The second copy of the helper has one more collaborator, a scraper
    service; what that copy does is recorded in a trace of its own. *)

(** [SCRAPER_BASE] and what [fetch] gives for a search-price request with
    the query. *)
Record scraper : Type := Scraper {
  SCRAPER_BASE : jsval;
  scraperFetch : jsstring -> completion Response
}.

Inductive event2 : Type :=
| Base (ev : event)
| ScraperFetched (query : jsstring).

Record world2 : Type := World2 {
  cache2 : gmap jsstring CacheEntry;
  trace2 : list event2
}.

Definition prog2 (A : Type) : Type := world2 -> completion A * world2.

Definition retP2 {A} (a : A) : prog2 A := fun w => (Normal a, w).
Definition bindP2 {A B} (m : prog2 A) (f : A -> prog2 B) : prog2 B :=
  fun w =>
    match m w with
    | (Normal a, w') => f a w'
    | (Throw e, w') => (Throw e, w')
    end.

Declare Scope prog2_scope.
Delimit Scope prog2_scope with prog2.
Notation "x <- m ;; k" := (bindP2 m (fun x => k))
  (at level 100, m at next level, k at level 200, right associativity)
  : prog2_scope.
Notation "m ;; k" := (bindP2 m (fun _ => k))
  (at level 100, k at level 200, right associativity) : prog2_scope.

Definition lift2 {A} (c : completion A) : prog2 A := fun w => (c, w).
Definition cacheGet2 (k : jsstring) : prog2 (option CacheEntry) :=
  fun w => (Normal (cache2 w !! k), w).
Definition cacheSet2 (k : jsstring) (e : CacheEntry) : prog2 unit :=
  fun w => (Normal tt, World2 (<[k := e]> (cache2 w)) (trace2 w)).
Definition tryCatch2 {A} (body : prog2 A) (handler : exn -> prog2 A) : prog2 A :=
  fun w =>
    match body w with
    | (Normal a, w') => (Normal a, w')
    | (Throw e, w') => handler e w'
    end.

(** A step of the first copy, run on the cache of this one; what it sends
    is appended to the trace. *)
Definition liftP {A} (p : prog A) : prog2 A :=
  fun w =>
    let '(r, w') := p (World (cache2 w) []) in
    (r, World2 (cache w') (trace2 w ++ map Base (trace w'))).

(** [await fetch(`${SCRAPER_BASE}/v1/search-price`, ...)]. *)
Definition doScraperFetch (S : scraper) (query : jsstring) : prog2 Response :=
  fun w => (scraperFetch S query,
            World2 (cache2 w) (trace2 w ++ [ScraperFetched query])).

(** * The two files

    From here on the case mapping of the engine is a parameter. *)

Section Engine.
Context {CM : CaseMapping}.

(** ** lib/livePriceNoUrls.js *)

(** [v.toLowerCase()]: a method of strings only. *)
Definition callToLowerCase (v : jsval) : completion jsstring :=
  match v with
  | Str s => Normal (toLowerCase s)
  | _ => Throw (TypeError (str "toLowerCase is not a function"))
  end.

Definition CACHE_TTL_MS : Z := 5 * 60 * 1000.

(** [(x||"").toLowerCase().trim()]. *)
Definition lowerTrim (x : jsval) : completion jsstring :=
  s <- callToLowerCase (x ||| Str []) ;; Normal (trim s).

Definition makeCacheKey (brand model ref : jsval) : completion jsstring :=
  b <- lowerTrim brand ;;
  m <- lowerTrim model ;;
  r <- lowerTrim ref ;;
  Normal (b ++ str "|" ++ m ++ str "|" ++ r).

(** *** The pattern [/(USD|EUR|GBP|CHF|INR|\$|€|£|₹)\s?([0-9\.,]{2,})/i]

    [m0] is the whole match, [m1] the currency group, [m2] the numeric
    group. *)
Record priceMatch : Type := Match {
  m0 : jsstring;
  m1 : jsstring;
  m2 : jsstring
}.

(** The alternatives of the first group, in the order the pattern lists
    them: USD, EUR, GBP, CHF, INR, dollar, euro, pound and rupee signs. *)
Definition currencyMarkers : list jsstring :=
  [str "USD"; str "EUR"; str "GBP"; str "CHF"; str "INR";
   [36]; [8364]; [163]; [8377]].

(** The [i] flag compares code units after canonicalisation, which on the
    units of this pattern is the ASCII upper case. *)
Definition canonicalize (c : N) : N := upperUnit c.

(** A literal at the head of [s], ignoring case: the text it matched and
    what follows. *)
Fixpoint matchLiteral (pat s : jsstring) : option (jsstring * jsstring) :=
  match pat, s with
  | [], _ => Some ([], s)
  | p :: pat', c :: s' =>
      if canonicalize p =? canonicalize c then
        match matchLiteral pat' s' with
        | Some (m, rest) => Some (c :: m, rest)
        | None => None
        end
      else None
  | _ :: _, [] => None
  end.

(** The class [[0-9\.,]]. *)
Definition isPriceChar (c : N) : bool := isDigit c || (c =? 46) || (c =? 44).

(** [([0-9\.,]{2,})] at the head of [s]: greedy, at least two units. *)
Definition matchNumber (s : jsstring) : option jsstring :=
  let num := takeWhile isPriceChar s in
  if (2 <=? length num)%nat then Some num else None.

(** [\s?([0-9\.,]{2,})] after the currency [cur]: the optional white space
    is tried first, then skipped. *)
Definition matchTail (cur s : jsstring) : option priceMatch :=
  let without :=
    match matchNumber s with
    | Some num => Some (Match (cur ++ num) cur num)
    | None => None
    end in
  match s with
  | c :: s' =>
      if isSpace c then
        match matchNumber s' with
        | Some num => Some (Match (cur ++ c :: num) cur num)
        | None => without
        end
      else without
  | [] => without
  end.

(** One alternative of the first group, followed by the tail. *)
Definition matchOne (pat s : jsstring) : option priceMatch :=
  match matchLiteral pat s with
  | Some (cur, rest) => matchTail cur rest
  | None => None
  end.

(** The alternatives in order, first success. *)
Fixpoint matchAlternatives (alts : list jsstring) (s : jsstring) : option priceMatch :=
  match alts with
  | [] => None
  | pat :: more =>
      match matchOne pat s with
      | Some m => Some m
      | None => matchAlternatives more s
      end
  end.

Definition matchAt (s : jsstring) : option priceMatch :=
  matchAlternatives currencyMarkers s.

(** [text.match(re)]: the match at the leftmost position that has one. *)
Fixpoint priceRegExpExec (s : jsstring) : option priceMatch :=
  match matchAt s with
  | Some m => Some m
  | None =>
      match s with
      | [] => None
      | _ :: rest => priceRegExpExec rest
      end
  end.

Definition isComma (c : N) : bool := c =? 44.

Definition parsePriceFromText (text : jsval) : completion (option price) :=
  if negb (truthy text) then Normal None
  else
    match text with
    | Str t =>
        match priceRegExpExec t with
        | None => Normal None
        | Some m =>
            let currency := m1 m in
            let rawNum := removeAll isSpace (m2 m) in
            let numeric := parseFloat (removeAll isComma rawNum) in
            if isNaN numeric
            then Normal (Some (Price Undefined (Str currency) (Str (m0 m))
                                 Undefined Undefined Undefined))
            else Normal (Some (Price (Num numeric) (Str currency) (Str (m0 m))
                                 Undefined Undefined Undefined))
        end
    | _ => Throw (TypeError (str "text.match is not a function"))
    end.

Definition callExaSearch (E : env) (query : jsstring) : prog jsval :=
  (if negb (truthy (EXA_API_KEY E))
   then throw (Error (str "EXA_API_KEY not configured"))
   else
     resp <- doFetch E (ExaSearch query) ;;
     if negb (ok resp) then
       let txt := textOrEmpty resp in
       throw (Error (str "Exa error " ++ NumberToString (status resp)
                       ++ str ": " ++ txt))
     else
       data <- lift (json resp) ;;
       retP data)%prog.

(** [p && (p.value || p.raw)] as a condition. *)
Definition hasPrice (p : jsval) : completion bool :=
  if truthy p then
    v <- Get p "value" ;;
    if truthy v then Normal true
    else r <- Get p "raw" ;; Normal (truthy r)
  else Normal false.

(** [{ value: p.value || null, currency: p.currency || null,
       raw: p.raw || null, source }]. *)
Definition priceOfField (p src : jsval) : completion price :=
  v <- Get p "value" ;;
  c <- Get p "currency" ;;
  r <- Get p "raw" ;;
  Normal (Price (v ||| Null) (c ||| Null) (r ||| Null) src Undefined Undefined).

(** [{ ...parsed, source }]. *)
Definition withSource (parsed : price) (src : jsval) : price :=
  Price (value parsed) (currency parsed) (raw parsed) src (ts parsed) (cached parsed).

(** The body of [for (const r of data.results)], run on the entries in
    order. *)
Fixpoint scanResults (rs : list jsval) : completion (option price) :=
  match rs with
  | [] => Normal None
  | r :: rest =>
      p <- Get r "price" ;;
      structured <- hasPrice p ;;
      if structured then
        url <- Get r "url" ;;
        src <- Get r "source" ;;
        c <- priceOfField p (url ||| src ||| Null) ;;
        Normal (Some c)
      else
        title <- Get r "title" ;;
        snippet <- Get r "snippet" ;;
        summary <- Get r "summary" ;;
        text <- joinValues (str " ")
                 [title ||| Str []; snippet ||| Str []; summary ||| Str []] ;;
        parsed <- parsePriceFromText (Str text) ;;
        match parsed with
        | Some c =>
            url <- Get r "url" ;;
            src <- Get r "source" ;;
            Normal (Some (withSource c (url ||| src ||| Null)))
        | None => scanResults rest
        end
  end.

Definition extractCandidateFromExaResponse (data : jsval) : completion (option price) :=
  if negb (truthy data) then Normal None
  else
    (* 1) explicit price field *)
    p <- Get data "price" ;;
    top <- hasPrice p ;;
    if top then
      src <- Get data "source" ;;
      c <- priceOfField p (src ||| Null) ;;
      Normal (Some c)
    else
      (* 2) results array *)
      results <- Get data "results" ;;
      fromResults <-
        match results with
        | Arr (r :: rest) => scanResults (r :: rest)
        | _ => Normal None
        end ;;
      match fromResults with
      | Some c => Normal (Some c)
      | None =>
          (* 3) raw text *)
          txt <- Get data "text" ;;
          if truthy txt then
            parsed <- parsePriceFromText txt ;;
            match parsed with
            | Some c =>
                src <- Get data "source" ;;
                Normal (Some (withSource c (src ||| Null)))
            | None => Normal None
            end
          else Normal None
      end.

(** The search query
    [`${brand} ${model}${refPart} price Chrono24 Jomashop "price"`]. *)
Definition buildQuery (brand model reference_number : jsval) : completion jsstring :=
  refPart <-
    (if truthy reference_number
     then r <- ToString reference_number ;; Normal (str " " ++ r)
     else Normal []) ;;
  b <- ToString brand ;;
  m <- ToString model ;;
  Normal (b ++ str " " ++ m ++ refPart
            ++ str " price Chrono24 Jomashop " ++ [34] ++ str "price" ++ [34]).

(** [{ ...cached.value, cached: true }]. *)
Definition servedFromCache (p : price) : price :=
  Price (value p) (currency p) (raw p) (source p) (ts p) (Bool true).

(** [cached && (now - cached.ts) < CACHE_TTL_MS]: the entry, when it is
    there and fresh. *)
Definition freshEntry (now : Z) (cached : option CacheEntry) : option CacheEntry :=
  match cached with
  | Some c => if (now - timestamp c <? CACHE_TTL_MS)%Z then Some c else None
  | None => None
  end.

Definition getLivePriceNoUrl (E : env) (brand model reference_number : jsval)
  : prog (option price) :=
  (key <- lift (makeCacheKey brand model reference_number) ;;
   let now := Date_now E in
   cached <- cacheGet key ;;
   match freshEntry now cached with
   | Some c => retP (Some (servedFromCache (payload c)))
   | None =>
       query <- lift (buildQuery brand model reference_number) ;;
       tryCatch
         (data <- callExaSearch E query ;;
          candidate <- lift (extractCandidateFromExaResponse data) ;;
          match candidate with
          | Some c =>
              let out :=
                Price (value c ||| Null) (currency c ||| Null) (raw c ||| Null)
                  (source c ||| Str (str "exa-search")) (Str (toISOString E))
                  Undefined in
              cacheSet key (Entry now out) ;;
              retP (Some out)
          | None => retP None
          end)
         (fun e => retP None)
   end)%prog.

(** ** app/api/chat/route.ts *)

(** [j?.data?.[0]?.embedding] and [j.data[0].embedding]. *)
Definition embeddingOpt (j : jsval) : completion jsval :=
  d <- GetOpt j "data" ;;
  d0 <- GetIndexOpt d 0 ;;
  GetOpt d0 "embedding".

Definition embeddingOf (j : jsval) : completion jsval :=
  d <- Get j "data" ;;
  d0 <- GetIndex d 0 ;;
  Get d0 "embedding".

Definition getEmbedding (E : env) (text : jsstring) : prog jsval :=
  (res <- doFetch E (Embeddings text) ;;
   if negb (ok res) then
     let txt := textOrEmpty res in
     throw (Error (str "OpenAI embedding error: " ++ NumberToString (status res)
                     ++ str " " ++ txt))
   else
     j <- lift (json res) ;;
     e <- lift (embeddingOpt j) ;;
     if negb (truthy e) then throw (Error (str "OpenAI returned no embedding"))
     else lift (embeddingOf j))%prog.

Definition queryPineconeVector (E : env) (embedding : jsval) (topK : Z) : prog jsval :=
  (resp <- doFetch E (PineconeQuery embedding topK) ;;
   if negb (ok resp) then
     let txt := textOrEmpty resp in
     throw (Error (str "Pinecone query error: " ++ NumberToString (status resp)
                     ++ str " " ++ txt))
   else lift (json resp))%prog.

(** The metadata of the top match "in a stable shape". *)
Record CatalogMatch : Type := Meta {
  id : jsval;
  score : jsval;
  brand : jsval;
  model_name : jsval;
  reference_number : jsval;
  description : jsval;
  category : jsval;
  movement : jsval;
  caliber : jsval
}.

(** [(pineconeResponse && pineconeResponse.matches) || []]. *)
Definition matchesOf (pineconeResponse : jsval) : completion jsval :=
  m <- (if truthy pineconeResponse then Get pineconeResponse "matches"
        else Normal pineconeResponse) ;;
  Normal (m ||| Arr []).

(** The first copy of route.ts (the score is [top.score ?? null]). *)
Definition extractTopMetadata (pineconeResponse : jsval) : completion (option CatalogMatch) :=
  matches <- matchesOf pineconeResponse ;;
  if negb (truthy matches) then Normal None
  else
    len <- Get matches "length" ;;
    if negb (truthy len) then Normal None
    else
      top <- GetIndex matches 0 ;;
      md <- Get top "metadata" ;;
      let metadata := md ||| Obj [] in
      top_id <- Get top "id" ;;
      md_id <- Get metadata "id" ;;
      top_score <- Get top "score" ;;
      md_brand <- Get metadata "brand" ;;
      md_model_name <- Get metadata "model_name" ;;
      md_reference_number <- Get metadata "reference_number" ;;
      md_description <- Get metadata "description" ;;
      md_category <- Get metadata "category" ;;
      md_movement <- Get metadata "movement" ;;
      md_caliber <- Get metadata "caliber" ;;
      Normal (Some (Meta
        (top_id ||| md_id ||| Null)
        (top_score ??? Null)
        (md_brand ||| Str [])
        (md_model_name ||| Str [])
        (md_reference_number ||| Str [])
        (md_description ||| Str [])
        (md_category ||| Str [])
        (md_movement ||| Str [])
        (md_caliber ||| Str []))).

(** The second copy of route.ts: [if (!matches.length) return null] and
    the score is [top.score || null]. *)
Definition extractTopMetadata2 (pineconeResponse : jsval) : completion (option CatalogMatch) :=
  matches <- matchesOf pineconeResponse ;;
  len <- Get matches "length" ;;
  if negb (truthy len) then Normal None
  else
    top <- GetIndex matches 0 ;;
    md <- Get top "metadata" ;;
    let metadata := md ||| Obj [] in
    top_id <- Get top "id" ;;
    md_id <- Get metadata "id" ;;
    top_score <- Get top "score" ;;
    md_brand <- Get metadata "brand" ;;
    md_model_name <- Get metadata "model_name" ;;
    md_reference_number <- Get metadata "reference_number" ;;
    md_description <- Get metadata "description" ;;
    md_category <- Get metadata "category" ;;
    md_movement <- Get metadata "movement" ;;
    md_caliber <- Get metadata "caliber" ;;
    Normal (Some (Meta
      (top_id ||| md_id ||| Null)
      (top_score ||| Null)
      (md_brand ||| Str [])
      (md_model_name ||| Str [])
      (md_reference_number ||| Str [])
      (md_description ||| Str [])
      (md_category ||| Str [])
      (md_movement ||| Str [])
      (md_caliber ||| Str []))).

(** What [NextResponse.json] is given: [{ error }] or
    [{ answer, provenance?, metadata? }], and the status (200 when none is
    passed). *)
Record provenanceEntry : Type := Provenance {
  prov_source : jsval;
  prov_raw : jsval
}.

Inductive responseBody : Type :=
| ErrorBody (error : jsval)
| AnswerBody (answer : jsstring) (provenance : option (list provenanceEntry))
    (metadata : option CatalogMatch).

Record NextResponse : Type := Json {
  body : responseBody;
  httpStatus : Z
}.

(** [e?.message]. *)
Definition messageOf (e : exn) : jsval :=
  match e with
  | TypeError message | Error message | SyntaxError message => Str message
  end.

(** [body?.question?.toString() || ""]. *)
Definition questionOf (body : jsval) : completion jsstring :=
  q <- GetOpt body "question" ;;
  if nullish q then Normal []
  else ToString q.

(** [/price|cost|market|listing|resale|sell|how much|current price|value/i]. *)
Definition priceTerms : list jsstring :=
  [str "price"; str "cost"; str "market"; str "listing"; str "resale";
   str "sell"; str "how much"; str "current price"; str "value"].

Definition anyLiteralAt (alts : list jsstring) (s : jsstring) : bool :=
  existsb (fun pat => match matchLiteral pat s with Some _ => true | None => false end) alts.

(** [re.test(s)]: some alternative matches at some position. *)
Fixpoint regExpTest (alts : list jsstring) (s : jsstring) : bool :=
  anyLiteralAt alts s ||
  match s with
  | [] => false
  | _ :: rest => regExpTest alts rest
  end.

Definition newline : jsstring := [10].
Definition emDash : jsstring := [8212].

Definition noMatchAnswer : jsstring :=
  str "I couldn't find a matching model in the catalog. Try asking about a specific brand/model.".

(** [`${meta.brand} ${meta.model_name} (${meta.reference_number})`]. *)
Definition catalogHeading (meta : CatalogMatch) : completion jsstring :=
  b <- ToString (brand meta) ;;
  m <- ToString (model_name meta) ;;
  r <- ToString (reference_number meta) ;;
  Normal (b ++ str " " ++ m ++ str " (" ++ r ++ str ")").

Definition unavailableAnswer (meta : CatalogMatch) : completion jsstring :=
  h <- catalogHeading meta ;;
  d <- ToString (description meta) ;;
  Normal (str "Live price lookup is not available. Here's catalog info:"
            ++ newline ++ newline ++ h ++ newline ++ d).

Definition liveAnswer (live : price) : completion jsstring :=
  c <- ToString (currency live ||| Str []) ;;
  v <- ToString (value live) ;;
  s <- ToString (source live ||| Str (str "web search")) ;;
  t <- ToString (ts live) ;;
  Normal (str "Live listing: " ++ c ++ str " " ++ v ++ str " " ++ emDash
            ++ str " source: " ++ s ++ str " (as of " ++ t ++ str ").").

Definition degradedAnswer (meta : CatalogMatch) : completion jsstring :=
  h <- catalogHeading meta ;;
  d <- ToString (description meta) ;;
  Normal (str "I couldn't fetch a clear live listing price right now. Here's the catalog info I found:"
            ++ newline ++ newline ++ h ++ newline ++ d).

Definition catalogAnswer (meta : CatalogMatch) : completion jsstring :=
  h <- catalogHeading meta ;;
  d <- ToString (description meta) ;;
  Normal (h ++ str ":" ++ newline ++ d).

Definition isEmpty (s : jsstring) : bool :=
  match s with [] => true | _ => false end.

(** The [try] block of the POST handler (first copy of route.ts). *)
Definition POST_try (E : env) (req_json : completion jsval) : prog NextResponse :=
  (body <- lift req_json ;;
   question <- lift (questionOf body) ;;
   if isEmpty question || isEmpty (trim question)
   then retP (Json (ErrorBody (Str (str "question required"))) 400)
   else
     (* 1) embedding *)
     embedding <- getEmbedding E question ;;
     (* 2) Pinecone *)
     pcResp <- queryPineconeVector E embedding 3 ;;
     meta <- lift (extractTopMetadata pcResp) ;;
     match meta with
     | None => retP (Json (AnswerBody noMatchAnswer None None) 200)
     | Some meta =>
         (* 3) price intent *)
         let needsPrice := regExpTest priceTerms question in
         if needsPrice then
           if negb (liveLibLoads E) then
             a <- lift (unavailableAnswer meta) ;;
             retP (Json (AnswerBody a None (Some meta)) 200)
           else
             let b := brand meta ||| Str [] in
             let m := model_name meta ||| Str [] in
             let r := reference_number meta ||| Str [] in
             emit (Resolving b m r) ;;
             live <- getLivePriceNoUrl E b m r ;;
             match live with
             | Some live =>
                 a <- lift (liveAnswer live) ;;
                 retP (Json (AnswerBody a
                         (Some [Provenance (source live ||| Str (str "exa"))
                                  (raw live ||| Str [])])
                         (Some meta)) 200)
             | None =>
                 a <- lift (degradedAnswer meta) ;;
                 retP (Json (AnswerBody a None (Some meta)) 200)
             end
         else
           (* 4) catalogue description *)
           a <- lift (catalogAnswer meta) ;;
           retP (Json (AnswerBody a None (Some meta)) 200)
     end)%prog.

(** The POST handler: the block above, and its [catch]. *)
Definition POST (E : env) (req_json : completion jsval) : prog NextResponse :=
  tryCatch (POST_try E req_json)
    (fun e => retP (Json (ErrorBody (messageOf e ||| Str (str "internal error"))) 500)).

(** A first run starts from the empty cache and no call made. *)
Definition initialWorld : world := World ∅ [].

(** ** app/api/chat/route.ts, the second copy

    The second copy reads the error body with [await res.text()] (no
    [catch]), returns [j.data[0].embedding] without looking at it, awaits
    the import of the helper outside any inner [try], and falls through
    to the catalogue answer when the import gives no function.  What the
    import gives is a parameter here: it rejects, or it resolves to a
    module that exports the function or not. *)

(** [await res.text()]. *)
Definition textOf (resp : Response) : completion jsstring := text resp.

Definition getEmbedding2 (E : env) (text : jsstring) : prog jsval :=
  (res <- doFetch E (Embeddings text) ;;
   if negb (ok res) then
     txt <- lift (textOf res) ;;
     throw (Error (str "OpenAI embedding error: " ++ NumberToString (status res)
                     ++ str " " ++ txt))
   else
     j <- lift (json res) ;;
     lift (embeddingOf j))%prog.

Definition queryPineconeVector2 (E : env) (embedding : jsval) (topK : Z) : prog jsval :=
  (res <- doFetch E (PineconeQuery embedding topK) ;;
   if negb (ok res) then
     txt <- lift (textOf res) ;;
     throw (Error (str "Pinecone query error: " ++ NumberToString (status res)
                     ++ str " " ++ txt))
   else lift (json res))%prog.

(** The [try] block of the second POST handler.  [liveLib] is the outcome
    of [await import("../../../lib/livePriceNoUrls")]: whether the module
    exports the function, or the rejection. *)
Definition POST2_try (E : env) (liveLib : completion bool) (req_json : completion jsval)
  : prog NextResponse :=
  (body <- lift req_json ;;
   question <- lift (questionOf body) ;;
   if isEmpty question || isEmpty (trim question)
   then retP (Json (ErrorBody (Str (str "question required"))) 400)
   else
     (* 1) embedding *)
     embedding <- getEmbedding2 E question ;;
     (* 2) Pinecone *)
     pcResp <- queryPineconeVector2 E embedding 3 ;;
     meta <- lift (extractTopMetadata2 pcResp) ;;
     match meta with
     | None => retP (Json (AnswerBody noMatchAnswer None None) 200)
     | Some meta =>
         let description :=
           (* 4) catalogue description *)
           (a <- lift (catalogAnswer meta) ;;
            retP (Json (AnswerBody a None (Some meta)) 200)) in
         (* 3) price intent *)
         let needsPrice := regExpTest priceTerms question in
         if needsPrice then
           isFunction <- lift liveLib ;;
           if negb isFunction then description
           else
             let b := brand meta ||| Str [] in
             let m := model_name meta ||| Str [] in
             let r := reference_number meta ||| Str [] in
             emit (Resolving b m r) ;;
             live <- getLivePriceNoUrl E b m r ;;
             match live with
             | Some live =>
                 a <- lift (liveAnswer live) ;;
                 retP (Json (AnswerBody a
                         (Some [Provenance (source live ||| Str (str "exa"))
                                  (raw live ||| Str [])])
                         (Some meta)) 200)
             | None =>
                 a <- lift (degradedAnswer meta) ;;
                 retP (Json (AnswerBody a None (Some meta)) 200)
             end
         else description
     end)%prog.

Definition POST2 (E : env) (liveLib : completion bool) (req_json : completion jsval)
  : prog NextResponse :=
  tryCatch (POST2_try E liveLib req_json)
    (fun e => retP (Json (ErrorBody (messageOf e ||| Str (str "internal error"))) 500)).

(** ** lib/livePriceNoUrls.js, the second copy

    The second copy of the helper has the same key, parser, provider call
    (the request body names its fields otherwise; the model keeps the
    query) and candidate extraction.  Its resolver takes [options], ends
    the search query otherwise, and on a miss that the search provider
    does not settle may ask a scraper service.  The scraper is one more
    collaborator, so the effects of this copy are recorded in a trace of
    its own. *)

(** The search query
    [`${brand} ${model}${refPart} price Chrono24 Jomashop Bob's Watches`]. *)
Definition buildQuery2 (brand model reference_number : jsval) : completion jsstring :=
  refPart <-
    (if truthy reference_number
     then r <- ToString reference_number ;; Normal (str " " ++ r)
     else Normal []) ;;
  b <- ToString brand ;;
  m <- ToString model ;;
  Normal (b ++ str " " ++ m ++ refPart
            ++ str " price Chrono24 Jomashop Bob's Watches").

(** Step 4 of the resolver, inside its [try]: the scraper's answer as a
    record, stored and returned, or nothing. *)
Definition scrape (E : env) (S : scraper) (key query : jsstring) : prog2 (option price) :=
  (sResp <- doScraperFetch S query ;;
   if ok sResp then
     js <- lift2 (json sResp) ;;
     p <- lift2 (GetOpt js "price") ;;
     if truthy p then
       c <- lift2 (Get js "currency") ;;
       r <- lift2 (Get js "raw_price_text") ;;
       src <- lift2 (Get js "source") ;;
       let out := Price p c r (src ||| Str (str "scraper-fallback"))
                    (Str (toISOString E)) Undefined in
       cacheSet2 key (Entry (Date_now E) out) ;;
       retP2 (Some out)
     else retP2 None
   else retP2 None)%prog2.

(** Step 3 of the resolver: the search provider, as in the first copy. *)
Definition searchStep (E : env) (key query : jsstring) : prog (option price) :=
  tryCatch
    (data <- callExaSearch E query ;;
     candidate <- lift (extractCandidateFromExaResponse data) ;;
     match candidate with
     | Some c =>
         let out :=
           Price (value c ||| Null) (currency c ||| Null) (raw c ||| Null)
             (source c ||| Str (str "exa-search")) (Str (toISOString E))
             Undefined in
         cacheSet key (Entry (Date_now E) out) ;;
         retP (Some out)
     | None => retP None
     end)%prog
    (fun e => retP None).

(** [getLivePriceNoUrl({ brand, model, reference_number, options = {} })]. *)
Definition getLivePriceNoUrl2 (E : env) (S : scraper)
    (brand model reference_number options : jsval) : prog2 (option price) :=
  (let options := match options with Undefined => Obj [] | _ => options end in
   key <- lift2 (makeCacheKey brand model reference_number) ;;
   let now := Date_now E in
   cached <- cacheGet2 key ;;
   match freshEntry now cached with
   | Some c => retP2 (Some (servedFromCache (payload c)))
   | None =>
       query <- lift2 (buildQuery2 brand model reference_number) ;;
       found <- liftP (searchStep E key query) ;;
       match found with
       | Some out => retP2 (Some out)
       | None =>
           use <- lift2 (Get options "useScraperFallback") ;;
           if truthy use && truthy (SCRAPER_BASE S) then
             tryCatch2 (scrape E S key query) (fun e => retP2 None)
           else retP2 None
       end
   end)%prog2.

(** ** Vocabulary of the properties *)

(** *** Key normalisation *)

Definition allSpace (s : jsstring) : Prop := Forall (fun c => isSpace c = true) s.

(** [t] is [s] with the case of some letters changed and white space put
    before and after. *)
Definition variantOf (s t : jsstring) : Prop :=
  exists pre core post,
    t = pre ++ core ++ post /\ allSpace pre /\ allSpace post /\
    Forall2 sameLetter s core.

(** *** The price pattern, as a property of texts *)

(** [cur] is one of the currency markers, up to the case of letters. *)
Definition isMarker (cur : jsstring) : Prop :=
  exists pat, In pat currencyMarkers /\ map canonicalize cur = map canonicalize pat.

(** Nothing, or one white-space unit. *)
Definition isGap (ws : jsstring) : Prop :=
  ws = [] \/ exists c, ws = [c] /\ isSpace c = true.

(** At least two units among digits, dots and commas. *)
Definition isNumericToken (num : jsstring) : Prop :=
  Forall (fun c => isPriceChar c = true) num /\ (2 <= length num)%nat.

(** [text] has, after [pre], a currency marker [cur], a gap [ws] and a
    numeric token [num]. *)
Definition patternAt (text pre cur ws num post : jsstring) : Prop :=
  text = pre ++ cur ++ ws ++ num ++ post /\
  isMarker cur /\ isGap ws /\ isNumericToken num.

Definition hasPricePattern (text : jsstring) : Prop :=
  exists pre cur ws num post, patternAt text pre cur ws num post.

(** The numeric token as the parser reads it: commas dropped, then
    [parseFloat]. *)
Definition tokenValue (num : jsstring) : number :=
  parseFloat (removeAll isComma num).

(** *** Reading a document *)

(** The property [k] of a value that is not [null] or [undefined]. *)
Definition field (v : jsval) (k : string) : jsval :=
  match Get v k with
  | Normal x => x
  | Throw _ => Undefined
  end.

(** *** Candidate extraction, stage by stage *)

(** A structured price: a [price] field that carries a value or a raw
    text. *)
Definition structuredPrice (p : jsval) : Prop :=
  truthy p = true /\
  (truthy (field p "value") = true \/ truthy (field p "raw") = true).

(** The candidate a structured price [p] gives, with its source. *)
Definition candidateOfPrice (p src : jsval) : price :=
  Price (field p "value" ||| Null) (field p "currency" ||| Null)
    (field p "raw" ||| Null) src Undefined Undefined.

(** The source of a result: its URL, else its [source]. *)
Definition entrySource (r : jsval) : jsval :=
  field r "url" ||| field r "source" ||| Null.

(** Title, snippet and summary of a result, joined by spaces. *)
Definition entryText (r : jsval) : completion jsstring :=
  joinValues (str " ")
    [field r "title" ||| Str []; field r "snippet" ||| Str [];
     field r "summary" ||| Str []].

(** What one entry of the result list yields: the candidate of its
    structured price, else what the Price Text Parser finds in its text,
    else nothing. *)
Inductive entryYields (r : jsval) : option price -> Prop :=
| yields_structured :
    nullish r = false ->
    structuredPrice (field r "price") ->
    entryYields r (Some (candidateOfPrice (field r "price") (entrySource r)))
| yields_parsed t c :
    nullish r = false ->
    ~ structuredPrice (field r "price") ->
    entryText r = Normal t ->
    parsePriceFromText (Str t) = Normal (Some c) ->
    entryYields r (Some (withSource c (entrySource r)))
| yields_nothing t :
    nullish r = false ->
    ~ structuredPrice (field r "price") ->
    entryText r = Normal t ->
    parsePriceFromText (Str t) = Normal None ->
    entryYields r None.

(** *** Outcomes of the provider call *)

(** The provider call fails: no key is configured, [fetch] rejects, the
    status is not a success, or the body is not JSON. *)
Definition providerFails (E : env) (query : jsstring) : Prop :=
  truthy (EXA_API_KEY E) = false \/
  (truthy (EXA_API_KEY E) = true /\
   ((exists e, fetch E (ExaSearch query) = Throw e) \/
    (exists resp, fetch E (ExaSearch query) = Normal resp /\
       (ok resp = false \/ exists e, json resp = Throw e)))).

(** The provider answers with the document [data]. *)
Definition providerReturns (E : env) (query : jsstring) (data : jsval) : Prop :=
  truthy (EXA_API_KEY E) = true /\
  exists resp, fetch E (ExaSearch query) = Normal resp /\
    ok resp = true /\ json resp = Normal data.

(** No candidate is extracted from [data]. *)
Definition noCandidate (data : jsval) : Prop :=
  extractCandidateFromExaResponse data = Normal None \/
  exists e, extractCandidateFromExaResponse data = Throw e.

(** The record resolved from a candidate [c] at the instant [iso]. *)
Definition resolved (c : price) (iso : jsstring) : price :=
  Price (value c ||| Null) (currency c ||| Null) (raw c ||| Null)
    (source c ||| Str (str "exa-search")) (Str iso) Undefined.

(** [p] and [q] are the same payload but for the served-from-cache
    marker. *)
Definition samePayload (p q : price) : Prop :=
  value p = value q /\ currency p = currency q /\ raw p = raw q /\
  source p = source q /\ ts p = ts q.

(** *** The vector database finds nothing *)

Definition zeroMatches (pineconeResponse : jsval) : Prop :=
  truthy pineconeResponse = false \/
  truthy (field pineconeResponse "matches") = false \/
  field pineconeResponse "matches" = Arr [].

(** *** Scenarios *)

Definition okJson (v : jsval) : completion Response :=
  Normal {| ok := true; status := numberOfZ 200; text := Normal []; json := Normal v |}.

Definition networkError : exn := TypeError (str "fetch failed").

(** The question, the catalogue match and the search result of the
    Submariner scenario. *)
Definition submarinerQuestion : jsstring :=
  str "What's the Submariner selling for right now?".

Definition submarinerRequest : completion jsval :=
  Normal (Obj [(str "question", Str submarinerQuestion)]).

Definition submarinerEmbedding : jsval :=
  Obj [(str "data", Arr [Obj [(str "embedding", Arr [Num (numberOfZ 1); Num (numberOfZ 0)])]])].

Definition submarinerMatches : jsval :=
  Obj [(str "matches",
        Arr [Obj [(str "id", Str (str "rolex-126610ln"));
                  (str "score", Num (decimalToNumber false 87 (-2)));
                  (str "metadata",
                   Obj [(str "brand", Str (str "Rolex"));
                        (str "model_name", Str (str "Submariner"));
                        (str "reference_number", Str (str "126610LN"))])]])].

Definition chrono24Snippet : jsstring := str "... listed at $9,500 on Chrono24 ...".

Definition searchResults (url : jsstring) : jsval :=
  Obj [(str "results",
        Arr [Obj [(str "url", Str url); (str "snippet", Str chrono24Snippet)]])].

Definition submarinerEnv (url : jsstring) (now : Z) (iso : jsstring) : env := {|
  EXA_API_KEY := Str (str "exa-key");
  fetch := fun r =>
    match r with
    | Embeddings _ => okJson submarinerEmbedding
    | PineconeQuery _ _ => okJson submarinerMatches
    | ExaSearch _ => okJson (searchResults url)
    end;
  Date_now := now;
  toISOString := iso;
  liveLibLoads := true
|}.

Definition submarinerMeta : CatalogMatch :=
  Meta (Str (str "rolex-126610ln")) (Num (decimalToNumber false 87 (-2)))
    (Str (str "Rolex")) (Str (str "Submariner")) (Str (str "126610LN"))
    (Str []) (Str []) (Str []) (Str []).

Definition chrono24Url : jsstring :=
  str "https://www.chrono24.com/rolex/submariner-126610ln.htm".

(** The embedding provider is down. *)
Definition embeddingDownEnv : env := {|
  EXA_API_KEY := Str (str "exa-key");
  fetch := fun r =>
    match r with
    | Embeddings _ => Throw networkError
    | PineconeQuery _ _ => okJson submarinerMatches
    | ExaSearch _ => okJson (searchResults chrono24Url)
    end;
  Date_now := 1700000000000;
  toISOString := str "2023-11-14T22:13:20.000Z";
  liveLibLoads := true
|}.

(** A vector-database answer whose top match has the similarity score 0. *)
Definition zeroScoreMatches : jsval :=
  Obj [(str "matches",
        Arr [Obj [(str "id", Str (str "rolex-126610ln"));
                  (str "score", Num (S754_zero false));
                  (str "metadata",
                   Obj [(str "brand", Str (str "Rolex"));
                        (str "model_name", Str (str "Submariner"));
                        (str "reference_number", Str (str "126610LN"))])]])].

(** A provider answer with a price at the top level and one in a result. *)
Definition twoPrices : jsval :=
  Obj [(str "price", Obj [(str "value", Num (numberOfZ 9500)); (str "currency", Str (str "USD"))]);
       (str "source", Str (str "https://api.exa.ai/answer"));
       (str "results",
        Arr [Obj [(str "url", Str chrono24Url);
                  (str "price", Obj [(str "value", Num (numberOfZ 9900));
                                     (str "currency", Str (str "USD"))])]])].

(** The search provider is down. *)
Definition searchDownEnv : env := {|
  EXA_API_KEY := Str (str "exa-key");
  fetch := fun r =>
    match r with
    | Embeddings _ => okJson submarinerEmbedding
    | PineconeQuery _ _ => okJson submarinerMatches
    | ExaSearch _ => Throw networkError
    end;
  Date_now := 1700000000000;
  toISOString := str "2023-11-14T22:13:20.000Z";
  liveLibLoads := true
|}.

(** The vector database has nothing near the question. *)
Definition emptyIndexEnv : env := {|
  EXA_API_KEY := Str (str "exa-key");
  fetch := fun r =>
    match r with
    | Embeddings _ => okJson submarinerEmbedding
    | PineconeQuery _ _ => okJson (Obj [(str "matches", Arr [])])
    | ExaSearch _ => okJson (searchResults chrono24Url)
    end;
  Date_now := 1700000000000;
  toISOString := str "2023-11-14T22:13:20.000Z";
  liveLibLoads := true
|}.

Definition submarinerKey : jsstring := str "rolex|submariner|126610ln".

Definition submarinerQuery : jsstring :=
  str "Rolex Submariner 126610LN price Chrono24 Jomashop " ++ [34] ++ str "price" ++ [34].

(** A price resolved at the instant 1700000000000. *)
Definition storedPrice : price :=
  Price (Num (numberOfZ 9500)) (Str (str "$")) (Str (str "$9,500"))
    (Str chrono24Url) (Str (str "2023-11-14T22:13:20.000Z")) Undefined.

Definition warmWorld : world :=
  World {[ submarinerKey := Entry 1700000000000 storedPrice ]} [].

(** One minute later. *)
Definition laterEnv : env := {|
  EXA_API_KEY := Str (str "exa-key");
  fetch := fun _ => Throw networkError;
  Date_now := 1700000060000;
  toISOString := str "2023-11-14T22:14:20.000Z";
  liveLibLoads := true
|}.

(** *** Further scenarios *)

Definition catalogueQuestion : jsstring := str "Tell me about the Submariner".

Definition catalogueRequest : completion jsval :=
  Normal (Obj [(str "question", Str catalogueQuestion)]).

(** The import of the helper gives no function. *)
Definition helperMissingEnv : env := {|
  EXA_API_KEY := Str (str "exa-key");
  fetch := fun r =>
    match r with
    | Embeddings _ => okJson submarinerEmbedding
    | PineconeQuery _ _ => okJson submarinerMatches
    | ExaSearch _ => okJson (searchResults chrono24Url)
    end;
  Date_now := 1700000000000;
  toISOString := str "2023-11-14T22:13:20.000Z";
  liveLibLoads := false
|}.

(** No key is configured for the search provider. *)
Definition noKeyEnv : env := {|
  EXA_API_KEY := Undefined;
  fetch := fun r =>
    match r with
    | Embeddings _ => okJson submarinerEmbedding
    | PineconeQuery _ _ => okJson submarinerMatches
    | ExaSearch _ => okJson (searchResults chrono24Url)
    end;
  Date_now := 1700000000000;
  toISOString := str "2023-11-14T22:13:20.000Z";
  liveLibLoads := true
|}.

(** The embedding provider refuses the key. *)
Definition unauthorizedEnv : env := {|
  EXA_API_KEY := Str (str "exa-key");
  fetch := fun r =>
    match r with
    | Embeddings _ =>
        Normal {| ok := false; status := numberOfZ 401;
                  text := Normal (str "bad key"); json := Throw (SyntaxError (str "not JSON")) |}
    | PineconeQuery _ _ => okJson submarinerMatches
    | ExaSearch _ => okJson (searchResults chrono24Url)
    end;
  Date_now := 1700000000000;
  toISOString := str "2023-11-14T22:13:20.000Z";
  liveLibLoads := true
|}.

(** The vector database is overloaded. *)
Definition indexDownEnv : env := {|
  EXA_API_KEY := Str (str "exa-key");
  fetch := fun r =>
    match r with
    | Embeddings _ => okJson submarinerEmbedding
    | PineconeQuery _ _ =>
        Normal {| ok := false; status := numberOfZ 503;
                  text := Throw networkError; json := Throw (SyntaxError (str "not JSON")) |}
    | ExaSearch _ => okJson (searchResults chrono24Url)
    end;
  Date_now := 1700000000000;
  toISOString := str "2023-11-14T22:13:20.000Z";
  liveLibLoads := true
|}.

(** A catalogue entry whose brand is a number. *)
Definition numericBrandMatches : jsval :=
  Obj [(str "matches",
        Arr [Obj [(str "id", Str (str "lot-5"));
                  (str "metadata",
                   Obj [(str "brand", Num (numberOfZ 5));
                        (str "model_name", Str (str "Submariner"))])]])].

Definition numericBrandMeta : CatalogMatch :=
  Meta (Str (str "lot-5")) Null (Num (numberOfZ 5)) (Str (str "Submariner"))
    (Str []) (Str []) (Str []) (Str []) (Str []).

Definition numericBrandEnv : env := {|
  EXA_API_KEY := Str (str "exa-key");
  fetch := fun r =>
    match r with
    | Embeddings _ => okJson submarinerEmbedding
    | PineconeQuery _ _ => okJson numericBrandMatches
    | ExaSearch _ => okJson (searchResults chrono24Url)
    end;
  Date_now := 1700000000000;
  toISOString := str "2023-11-14T22:13:20.000Z";
  liveLibLoads := true
|}.

(** The world after the two retrieval requests for a question. *)
Definition retrievedWorld (c : gmap jsstring CacheEntry) (q : jsstring) : world :=
  World c [Fetched (Embeddings q);
           Fetched (PineconeQuery (Arr [Num (numberOfZ 1); Num (numberOfZ 0)]) 3)].

(** *** The cache key, field by field *)

(** A field as the key has it: lower case, trimmed. *)
Definition normalizeField (s : jsstring) : jsstring := trim (toLowerCase s).

(** The text of a field: itself when it is a string, nothing when it is
    absent. *)
Definition fieldText (x : jsval) : jsstring :=
  match x with
  | Str s => s
  | _ => []
  end.

(** A string, or a falsy value ([undefined], [null], [""], [0], [false]). *)
Definition stringOrAbsent (x : jsval) : Prop :=
  truthy x = false \/ exists s, x = Str s.

(** No pipe in the string. *)
Definition pipeFree (s : jsstring) : Prop := Forall (fun c => c <> 124) s.

(** *** Resolved records *)

(** [null] or truthy: what [x || null] can be. *)
Definition nullOrTruthy (x : jsval) : Prop := x = Null \/ truthy x = true.

(** What an extracted candidate carries: a value or a raw text, a source
    that is truthy or [null], and neither instant nor served-from-cache
    marker. *)
Definition hasEvidence (c : price) : Prop :=
  (truthy (value c) = true \/ truthy (raw c) = true) /\
  nullOrTruthy (source c) /\ ts c = Undefined /\ cached c = Undefined.

(** A record as the resolver stamps it: a source, a value, a currency
    and a raw text that are each [null] or truthy, the source never
    missing, a value or a raw text present, and the instant of the
    resolution. *)
Definition wellStamped (p : price) : Prop :=
  truthy (source p) = true /\
  nullOrTruthy (value p) /\ nullOrTruthy (currency p) /\ nullOrTruthy (raw p) /\
  (truthy (value p) = true \/ truthy (raw p) = true) /\
  exists iso, ts p = Str iso.

(** Every stored record is well stamped and carries no served-from-cache
    marker. *)
Definition cacheWellStamped (c : gmap jsstring CacheEntry) : Prop :=
  forall k e, c !! k = Some e -> wellStamped (payload e) /\ cached (payload e) = Undefined.

(** *** Price vocabulary *)

(** [q] contains, in some case of its letters, one of the terms. *)
Definition containsTerm (terms : list jsstring) (q : jsstring) : Prop :=
  exists pre t post term,
    q = pre ++ t ++ post /\ In term terms /\
    map canonicalize t = map canonicalize term.

(** A search result as in the Submariner scenario: no structured price,
    the snippet of the scenario, a URL that is not empty, a title and a
    summary that are strings or absent, and no currency marker in the
    title. *)
Definition snippetResult (r : jsval) (url : jsstring) : Prop :=
  nullish r = false /\
  ~ structuredPrice (field r "price") /\
  field r "snippet" = Str chrono24Snippet /\
  field r "url" = Str url /\ url <> [] /\
  stringOrAbsent (field r "title") /\
  ~ containsTerm currencyMarkers (fieldText (field r "title")) /\
  stringOrAbsent (field r "summary").

(** *** The scraper fallback *)

(** The fallback is asked for and a scraper is configured. *)
Definition fallbackOn (S : scraper) (options : jsval) : Prop :=
  nullish options = false /\
  truthy (field options "useScraperFallback") = true /\
  truthy (SCRAPER_BASE S) = true.

(** No options are passed, or they do not ask for the fallback, or no
    scraper is configured. *)
Definition fallbackOff (S : scraper) (options : jsval) : Prop :=
  options = Undefined \/
  (nullish options = false /\
   (truthy (field options "useScraperFallback") = false \/
    truthy (SCRAPER_BASE S) = false)).

(** The search provider settles nothing: its call fails or its response
    holds no candidate. *)
Definition searchEmpty (E : env) (query : jsstring) : Prop :=
  providerFails E query \/
  exists data, providerReturns E query data /\ noCandidate data.

(** What a search leaves in the trace: the request, unless no key is
    configured. *)
Definition searchSent (E : env) (query : jsstring) : list event2 :=
  if truthy (EXA_API_KEY E) then [Base (Fetched (ExaSearch query))] else [].

(** The record made of the scraper's document. *)
Definition scraped (js : jsval) (iso : jsstring) : price :=
  Price (field js "price") (field js "currency") (field js "raw_price_text")
    (field js "source" ||| Str (str "scraper-fallback")) (Str iso) Undefined.

(** A scraper that knows a price, and the options that ask for it. *)
Definition scraperUp : scraper := {|
  SCRAPER_BASE := Str (str "https://scraper.example");
  scraperFetch := fun _ =>
    okJson (Obj [(str "price", Num (numberOfZ 9400)); (str "raw_price_text", Str (str "9,400"))])
|}.

Definition fallbackOptions : jsval := Obj [(str "useScraperFallback", Bool true)].

Definition initialWorld2 : world2 := World2 ∅ [].

(** * Properties *)

(** ** Numbers and strings, on examples *)

Example parseFloat_integer : parseFloat (str "9500") = numberOfZ 9500.
Proof. reflexivity. Qed.

Example parseFloat_prefix : parseFloat (str "1.2.3") = decimalToNumber false 12 (-1).
Proof. reflexivity. Qed.

Example parseFloat_lone_dot : parseFloat (str ".") = S754_nan.
Proof. reflexivity. Qed.

Example parseFloat_empty : parseFloat [] = S754_nan.
Proof. reflexivity. Qed.

Example NumberToString_tenth : NumberToString (parseFloat (str "0.1")) = str "0.1".
Proof. by vm_compute. Qed.

Example NumberToString_sum :
  NumberToString
    (SFadd prec emax (parseFloat (str "0.1")) (parseFloat (str "0.2")))
  = str "0.30000000000000004".
Proof. by vm_compute. Qed.

Example NumberToString_large : NumberToString (parseFloat (str "1e21")) = str "1e+21".
Proof. by vm_compute. Qed.

Example NumberToString_small : NumberToString (parseFloat (str "0.0000001")) = str "1e-7".
Proof. by vm_compute. Qed.

Example trim_example : trim (str "  submariner ") = str "submariner".
Proof. reflexivity. Qed.

Example priceRegExpExec_example :
  priceRegExpExec (str "from chf 1.250,00 net")
  = Some (Match (str "chf 1.250,00") (str "chf") (str "1.250,00")).
Proof. reflexivity. Qed.

Example parsePriceFromText_example :
  parsePriceFromText (Str (str "from chf 1.250,00 net"))
  = Normal (Some (Price (Num (decimalToNumber false 125 (-2))) (Str (str "chf"))
                    (Str (str "chf 1.250,00")) Undefined Undefined Undefined)).
Proof. by vm_compute. Qed.

Example regExpTest_example : regExpTest priceTerms (str "How Much is it?") = true.
Proof. reflexivity. Qed.

(** ** Strings *)

Lemma isSpace_not_upper c : isSpace c = true -> isUpper c = false.
Proof.
  unfold isSpace, isUpper. intros H.
  apply andb_false_iff.
  destruct (N.leb_spec 65 c) as [H1 | H1]; [| by left].
  destruct (N.leb_spec c 90) as [H2 | H2]; [| by right].
  exfalso.
  repeat (apply orb_true_iff in H as [H | H]);
    repeat (apply andb_true_iff in H as [H ?]);
    repeat match goal with
           | X : (_ <=? _) = true |- _ => apply N.leb_le in X
           | X : (_ =? _) = true |- _ => apply N.eqb_eq in X
           end; lia.
Qed.

Lemma isSpace_not_lower c : isSpace c = true -> isLower c = false.
Proof.
  unfold isSpace, isLower. intros H.
  apply andb_false_iff.
  destruct (N.leb_spec 97 c) as [H1 | H1]; [| by left].
  destruct (N.leb_spec c 122) as [H2 | H2]; [| by right].
  exfalso.
  repeat (apply orb_true_iff in H as [H | H]);
    repeat (apply andb_true_iff in H as [H ?]);
    repeat match goal with
           | X : (_ <=? _) = true |- _ => apply N.leb_le in X
           | X : (_ =? _) = true |- _ => apply N.eqb_eq in X
           end; lia.
Qed.

(** A letter in the other case is no more a white space than the letter
    itself. *)
Lemma sameLetter_space a b : sameLetter a b -> isSpace a = isSpace b.
Proof.
  assert (P : forall c, isUpper c = true -> isSpace c = false /\ isSpace (c + 32) = false).
  { intros c Hc. split.
    - destruct (isSpace c) eqn:Hs; [| done]. by rewrite (isSpace_not_upper c Hs) in Hc.
    - destruct (isSpace (c + 32)) eqn:Hs; [| done].
      apply isSpace_not_lower in Hs. unfold isUpper, isLower in *.
      apply andb_prop in Hc as [H1 H2]. apply N.leb_le in H1, H2.
      apply andb_false_iff in Hs as [Hs | Hs]; apply N.leb_gt in Hs; lia. }
  intros [-> | [[Ha ->] | [Hb ->]]]; [done | |].
  - destruct (P a Ha) as [-> ->]. done.
  - destruct (P b Hb) as [-> ->]. done.
Qed.

Lemma sameLetter_dropWhile s t :
  Forall2 sameLetter s t ->
  Forall2 sameLetter (dropWhile isSpace s) (dropWhile isSpace t).
Proof.
  induction 1 as [| a b s t Hab Hst IH]; simpl; [constructor |].
  rewrite <- (sameLetter_space a b Hab).
  destruct (isSpace a); [done | by constructor].
Qed.

Lemma sameLetter_rev s t :
  Forall2 sameLetter s t -> Forall2 sameLetter (rev s) (rev t).
Proof.
  induction 1 as [| a b s t Hab Hst IH]; simpl; [constructor |].
  apply Forall2_app; [done | constructor; [done | constructor]].
Qed.

Lemma sameLetter_trim s t :
  Forall2 sameLetter s t -> Forall2 sameLetter (trim s) (trim t).
Proof.
  intros H. unfold trim, trimEnd, trimStart.
  by apply sameLetter_rev, sameLetter_dropWhile, sameLetter_rev, sameLetter_dropWhile.
Qed.

Lemma dropWhile_all p s t : Forall (fun c => p c = true) s -> dropWhile p (s ++ t) = dropWhile p t.
Proof. induction 1 as [| c s Hc _ IH]; simpl; [done |]. by rewrite Hc. Qed.

Lemma trimStart_space pre s : allSpace pre -> trimStart (pre ++ s) = trimStart s.
Proof. apply dropWhile_all. Qed.

Lemma trimEnd_space s post : allSpace post -> trimEnd (s ++ post) = trimEnd s.
Proof.
  intros H. unfold trimEnd. rewrite rev_app_distr.
  rewrite dropWhile_all; [done |].
  by apply List.Forall_rev.
Qed.

Lemma dropWhile_app_keep p s t :
  dropWhile p s <> [] -> dropWhile p (s ++ t) = dropWhile p s ++ t.
Proof.
  induction s as [| c s IH]; simpl; [done |].
  destruct (p c); [apply IH | done].
Qed.

Lemma dropWhile_nil_all p s : dropWhile p s = [] -> Forall (fun c => p c = true) s.
Proof.
  induction s as [| c s IH]; simpl; [constructor |].
  destruct (p c) eqn:Hc; [| done]. intros H. constructor; auto.
Qed.

(** Trimming removes white space put around a string. *)
Lemma trim_space pre s post :
  allSpace pre -> allSpace post -> trim (pre ++ s ++ post) = trim s.
Proof.
  intros Hpre Hpost. unfold trim.
  rewrite trimStart_space by done.
  destruct (trimStart s) as [| c r] eqn:Hs.
  - unfold trimStart in *.
    assert (Hall : allSpace (s ++ post)).
    { apply Forall_app. split; [by apply dropWhile_nil_all | done]. }
    rewrite <- (app_nil_r (s ++ post)).
    rewrite dropWhile_all by done. done.
  - unfold trimStart in *. rewrite dropWhile_app_keep by (by rewrite Hs).
    rewrite Hs. by apply trimEnd_space.
Qed.

(** [(x||"").toLowerCase().trim()] on a string. *)
Lemma lowerTrim_string u : lowerTrim (Str u) = Normal (trim (toLowerCase u)).
Proof. by destruct u. Qed.

(** On a string of ASCII units the key part is computed unit by unit. *)
Lemma lowerTrim_ascii u :
  Forall (fun c => c < 128) u -> lowerTrim (Str u) = Normal (trim (map lowerUnit u)).
Proof. intros H. by rewrite lowerTrim_string, (toLowerCase_ascii u H). Qed.

Lemma lowerTrim_variant s t :
  variantOf s t -> lowerTrim (Str t) = lowerTrim (Str s).
Proof.
  intros (pre & core & post & -> & Hpre & Hpost & Hcore).
  rewrite !lowerTrim_string. f_equal.
  rewrite <- !toLowerCase_trim, (trim_space pre core post Hpre Hpost).
  symmetry. by apply toLowerCase_letters, sameLetter_trim.
Qed.

Ltac asciiUnits := apply (bool_decide_unpack _); by vm_compute.

(** ** Key normalisation *)

(** The keys of the sharp s and of its upper case. *)
Lemma makeCacheKey_sharp_s (m r : jsstring) :
  makeCacheKey (Str [223]) (Str m) (Str r)
  = Normal ([223] ++ str "|" ++ trim (toLowerCase m) ++ str "|" ++ trim (toLowerCase r)) /\
  makeCacheKey (Str (str "SS")) (Str m) (Str r)
  = Normal (str "ss" ++ str "|" ++ trim (toLowerCase m) ++ str "|" ++ trim (toLowerCase r)).
Proof.
  unfold makeCacheKey. rewrite !lowerTrim_string.
  rewrite toLowerCase_sharp_s, (toLowerCase_ascii (str "SS")) by asciiUnits.
  split; done.
Qed.

(** C7, as the code has it.  [resolve("Rolex", "Submariner", "126610LN")]
    and [resolve("rolex", " submariner ", "126610ln")] compute the same
    cache key, and for all brand, model and reference strings the key
    does not change when the case of letters A-Z changes or white space
    is put before and after a field.  A change of case outside these
    letters can change the key: the sharp s keeps its key, its upper case
    "SS" has the key of "ss". *)
Theorem makeCacheKey_normalized :
  makeCacheKey (Str (str "Rolex")) (Str (str "Submariner")) (Str (str "126610LN"))
  = makeCacheKey (Str (str "rolex")) (Str (str " submariner ")) (Str (str "126610ln"))
  /\
  (forall b m r b' m' r' : jsstring,
     variantOf b b' -> variantOf m m' -> variantOf r r' ->
     makeCacheKey (Str b') (Str m') (Str r') = makeCacheKey (Str b) (Str m) (Str r))
  /\
  (forall m r : jsstring,
     makeCacheKey (Str [223]) (Str m) (Str r)
     = Normal ([223] ++ str "|" ++ trim (toLowerCase m) ++ str "|" ++ trim (toLowerCase r)) /\
     makeCacheKey (Str (str "SS")) (Str m) (Str r)
     = Normal (str "ss" ++ str "|" ++ trim (toLowerCase m) ++ str "|" ++ trim (toLowerCase r))).
Proof.
  split; [| split].
  - unfold makeCacheKey.
    rewrite !lowerTrim_ascii by asciiUnits. by vm_compute.
  - intros b m r b' m' r' Hb Hm Hr. unfold makeCacheKey.
    by rewrite (lowerTrim_variant b b' Hb), (lowerTrim_variant m m' Hm),
      (lowerTrim_variant r r' Hr).
  - apply makeCacheKey_sharp_s.
Qed.

(** ** The price pattern *)

Lemma matchLiteral_split pat s cur rest :
  matchLiteral pat s = Some (cur, rest) ->
  s = cur ++ rest /\ map canonicalize cur = map canonicalize pat.
Proof.
  revert s cur rest. induction pat as [| p pat IH]; intros s cur rest; simpl.
  - intros [= <- <-]. done.
  - destruct s as [| c s]; [done |].
    destruct (canonicalize p =? canonicalize c) eqn:Hc; [| done].
    destruct (matchLiteral pat s) as [[m r] |] eqn:Hm; [| done].
    intros [= <- <-]. apply IH in Hm as [-> Hm]. apply N.eqb_eq in Hc.
    simpl. by rewrite Hc, Hm.
Qed.

Lemma matchLiteral_found pat cur rest :
  map canonicalize cur = map canonicalize pat ->
  matchLiteral pat (cur ++ rest) = Some (cur, rest).
Proof.
  revert cur. induction pat as [| p pat IH]; intros [| c cur]; simpl; try done.
  intros [= Hc Hm]. rewrite Hc, N.eqb_refl. by rewrite (IH cur Hm).
Qed.

(** A literal that matches a text matches every extension of it. *)
Lemma matchLiteral_extend pat s cur rest more :
  matchLiteral pat s = Some (cur, rest) ->
  matchLiteral pat (s ++ more) = Some (cur, rest ++ more).
Proof.
  intros H. apply matchLiteral_split in H as [-> H].
  rewrite <- app_assoc. by apply matchLiteral_found.
Qed.

Lemma takeWhile_all p s : Forall (fun c => p c = true) (takeWhile p s).
Proof.
  induction s as [| c s IH]; simpl; [constructor |].
  destruct (p c) eqn:Hc; [by constructor | constructor].
Qed.

Lemma takeWhile_app_all p s t :
  Forall (fun c => p c = true) s -> takeWhile p (s ++ t) = s ++ takeWhile p t.
Proof. induction 1 as [| c s Hc _ IH]; simpl; [done |]. by rewrite Hc, IH. Qed.

Lemma takeWhile_idem p s : takeWhile p (takeWhile p s) = takeWhile p s.
Proof.
  rewrite <- (app_nil_r (takeWhile p s)) at 1.
  rewrite takeWhile_app_all by apply takeWhile_all. simpl. apply app_nil_r.
Qed.

Lemma takeWhile_dropWhile p s : s = takeWhile p s ++ dropWhile p s.
Proof.
  induction s as [| c s IH]; simpl; [done |].
  destruct (p c); simpl; [by rewrite <- IH | done].
Qed.

Lemma takeWhile_extend_length p s more :
  (length (takeWhile p s) <= length (takeWhile p (s ++ more)))%nat.
Proof.
  induction s as [| c s IH]; simpl; [lia |].
  destruct (p c); simpl; lia.
Qed.

Lemma matchNumber_some s num :
  matchNumber s = Some num ->
  num = takeWhile isPriceChar s /\ isNumericToken num.
Proof.
  unfold matchNumber, isNumericToken.
  destruct (2 <=? length (takeWhile isPriceChar s))%nat eqn:Hl; [| done].
  intros [= <-]. apply Nat.leb_le in Hl. split; [done |].
  split; [apply takeWhile_all | done].
Qed.

Lemma matchNumber_token num more :
  isNumericToken num -> is_Some (matchNumber (num ++ more)).
Proof.
  intros [Hall Hlen]. unfold matchNumber.
  rewrite takeWhile_app_all by done.
  rewrite length_app.
  destruct (2 <=? length num + length (takeWhile isPriceChar more))%nat eqn:Hl; [by eexists |].
  apply Nat.leb_gt in Hl. lia.
Qed.

Lemma matchNumber_extend s num more :
  matchNumber s = Some num -> is_Some (matchNumber (s ++ more)).
Proof.
  unfold matchNumber.
  destruct (2 <=? length (takeWhile isPriceChar s))%nat eqn:Hl; [| done].
  intros _. apply Nat.leb_le in Hl.
  pose proof (takeWhile_extend_length isPriceChar s more).
  destruct (2 <=? length (takeWhile isPriceChar (s ++ more)))%nat eqn:Hl'; [by eexists |].
  apply Nat.leb_gt in Hl'. lia.
Qed.

Lemma matchNumber_again s num :
  matchNumber s = Some num -> matchNumber num = Some num.
Proof.
  intros H. apply matchNumber_some in H as [-> [_ Hlen]].
  unfold matchNumber. rewrite takeWhile_idem.
  apply Nat.leb_le in Hlen. by rewrite Hlen.
Qed.

Lemma isPriceChar_not_space c : isPriceChar c = true -> isSpace c = false.
Proof.
  unfold isPriceChar, isDigit, isSpace. intros H.
  repeat (apply orb_true_iff in H as [H | H]);
    repeat (apply andb_true_iff in H as [H ?]);
    repeat match goal with
           | X : (_ <=? _) = true |- _ => apply N.leb_le in X
           | X : (_ =? _) = true |- _ => apply N.eqb_eq in X
           end;
    repeat (apply orb_false_iff; split);
    try (apply andb_false_iff);
    try (apply N.eqb_neq; lia).
  all: try (right; apply N.leb_gt; lia).
  all: try (destruct (N.leb_spec 9 c); [right; apply N.leb_gt; lia | by left]).
  all: try (left; apply N.leb_gt; lia).
Qed.

Lemma isSpace_not_priceChar c : isSpace c = true -> isPriceChar c = false.
Proof.
  intros H. destruct (isPriceChar c) eqn:Hp; [| done].
  apply isPriceChar_not_space in Hp. congruence.
Qed.

Lemma matchNumber_space c s : isSpace c = true -> matchNumber (c :: s) = None.
Proof.
  intros H. unfold matchNumber. simpl. by rewrite (isSpace_not_priceChar c H).
Qed.

(** What a successful tail consists of: a gap and a numeric token that
    cannot be extended. *)
Lemma matchTail_some cur s m :
  matchTail cur s = Some m ->
  exists ws num rest,
    s = ws ++ num ++ rest /\ isGap ws /\ isNumericToken num /\
    m = Match (cur ++ ws ++ num) cur num /\
    matchTail cur (ws ++ num) = Some m.
Proof.
  unfold matchTail. destruct s as [| c s'].
  - by cbn.
  - destruct (isSpace c) eqn:Hc.
    + rewrite (matchNumber_space c s' Hc).
      destruct (matchNumber s') as [num |] eqn:Hn; [| done].
      intros [= <-]. exists [c], num, (dropWhile isPriceChar s').
      pose proof (matchNumber_some _ _ Hn) as [Hnum Htok].
      split; [| split; [| split; [| split]]]; [| | done | done |].
      * simpl. f_equal. rewrite Hnum. apply takeWhile_dropWhile.
      * right. by exists c.
      * simpl. by rewrite Hc, (matchNumber_again _ _ Hn).
    + destruct (matchNumber (c :: s')) as [num |] eqn:Hn; [| done].
      intros [= <-]. exists [], num, (dropWhile isPriceChar (c :: s')).
      pose proof (matchNumber_some _ _ Hn) as [Hnum Htok].
      split; [| split; [| split; [| split]]]; [| | done | done |].
      * simpl. rewrite Hnum. apply takeWhile_dropWhile.
      * by left.
      * simpl. rewrite (matchNumber_again _ _ Hn).
        destruct num as [| d num']; [done |].
        destruct Htok as [Hall _]. apply Forall_cons in Hall as [Hd _].
        by rewrite (isPriceChar_not_space d Hd).
Qed.

Lemma matchTail_fallback cur s :
  is_Some (matchNumber s) -> is_Some (matchTail cur s).
Proof.
  intros [num Hn]. unfold matchTail. rewrite Hn.
  destruct s as [| c s']; [by eexists |].
  destruct (isSpace c); [| by eexists].
  destruct (matchNumber s'); by eexists.
Qed.

(** A gap and a numeric token are always accepted. *)
Lemma matchTail_found cur ws num post :
  isGap ws -> isNumericToken num -> is_Some (matchTail cur (ws ++ num ++ post)).
Proof.
  intros [-> | (c & -> & Hc)] Htok.
  - apply matchTail_fallback. simpl. by apply matchNumber_token.
  - unfold matchTail. simpl. rewrite Hc.
    destruct (matchNumber_token num post Htok) as [n Hn]. rewrite Hn. by eexists.
Qed.

Lemma matchTail_extend cur s m more :
  matchTail cur s = Some m -> is_Some (matchTail cur (s ++ more)).
Proof.
  intros H. apply matchTail_some in H as (ws & num & rest & -> & Hws & Htok & _ & _).
  rewrite <- !app_assoc. by apply matchTail_found.
Qed.

(** What one alternative matches: a marker, a gap and a numeric token at
    the head of the text; matching the matched text again gives the same
    match. *)
Lemma matchOne_some pat s m :
  matchOne pat s = Some m ->
  exists ws rest,
    s = m0 m ++ rest /\ m0 m = m1 m ++ ws ++ m2 m /\
    map canonicalize (m1 m) = map canonicalize pat /\
    isGap ws /\ isNumericToken (m2 m) /\
    matchOne pat (m0 m) = Some m.
Proof.
  unfold matchOne.
  destruct (matchLiteral pat s) as [[cur r] |] eqn:Hl; [| done].
  intros Ht. apply matchLiteral_split in Hl as [-> Hcur].
  apply matchTail_some in Ht as (ws & num & rest & -> & Hws & Htok & -> & Hre).
  exists ws, rest. simpl. rewrite <- !app_assoc.
  split; [done |]. split; [done |]. split; [done |]. split; [done |]. split; [done |].
  by rewrite (matchLiteral_found pat cur (ws ++ num) Hcur).
Qed.

Lemma matchOne_found pat cur ws num post :
  map canonicalize cur = map canonicalize pat ->
  isGap ws -> isNumericToken num ->
  is_Some (matchOne pat (cur ++ ws ++ num ++ post)).
Proof.
  intros Hcur Hws Htok. unfold matchOne.
  rewrite (matchLiteral_found pat cur _ Hcur). by apply matchTail_found.
Qed.

Lemma matchOne_extend pat s m more :
  matchOne pat s = Some m -> is_Some (matchOne pat (s ++ more)).
Proof.
  intros H. apply matchOne_some in H as (ws & rest & -> & -> & Hcur & Hws & Htok & _).
  rewrite <- !app_assoc. by apply matchOne_found.
Qed.

Lemma matchOne_shrink pat s more :
  matchOne pat (s ++ more) = None -> matchOne pat s = None.
Proof.
  intros H. destruct (matchOne pat s) as [m |] eqn:Hm; [| done].
  destruct (matchOne_extend pat s m more Hm) as [m' Hm']. congruence.
Qed.

Lemma matchAlternatives_some alts s m :
  matchAlternatives alts s = Some m ->
  exists pat, In pat alts /\ matchOne pat s = Some m.
Proof.
  induction alts as [| pat more IH]; simpl; [done |].
  destruct (matchOne pat s) as [m' |] eqn:Hm.
  - intros [= <-]. exists pat. auto.
  - intros H. destruct (IH H) as (pat' & Hin & Hm'). exists pat'. auto.
Qed.

Lemma matchAlternatives_found alts pat s :
  In pat alts -> is_Some (matchOne pat s) -> is_Some (matchAlternatives alts s).
Proof.
  induction alts as [| pat' more IH]; simpl; [done |].
  intros [-> | Hin] Hs.
  - destruct Hs as [m ->]. by eexists.
  - destruct (matchOne pat' s); [by eexists | auto].
Qed.

(** Matching the matched text again gives the same match. *)
Lemma matchAlternatives_again alts s m :
  matchAlternatives alts s = Some m -> matchAlternatives alts (m0 m) = Some m.
Proof.
  intros H.
  assert (Hs : exists rest, s = m0 m ++ rest).
  { apply matchAlternatives_some in H as (pat & _ & Hm).
    apply matchOne_some in Hm as (ws & rest & Hs & _). by exists rest. }
  destruct Hs as [rest Hs].
  induction alts as [| pat more IH]; simpl in *; [done |].
  destruct (matchOne pat s) as [m' |] eqn:Hm.
  - injection H as ->.
    apply matchOne_some in Hm as (_ & _ & _ & _ & _ & _ & _ & Hre). by rewrite Hre.
  - rewrite Hs in Hm. apply matchOne_shrink in Hm. rewrite Hm. by apply IH.
Qed.

Lemma matchAt_some s m :
  matchAt s = Some m ->
  exists ws rest,
    s = m0 m ++ rest /\ m0 m = m1 m ++ ws ++ m2 m /\
    isMarker (m1 m) /\ isGap ws /\ isNumericToken (m2 m).
Proof.
  intros H. apply matchAlternatives_some in H as (pat & Hin & Hm).
  apply matchOne_some in Hm as (ws & rest & Hs & H0 & Hcur & Hws & Htok & _).
  exists ws, rest. repeat (split; [done |]). split; [| done]. by exists pat.
Qed.

Lemma matchAt_found cur ws num post :
  isMarker cur -> isGap ws -> isNumericToken num ->
  is_Some (matchAt (cur ++ ws ++ num ++ post)).
Proof.
  intros (pat & Hin & Hcur) Hws Htok.
  apply (matchAlternatives_found _ pat); [done |]. by apply matchOne_found.
Qed.

(** The scan returns the match at the first position that has one. *)
Lemma priceRegExpExec_some s m :
  priceRegExpExec s = Some m ->
  exists pre s',
    s = pre ++ s' /\ matchAt s' = Some m /\
    forall pre1 s1, s = pre1 ++ s1 -> (length pre1 < length pre)%nat -> matchAt s1 = None.
Proof.
  induction s as [| c s IH].
  - intros H. by vm_compute in H.
  - simpl. destruct (matchAt (c :: s)) as [m' |] eqn:Hm.
    + intros [= <-]. exists [], (c :: s). split; [done |]. split; [done |].
      intros pre1 s1 _ Hl. simpl in Hl. lia.
    + intros H. destruct (IH H) as (pre & s' & -> & Hs' & Hmin).
      exists (c :: pre), s'. split; [done |]. split; [done |].
      intros [| c1 pre1] s1 Heq Hl; simpl in *.
      * by subst s1.
      * injection Heq as -> Heq. apply (Hmin pre1 s1 Heq). lia.
Qed.

Lemma priceRegExpExec_none s :
  priceRegExpExec s = None -> forall pre s', s = pre ++ s' -> matchAt s' = None.
Proof.
  induction s as [| c s IH]; simpl.
  - intros _ pre s' Heq. symmetry in Heq. apply app_eq_nil in Heq as [_ ->]. done.
  - destruct (matchAt (c :: s)) eqn:Hm; [done |].
    intros H [| c1 pre1] s' Heq; simpl in *.
    + by subst s'.
    + injection Heq as -> Heq. by apply (IH H pre1).
Qed.

Lemma priceRegExpExec_head s m : matchAt s = Some m -> priceRegExpExec s = Some m.
Proof. intros H. destruct s; [by vm_compute in H |]. simpl. by rewrite H. Qed.

Lemma priceRegExpExec_again s m :
  priceRegExpExec s = Some m -> priceRegExpExec (m0 m) = Some m.
Proof.
  intros H. apply priceRegExpExec_some in H as (pre & s' & _ & Hm & _).
  apply priceRegExpExec_head. by apply matchAlternatives_again in Hm.
Qed.

Lemma priceRegExpExec_none_iff s :
  priceRegExpExec s = None <-> ~ hasPricePattern s.
Proof.
  split.
  - intros H (pre & cur & ws & num & post & Heq & Hcur & Hws & Htok).
    pose proof (priceRegExpExec_none s H pre _ Heq) as Hn.
    destruct (matchAt_found cur ws num post Hcur Hws Htok) as [m Hm]. congruence.
  - intros H. destruct (priceRegExpExec s) as [m |] eqn:Hm; [| done].
    exfalso. apply H.
    apply priceRegExpExec_some in Hm as (pre & s' & -> & Hm & _).
    apply matchAt_some in Hm as (ws & rest & -> & H0 & Hcur & Hws & Htok).
    exists pre, (m1 m), ws, (m2 m), rest. unfold patternAt.
    rewrite H0, <- !app_assoc. auto.
Qed.

(** The alternatives of the first group start with different units, so at
    most one of them matches at a position. *)
Lemma matchLiteral_head pat c s :
  is_Some (matchLiteral pat (c :: s)) ->
  pat = [] \/ hd 0 (map canonicalize pat) = canonicalize c.
Proof.
  destruct pat as [| p pat]; [by left |]. simpl.
  destruct (canonicalize p =? canonicalize c) eqn:Hc; [| by intros [? ?]].
  intros _. right. by apply N.eqb_eq.
Qed.

Lemma currencyMarkers_heads pat pat' :
  In pat currencyMarkers -> In pat' currencyMarkers ->
  hd 0 (map canonicalize pat) = hd 0 (map canonicalize pat') -> pat = pat'.
Proof.
  unfold currencyMarkers. simpl.
  intros H H'.
  repeat (destruct H as [<- | H]; [| try done]);
    repeat (destruct H' as [<- | H']; [| try done]);
    (done || (vm_compute; discriminate)).
Qed.

Lemma currencyMarkers_nonempty pat : In pat currencyMarkers -> pat <> [].
Proof.
  unfold currencyMarkers. simpl. intros H.
  repeat (destruct H as [<- | H]; [done |]). done.
Qed.

Lemma currencyMarkers_disjoint pat pat' s :
  In pat currencyMarkers -> In pat' currencyMarkers ->
  is_Some (matchLiteral pat s) -> is_Some (matchLiteral pat' s) -> pat = pat'.
Proof.
  intros Hin Hin' H H'.
  destruct s as [| c s].
  - destruct pat; [by apply currencyMarkers_nonempty in Hin | by destruct H].
  - apply matchLiteral_head in H as [-> | H];
      [by apply currencyMarkers_nonempty in Hin |].
    apply matchLiteral_head in H' as [-> | H'];
      [by apply currencyMarkers_nonempty in Hin' |].
    apply currencyMarkers_heads; congruence.
Qed.

Lemma matchAlternatives_only alts pat s m :
  (forall pat', In pat' alts -> pat' <> pat -> matchOne pat' s = None) ->
  In pat alts -> matchOne pat s = Some m -> matchAlternatives alts s = Some m.
Proof.
  intros Hothers. induction alts as [| pat' more IH]; simpl; [done |].
  intros Hin Hm.
  destruct (decide (pat' = pat)) as [-> | Hne].
  - by rewrite Hm.
  - rewrite (Hothers pat') by (simpl; auto).
    destruct Hin as [-> | Hin]; [done |].
    apply IH; [| done | done].
    intros p Hp. apply Hothers. simpl. auto.
Qed.

(** A gap and a numeric token that cannot be extended are matched as
    they are. *)
Lemma matchTail_exact cur ws num post :
  isGap ws -> isNumericToken num -> takeWhile isPriceChar post = [] ->
  matchTail cur (ws ++ num ++ post) = Some (Match (cur ++ ws ++ num) cur num).
Proof.
  intros Hws [Hall Hlen] Hmax.
  assert (Hn : matchNumber (num ++ post) = Some num).
  { unfold matchNumber. rewrite takeWhile_app_all, Hmax, app_nil_r by done.
    apply Nat.leb_le in Hlen. by rewrite Hlen. }
  destruct Hws as [-> | (c & -> & Hc)].
  - unfold matchTail. simpl. rewrite Hn.
    destruct num as [| d num']; [simpl in Hlen; lia |].
    apply Forall_cons in Hall as [Hd _]. simpl.
    by rewrite (isPriceChar_not_space d Hd).
  - unfold matchTail. simpl. by rewrite Hc, Hn.
Qed.

Lemma matchAt_exact cur ws num post :
  isMarker cur -> isGap ws -> isNumericToken num ->
  takeWhile isPriceChar post = [] ->
  matchAt (cur ++ ws ++ num ++ post) = Some (Match (cur ++ ws ++ num) cur num).
Proof.
  intros (pat & Hin & Hcur) Hws Htok Hmax.
  assert (Hl : matchLiteral pat (cur ++ ws ++ num ++ post) = Some (cur, ws ++ num ++ post))
    by by apply matchLiteral_found.
  apply (matchAlternatives_only _ pat); [| done |].
  - intros pat' Hin' Hne. unfold matchOne.
    destruct (matchLiteral pat' _) as [[cur' r'] |] eqn:Hl'; [| done].
    exfalso. apply Hne.
    apply (currencyMarkers_disjoint pat' pat (cur ++ ws ++ num ++ post)); try done;
      by eexists.
  - unfold matchOne. rewrite Hl. by apply matchTail_exact.
Qed.

(** The scan finds the leftmost occurrence of the pattern, with its
    numeric token taken as far as it goes. *)
Lemma priceRegExpExec_leftmost text pre cur ws num post :
  patternAt text pre cur ws num post ->
  (forall pre' cur' ws' num' post',
      patternAt text pre' cur' ws' num' post' -> (length pre <= length pre')%nat) ->
  takeWhile isPriceChar post = [] ->
  priceRegExpExec text = Some (Match (cur ++ ws ++ num) cur num).
Proof.
  intros (Heq & Hcur & Hws & Htok) Hleft Hmax.
  pose proof (matchAt_exact cur ws num post Hcur Hws Htok Hmax) as Hm.
  destruct (priceRegExpExec text) as [m |] eqn:He.
  - apply priceRegExpExec_some in He as (pre0 & s0 & Heq0 & Hm0 & Hmin).
    assert (Hle : (length pre <= length pre0)%nat).
    { pose proof (matchAt_some _ _ Hm0) as (ws0 & rest0 & Hs0 & H0 & Hc0 & Hw0 & Ht0).
      apply (Hleft pre0 (m1 m) ws0 (m2 m) rest0). unfold patternAt.
      split; [| auto]. rewrite Heq0, Hs0, H0, <- !app_assoc. done. }
    assert (Hge : ~ (length pre < length pre0)%nat).
    { intros Hlt. rewrite (Hmin pre _ Heq Hlt) in Hm. done. }
    assert (Hlen : length pre = length pre0) by lia.
    rewrite Heq in Heq0.
    apply app_inj_1 in Heq0 as [_ Hs]; [| done].
    rewrite <- Hs in Hm0. congruence.
  - pose proof (priceRegExpExec_none _ He pre _ Heq). congruence.
Qed.

Lemma removeAll_none p s : Forall (fun c => p c = false) s -> removeAll p s = s.
Proof. induction 1 as [| c s Hc _ IH]; simpl; [done |]. by rewrite Hc, IH. Qed.

Lemma numericToken_no_space num :
  Forall (fun c => isPriceChar c = true) num -> removeAll isSpace num = num.
Proof.
  intros H. apply removeAll_none. eapply Forall_impl; [apply H |].
  intros c Hc. by apply isPriceChar_not_space.
Qed.

(** What the parser returns on a match of the pattern. *)
Lemma parsePriceFromText_match text m :
  priceRegExpExec text = Some m ->
  parsePriceFromText (Str text) =
    Normal (Some (Price (if isNaN (tokenValue (m2 m)) then Undefined
                         else Num (tokenValue (m2 m)))
                    (Str (m1 m)) (Str (m0 m)) Undefined Undefined Undefined)).
Proof.
  intros He. unfold parsePriceFromText.
  destruct text as [| c text]; [by vm_compute in He |].
  cbn [truthy negb]. rewrite He.
  assert (Hsp : removeAll isSpace (m2 m) = m2 m).
  { apply priceRegExpExec_some in He as (pre & s' & _ & Hm & _).
    apply matchAt_some in Hm as (_ & _ & _ & _ & _ & _ & [Hall _]).
    by apply numericToken_no_space. }
  rewrite Hsp. unfold tokenValue. by destruct (isNaN _).
Qed.

Lemma parsePriceFromText_nomatch text :
  priceRegExpExec text = None -> parsePriceFromText (Str text) = Normal None.
Proof.
  intros He. unfold parsePriceFromText.
  destruct text as [| c text]; [done |]. cbn [truthy negb]. by rewrite He.
Qed.

(** ** The price text parser *)

(** C5, as the code has it.  The parser takes the leftmost place of the
    text where a currency marker is followed, with at most one white
    space between, by two or more digits, dots and commas, and takes
    these as far as they go.  When that token does not parse as a float
    the parser returns the matched text and the currency with no value,
    not none.  Any such place in the text excludes none, and a text with
    no such place gives none. *)
Theorem parsePriceFromText_partial_signal (text : jsstring) :
  (forall pre cur ws num post,
      patternAt text pre cur ws num post ->
      (forall pre' cur' ws' num' post',
          patternAt text pre' cur' ws' num' post' -> (length pre <= length pre')%nat) ->
      takeWhile isPriceChar post = [] ->
      isNaN (tokenValue num) = true ->
      parsePriceFromText (Str text) =
        Normal (Some (Price Undefined (Str cur) (Str (cur ++ ws ++ num))
                        Undefined Undefined Undefined)))
  /\ (hasPricePattern text ->
      exists c cur rawText,
        parsePriceFromText (Str text) = Normal (Some c) /\
        currency c = Str cur /\ raw c = Str rawText)
  /\ (~ hasPricePattern text -> parsePriceFromText (Str text) = Normal None).
Proof.
  split; [| split].
  - intros pre cur ws num post Hpat Hleft Hmax Hnan.
    rewrite (parsePriceFromText_match text _
               (priceRegExpExec_leftmost text pre cur ws num post Hpat Hleft Hmax)).
    simpl. by rewrite Hnan.
  - intros Hpat. destruct (priceRegExpExec text) as [m |] eqn:He.
    + eexists _, (m1 m), (m0 m). split; [by apply parsePriceFromText_match |]. done.
    + by apply priceRegExpExec_none_iff in He.
  - intros Hno. apply parsePriceFromText_nomatch. by apply priceRegExpExec_none_iff.
Qed.

(** C6.  Running the parser again on the raw text of a candidate it
    returned gives the same value and the same currency (and the same
    raw text). *)
Theorem parsePriceFromText_reparse (text : jsstring) (c : price) :
  parsePriceFromText (Str text) = Normal (Some c) ->
  exists c',
    parsePriceFromText (raw c) = Normal (Some c') /\
    value c' = value c /\ currency c' = currency c /\ raw c' = raw c.
Proof.
  intros H. destruct (priceRegExpExec text) as [m |] eqn:He.
  - rewrite (parsePriceFromText_match text m He) in H. injection H as <-.
    cbn [raw]. rewrite (parsePriceFromText_match (m0 m) m (priceRegExpExec_again _ _ He)).
    by eexists.
  - rewrite (parsePriceFromText_nomatch text He) in H. done.
Qed.

(** ** Reading documents *)

Lemma truthy_not_nullish v : truthy v = true -> nullish v = false.
Proof. by destruct v. Qed.

Lemma Get_field v k : nullish v = false -> Get v k = Normal (field v k).
Proof.
  intros H. unfold field. destruct v; try done; simpl.
  - by destruct (jsstring_eqb _ _).
  - by destruct (jsstring_eqb _ _).
Qed.

Lemma hasPrice_spec p :
  exists b, hasPrice p = Normal b /\ (b = true <-> structuredPrice p).
Proof.
  unfold hasPrice, structuredPrice.
  destruct (truthy p) eqn:Hp.
  - pose proof (truthy_not_nullish p Hp) as Hn.
    rewrite !(Get_field p) by done. simpl.
    destruct (truthy (field p "value")) eqn:Hv.
    + exists true. split; [done |]. split; auto.
    + exists (truthy (field p "raw")). split; [done |].
      split; [auto |]. intros [_ [H | H]]; [done | done].
  - exists false. split; [done |]. split; [done |]. by intros [? _].
Qed.

Lemma hasPrice_true p : structuredPrice p -> hasPrice p = Normal true.
Proof.
  intros H. destruct (hasPrice_spec p) as (b & -> & Hb). f_equal. by apply Hb.
Qed.

Lemma hasPrice_false p : ~ structuredPrice p -> hasPrice p = Normal false.
Proof.
  intros H. destruct (hasPrice_spec p) as (b & -> & Hb). f_equal.
  destruct b; [| done]. exfalso. apply H. by apply Hb.
Qed.

Lemma priceOfField_spec p src :
  truthy p = true -> priceOfField p src = Normal (candidateOfPrice p src).
Proof.
  intros Hp. apply truthy_not_nullish in Hp. unfold priceOfField.
  by rewrite !(Get_field p) by done.
Qed.

(** ** Candidate extraction *)

(** An entry that yields a candidate ends the loop with it; an entry that
    yields nothing passes to the next one. *)
Lemma scanResults_yields r rest c :
  entryYields r (Some c) -> scanResults (r :: rest) = Normal (Some c).
Proof.
  inversion 1 as [Hn Hp | t c0 Hn Hp Ht Hparse |]; subst; cbn [scanResults].
  - rewrite !(Get_field r) by done. cbn [bindC].
    rewrite (hasPrice_true _ Hp). cbn [bindC].
    destruct Hp as [Hp _]. by rewrite (priceOfField_spec _ _ Hp).
  - rewrite !(Get_field r) by done. cbn [bindC].
    rewrite (hasPrice_false _ Hp). cbn [bindC].
    unfold entryText in Ht. rewrite Ht. cbn [bindC]. by rewrite Hparse.
Qed.

Lemma scanResults_skips r rest :
  entryYields r None -> scanResults (r :: rest) = scanResults rest.
Proof.
  inversion 1 as [| | t Hn Hp Ht Hparse]; subst.
  cbn [scanResults].
  rewrite !(Get_field r) by done. cbn [bindC].
  rewrite (hasPrice_false _ Hp). cbn [bindC].
  unfold entryText in Ht. rewrite Ht. cbn [bindC]. rewrite Hparse. done.
Qed.

(** The loop returns the candidate of the first entry that yields one. *)
Lemma scanResults_first before r after c :
  Forall (fun r' => entryYields r' None) before ->
  entryYields r (Some c) ->
  scanResults (before ++ r :: after) = Normal (Some c).
Proof.
  induction 1 as [| r' before Hr' _ IH]; intros Hr.
  - by apply scanResults_yields.
  - rewrite <- app_comm_cons, (scanResults_skips r' _ Hr'). by apply IH.
Qed.

Lemma scanResults_none rs :
  Forall (fun r => entryYields r None) rs -> scanResults rs = Normal None.
Proof.
  induction 1 as [| r rs Hr _ IH]; [done |].
  by rewrite (scanResults_skips r rs Hr).
Qed.

(** C1.  Extraction consults, in this order: (a) the structured price at
    the top level of the response, (b) the result list, entry by entry,
    taking the first entry that carries a structured price or a text
    (title, snippet, summary) the Price Text Parser reads, (c) the
    top-level text of the response.  The first stage that yields a
    candidate gives the result, whatever the later stages contain; so a
    response with a structured price both at the top level and in a
    result returns the top-level one. *)
Theorem extractCandidate_priority (data : jsval) :
  truthy data = true ->
  let top := field data "price" in
  let src := field data "source" ||| Null in
  (* (a) *)
  (structuredPrice top ->
   extractCandidateFromExaResponse data = Normal (Some (candidateOfPrice top src)))
  /\
  (structuredPrice top ->
   forall rs r, field data "results" = Arr rs -> In r rs ->
     structuredPrice (field r "price") ->
     extractCandidateFromExaResponse data = Normal (Some (candidateOfPrice top src)))
  /\
  (* (b) *)
  (~ structuredPrice top ->
   forall before r after c,
     field data "results" = Arr (before ++ r :: after) ->
     Forall (fun r' => entryYields r' None) before ->
     entryYields r (Some c) ->
     extractCandidateFromExaResponse data = Normal (Some c))
  /\
  (* (c) *)
  (~ structuredPrice top ->
   (forall rs, field data "results" = Arr rs ->
      Forall (fun r => entryYields r None) rs) ->
   (truthy (field data "text") = false ->
    extractCandidateFromExaResponse data = Normal None) /\
   (forall t parsed,
      field data "text" = Str t ->
      parsePriceFromText (Str t) = Normal parsed ->
      extractCandidateFromExaResponse data
      = Normal (option_map (fun c => withSource c src) parsed))).
Proof.
  intros Hd top src. pose proof (truthy_not_nullish data Hd) as Hn.
  assert (Ha : structuredPrice top ->
               extractCandidateFromExaResponse data
               = Normal (Some (candidateOfPrice top src))).
  { intros Hp. unfold extractCandidateFromExaResponse. rewrite Hd. cbn [negb].
    rewrite !(Get_field data) by done. cbn [bindC]. fold top.
    rewrite (hasPrice_true top Hp). cbn [bindC].
    destruct Hp as [Hp _]. by rewrite (priceOfField_spec _ _ Hp). }
  assert (Hskip : ~ structuredPrice top ->
     extractCandidateFromExaResponse data =
       (fromResults <-
          match field data "results" with
          | Arr (r :: rest) => scanResults (r :: rest)
          | _ => Normal None
          end ;;
        match fromResults with
        | Some c => Normal (Some c)
        | None =>
            txt <- Get data "text" ;;
            if truthy txt then
              parsed <- parsePriceFromText txt ;;
              match parsed with
              | Some c => src <- Get data "source" ;; Normal (Some (withSource c (src ||| Null)))
              | None => Normal None
              end
            else Normal None
        end)).
  { intros Hp. unfold extractCandidateFromExaResponse. rewrite Hd. cbn [negb].
    rewrite !(Get_field data "price") by done. cbn [bindC]. fold top.
    rewrite (hasPrice_false top Hp). cbn [bindC].
    by rewrite !(Get_field data "results") by done. }
  split; [done |]. split; [by intros Hp rs r _ _ _; apply Ha |]. split.
  - intros Hp before r after c Hrs Hbefore Hr. rewrite (Hskip Hp), Hrs.
    assert (Hscan : scanResults (before ++ r :: after) = Normal (Some c))
      by by apply scanResults_first.
    destruct (before ++ r :: after) as [| r0 rest] eqn:Heq.
    + by destruct before.
    + by rewrite Hscan.
  - intros Hp Hrs. rewrite (Hskip Hp).
    assert (Hscan : match field data "results" with
                    | Arr (r :: rest) => scanResults (r :: rest)
                    | _ => Normal None
                    end = Normal None).
    { destruct (field data "results") as [| | | | | rs |] eqn:Hres; try done.
      destruct rs as [| r rest]; [done |].
      apply scanResults_none. by apply Hrs. }
    rewrite Hscan. cbn [bindC]. rewrite !(Get_field data) by done. cbn [bindC].
    split.
    + intros Ht. by rewrite Ht.
    + intros t parsed Ht Hparse. rewrite Ht.
      destruct t as [| ch t']; [by vm_compute in Hparse; injection Hparse as <- |].
      cbn [truthy]. rewrite Hparse. cbn [bindC]. by destruct parsed.
Qed.

(** ** The live price resolver *)

Lemma lowerTrim_normal x s :
  lowerTrim x = Normal s -> truthy x = false \/ exists t, x = Str t.
Proof.
  unfold lowerTrim, orElse. destruct (truthy x) eqn:Hx; [| by left].
  destruct x; try done. intros _. right. by eexists.
Qed.

Lemma ToString_falsy x : truthy x = false -> exists s, ToString x = Normal s.
Proof.
  destruct x as [| | [|] | n | s | xs | ps]; try done; intros _; by eexists.
Qed.

(** Once the key is computed, the query is too. *)
Lemma buildQuery_normal b m r key :
  makeCacheKey b m r = Normal key -> exists query, buildQuery b m r = Normal query.
Proof.
  unfold makeCacheKey.
  destruct (lowerTrim b) as [sb |] eqn:Hb; [| done].
  destruct (lowerTrim m) as [sm |] eqn:Hm; [| done].
  destruct (lowerTrim r) as [sr |] eqn:Hr; [| done].
  intros _.
  assert (P : forall x s, lowerTrim x = Normal s -> exists t, ToString x = Normal t).
  { intros x s H. apply lowerTrim_normal in H as [H | [t ->]];
      [by apply ToString_falsy | by eexists]. }
  destruct (P _ _ Hb) as [tb Htb], (P _ _ Hm) as [tm Htm], (P _ _ Hr) as [tr Htr].
  unfold buildQuery. rewrite Htb, Htm, Htr.
  destruct (truthy r); by eexists.
Qed.

Lemma callExaSearch_fails E query w :
  providerFails E query ->
  exists e tr, callExaSearch E query w = (Throw e, World (cache w) tr).
Proof.
  destruct w as [c0 tr0].
  unfold callExaSearch, doFetch, bindP, emit, lift, throw.
  intros [Hk | [Hk [[e He] | (resp & Hr & [Hok | [e He]])]]]; rewrite Hk; cbn [negb cache trace].
  - by eexists _, _.
  - rewrite He. by eexists _, _.
  - rewrite Hr, Hok. cbn [negb cache trace]. by eexists _, _.
  - rewrite Hr. destruct (ok resp); cbn [negb cache trace]; [rewrite He |]; by eexists _, _.
Qed.

Lemma callExaSearch_returns E query data w :
  providerReturns E query data ->
  callExaSearch E query w
  = (Normal data, World (cache w) (trace w ++ [Fetched (ExaSearch query)])).
Proof.
  unfold callExaSearch, doFetch, bindP, emit, lift, throw, retP.
  intros (Hk & resp & Hr & Hok & Hj). rewrite Hk. cbn [negb cache trace]. by rewrite Hr, Hok, Hj.
Qed.

(** Whatever the provider does, the call leaves the cache alone, sends
    one request when a key is configured, and returns a document only
    when the provider returned it. *)
Lemma callExaSearch_any E query w res w' :
  callExaSearch E query w = (res, w') ->
  cache w' = cache w /\
  (truthy (EXA_API_KEY E) = true -> trace w' = trace w ++ [Fetched (ExaSearch query)]) /\
  (forall data, res = Normal data -> providerReturns E query data).
Proof.
  unfold callExaSearch, doFetch, bindP, emit, lift, throw, retP, providerReturns.
  destruct (truthy (EXA_API_KEY E)) eqn:Hk; cbn [negb cache trace].
  - destruct (fetch E (ExaSearch query)) as [resp | e] eqn:Hr; cbn [negb cache trace].
    + destruct (ok resp) eqn:Hok; cbn [negb cache trace].
      * destruct (json resp) as [d | e] eqn:Hj; cbn [negb cache trace]; intros [= <- <-]; cbn [negb cache trace];
          (split; [done |]; split; [done |]); intros data [= <-].
        split; [done |]. by exists resp.
      * intros [= <- <-]. cbn [negb cache trace]. split; [done |]. split; [done |]. done.
    + intros [= <- <-]. cbn [negb cache trace]. split; [done |]. split; [done |]. done.
  - intros [= <- <-]. split; [done |]. split; [done |]. done.
Qed.

(** The resolver on a cache hit. *)
Lemma getLivePriceNoUrl_hit E b m r w key c :
  makeCacheKey b m r = Normal key ->
  cache w !! key = Some c ->
  (Date_now E - timestamp c < CACHE_TTL_MS)%Z ->
  getLivePriceNoUrl E b m r w = (Normal (Some (servedFromCache (payload c))), w).
Proof.
  intros Hkey Hc Hage.
  unfold getLivePriceNoUrl, bindP, lift, cacheGet, retP. rewrite Hkey, Hc.
  unfold freshEntry. apply Z.ltb_lt in Hage. by rewrite Hage.
Qed.

(** The resolver on a cache miss, case by case. *)
Lemma getLivePriceNoUrl_miss E b m r w key query :
  makeCacheKey b m r = Normal key ->
  freshEntry (Date_now E) (cache w !! key) = None ->
  buildQuery b m r = Normal query ->
  getLivePriceNoUrl E b m r w =
    match callExaSearch E query w with
    | (Normal data, w1) =>
        match extractCandidateFromExaResponse data with
        | Normal (Some c) =>
            (Normal (Some (resolved c (toISOString E))),
             World (<[key := Entry (Date_now E) (resolved c (toISOString E))]> (cache w1))
               (trace w1))
        | _ => (Normal None, w1)
        end
    | (Throw e, w1) => (Normal None, w1)
    end.
Proof.
  intros Hkey Hfresh Hq.
  unfold getLivePriceNoUrl, bindP, lift, cacheGet, retP, tryCatch, cacheSet.
  rewrite Hkey, Hfresh, Hq.
  destruct (callExaSearch E query w) as [[data | e] w1]; [| done].
  destruct (extractCandidateFromExaResponse data) as [[c |] | e]; done.
Qed.

Lemma freshEntry_later now now' cached :
  freshEntry now cached = None -> (now <= now')%Z -> freshEntry now' cached = None.
Proof.
  unfold freshEntry. destruct cached as [c |]; [| done].
  destruct (now - timestamp c <? CACHE_TTL_MS)%Z eqn:H; [done |].
  intros _ Hle. apply Z.ltb_ge in H.
  destruct (now' - timestamp c <? CACHE_TTL_MS)%Z eqn:H'; [| done].
  apply Z.ltb_lt in H'. lia.
Qed.

(** The cache after any call: as it was, or with the entry of a
    successful resolution. *)
Lemma getLivePriceNoUrl_writes E b m r w res w' :
  getLivePriceNoUrl E b m r w = (res, w') ->
  cache w' = cache w \/
  exists key query data c,
    makeCacheKey b m r = Normal key /\
    buildQuery b m r = Normal query /\
    providerReturns E query data /\
    extractCandidateFromExaResponse data = Normal (Some c) /\
    res = Normal (Some (resolved c (toISOString E))) /\
    cache w' = <[key := Entry (Date_now E) (resolved c (toISOString E))]> (cache w).
Proof.
  destruct (makeCacheKey b m r) as [key | e] eqn:Hkey.
  - destruct (freshEntry (Date_now E) (cache w !! key)) as [c |] eqn:Hfresh.
    + unfold getLivePriceNoUrl, bindP, lift, cacheGet, retP. rewrite Hkey, Hfresh.
      intros [= <- <-]. by left.
    + destruct (buildQuery_normal b m r key Hkey) as [query Hq].
      rewrite (getLivePriceNoUrl_miss E b m r w key query Hkey Hfresh Hq).
      destruct (callExaSearch E query w) as [[data | e] w1] eqn:Hcall.
      * destruct (callExaSearch_any _ _ _ _ _ Hcall) as (Hc & _ & Hret).
        destruct (extractCandidateFromExaResponse data) as [[c |] | e] eqn:Hex;
          intros [= <- <-]; [| by left | by left].
        right. exists key, query, data, c. cbn. rewrite Hc.
        repeat (split; [done |]). split; [by apply Hret | done].
      * destruct (callExaSearch_any _ _ _ _ _ Hcall) as (Hc & _ & _).
        intros [= <- <-]. by left.
  - unfold getLivePriceNoUrl, bindP, lift. rewrite Hkey. intros [= <- <-]. by left.
Qed.

(** C2.  When the provider call fails (no key, a rejected request, a
    status that is not a success, a body that is not JSON) or no candidate
    is extracted from the response, the resolver returns none, throws
    nothing and leaves the cache as it was.  The cache is written only by
    a successful resolution; a failed lookup caches nothing, so the next
    request for the key asks the provider again. *)
Theorem getLivePriceNoUrl_failure_not_cached
  (E : env) (b m r : jsval) (w : world) (key query : jsstring) :
  makeCacheKey b m r = Normal key ->
  freshEntry (Date_now E) (cache w !! key) = None ->
  buildQuery b m r = Normal query ->
  (* a failed call *)
  (providerFails E query \/
   (exists data, providerReturns E query data /\ noCandidate data) ->
   exists w',
     getLivePriceNoUrl E b m r w = (Normal None, w') /\ cache w' = cache w /\
     (* the next request asks the provider again *)
     forall E' res w'',
       (Date_now E <= Date_now E')%Z ->
       truthy (EXA_API_KEY E') = true ->
       getLivePriceNoUrl E' b m r w' = (res, w'') ->
       trace w'' = trace w' ++ [Fetched (ExaSearch query)])
  /\
  (* the cache is written only after a successful resolution *)
  (forall res w',
     getLivePriceNoUrl E b m r w = (res, w') ->
     cache w' <> cache w ->
     exists data c,
       providerReturns E query data /\
       extractCandidateFromExaResponse data = Normal (Some c) /\
       res = Normal (Some (resolved c (toISOString E))) /\
       cache w' = <[key := Entry (Date_now E) (resolved c (toISOString E))]> (cache w)).
Proof.
  intros Hkey Hfresh Hq. split.
  - intros Hfail.
    assert (Hnone : exists w', getLivePriceNoUrl E b m r w = (Normal None, w')
                               /\ cache w' = cache w).
    { rewrite (getLivePriceNoUrl_miss E b m r w key query Hkey Hfresh Hq).
      destruct Hfail as [Hf | (data & Hret & Hno)].
      - destruct (callExaSearch_fails E query w Hf) as (e & tr & ->). by eexists.
      - rewrite (callExaSearch_returns E query data w Hret).
        destruct Hno as [-> | [e ->]]; by eexists. }
    destruct Hnone as (w' & Hrun & Hcache). exists w'.
    split; [done |]. split; [done |].
    intros E' res w'' Hlater Hk Hrun'.
    assert (Hfresh' : freshEntry (Date_now E') (cache w' !! key) = None).
    { rewrite Hcache. by apply (freshEntry_later (Date_now E)). }
    rewrite (getLivePriceNoUrl_miss E' b m r w' key query Hkey Hfresh' Hq) in Hrun'.
    destruct (callExaSearch E' query w') as [res1 w1] eqn:Hcall.
    destruct (callExaSearch_any _ _ _ _ _ Hcall) as (_ & Htr & _).
    specialize (Htr Hk).
    destruct res1 as [data | e].
    + destruct (extractCandidateFromExaResponse data) as [[c |] | e];
        injection Hrun' as <- <-; done.
    + by injection Hrun' as <- <-.
  - intros res w' Hrun Hchanged.
    destruct (getLivePriceNoUrl_writes _ _ _ _ _ _ _ Hrun)
      as [Hsame | (key' & query' & data & c & Hkey' & Hq' & Hret & Hex & Hres & Hc)];
      [done |].
    rewrite Hkey in Hkey'. injection Hkey' as <-.
    rewrite Hq in Hq'. injection Hq' as <-.
    by exists data, c.
Qed.

Lemma servedFromCache_same p :
  samePayload (servedFromCache p) p /\ cached (servedFromCache p) = Bool true.
Proof. by destruct p. Qed.

(** C3.  The time-to-live is five minutes.  When the cache holds an entry
    for the key that is younger than that, the resolver returns its
    payload at once, marked as served from the cache and otherwise as
    stored, and the provider is not called (nothing is sent, the cache
    stays as it is); so a second resolution for the same normalised key
    inside the window returns the payload of the first but for the
    marker.  Once the window has elapsed the provider is called again. *)
Theorem getLivePriceNoUrl_cache_window :
  CACHE_TTL_MS = 300000%Z
  /\
  (forall E b m r w key c,
     makeCacheKey b m r = Normal key ->
     cache w !! key = Some c ->
     (Date_now E - timestamp c < CACHE_TTL_MS)%Z ->
     getLivePriceNoUrl E b m r w = (Normal (Some (servedFromCache (payload c))), w) /\
     samePayload (servedFromCache (payload c)) (payload c) /\
     cached (servedFromCache (payload c)) = Bool true)
  /\
  (forall E1 E2 b m r b' m' r' w1 w2 out key,
     makeCacheKey b m r = Normal key ->
     makeCacheKey b' m' r' = Normal key ->
     freshEntry (Date_now E1) (cache w1 !! key) = None ->
     getLivePriceNoUrl E1 b m r w1 = (Normal (Some out), w2) ->
     (Date_now E2 - Date_now E1 < CACHE_TTL_MS)%Z ->
     getLivePriceNoUrl E2 b' m' r' w2 = (Normal (Some (servedFromCache out)), w2) /\
     samePayload (servedFromCache out) out /\
     cached (servedFromCache out) = Bool true)
  /\
  (forall E b m r w key c query,
     makeCacheKey b m r = Normal key ->
     cache w !! key = Some c ->
     (CACHE_TTL_MS <= Date_now E - timestamp c)%Z ->
     buildQuery b m r = Normal query ->
     truthy (EXA_API_KEY E) = true ->
     exists res w',
       getLivePriceNoUrl E b m r w = (res, w') /\
       trace w' = trace w ++ [Fetched (ExaSearch query)]).
Proof.
  split; [done |]. split; [| split].
  - intros E b m r w key c Hkey Hc Hage.
    split; [by apply (getLivePriceNoUrl_hit E b m r w key c) |].
    apply servedFromCache_same.
  - intros E1 E2 b m r b' m' r' w1 w2 out key Hkey Hkey' Hfresh Hrun Hage.
    destruct (buildQuery_normal b m r key Hkey) as [query Hq].
    rewrite (getLivePriceNoUrl_miss E1 b m r w1 key query Hkey Hfresh Hq) in Hrun.
    destruct (callExaSearch E1 query w1) as [[data | e] w1'] eqn:Hcall; [| done].
    destruct (extractCandidateFromExaResponse data) as [[c |] | e]; [| done | done].
    injection Hrun as <- <-.
    split; [| apply servedFromCache_same].
    pose proof (getLivePriceNoUrl_hit E2 b' m' r'
      (World (<[key := Entry (Date_now E1) (resolved c (toISOString E1))]> (cache w1'))
         (trace w1'))
      key (Entry (Date_now E1) (resolved c (toISOString E1))) Hkey') as Hhit.
    apply Hhit; [apply lookup_insert_eq | done].
  - intros E b m r w key c query Hkey Hc Hage Hq Hk.
    assert (Hfresh : freshEntry (Date_now E) (cache w !! key) = None).
    { rewrite Hc. unfold freshEntry. apply Z.ltb_ge in Hage. by rewrite Hage. }
    rewrite (getLivePriceNoUrl_miss E b m r w key query Hkey Hfresh Hq).
    destruct (callExaSearch E query w) as [res1 w1] eqn:Hcall.
    destruct (callExaSearch_any _ _ _ _ _ Hcall) as (_ & Htr & _).
    specialize (Htr Hk).
    destruct res1 as [data | e]; [| by eexists _, _].
    destruct (extractCandidateFromExaResponse data) as [[c' |] | e]; by eexists _, _.
Qed.

(** ** The answers of the handler *)

Ltac nonempty :=
  let H := fresh in
  intros H; apply (f_equal length) in H;
  repeat rewrite length_app in H;
  unfold str, newline, emDash in H; simpl in H; lia.

Lemma noMatchAnswer_nonempty : noMatchAnswer <> [].
Proof. unfold noMatchAnswer. nonempty. Qed.

Lemma unavailableAnswer_nonempty meta a : unavailableAnswer meta = Normal a -> a <> [].
Proof.
  unfold unavailableAnswer.
  destruct (catalogHeading meta) as [h |]; [| done]. cbn [bindC].
  destruct (ToString (description meta)) as [d |]; [| done]. cbn [bindC].
  intros [= <-]. nonempty.
Qed.

Lemma degradedAnswer_nonempty meta a : degradedAnswer meta = Normal a -> a <> [].
Proof.
  unfold degradedAnswer.
  destruct (catalogHeading meta) as [h |]; [| done]. cbn [bindC].
  destruct (ToString (description meta)) as [d |]; [| done]. cbn [bindC].
  intros [= <-]. nonempty.
Qed.

Lemma catalogAnswer_nonempty meta a : catalogAnswer meta = Normal a -> a <> [].
Proof.
  unfold catalogAnswer.
  destruct (catalogHeading meta) as [h |]; [| done]. cbn [bindC].
  destruct (ToString (description meta)) as [d |]; [| done]. cbn [bindC].
  intros [= <-]. nonempty.
Qed.

Lemma liveAnswer_nonempty live a : liveAnswer live = Normal a -> a <> [].
Proof.
  unfold liveAnswer.
  destruct (ToString (currency live ||| Str [])) as [c |]; [| done]. cbn [bindC].
  destruct (ToString (value live)) as [v |]; [| done]. cbn [bindC].
  destruct (ToString (source live ||| Str (str "web search"))) as [s |]; [| done].
  cbn [bindC].
  destruct (ToString (ts live)) as [t |]; [| done]. cbn [bindC].
  intros [= <-]. nonempty.
Qed.

Lemma trim_nonempty s : trim s <> [] -> isEmpty s || isEmpty (trim s) = false.
Proof.
  intros H. destruct s as [| c s]; [done |].
  destruct (trim (c :: s)); done.
Qed.

(** The two collaborator calls of retrieval send one request each and
    leave the cache alone. *)
Lemma getEmbedding_effect E q w res w' :
  getEmbedding E q w = (res, w') ->
  cache w' = cache w /\ trace w' = trace w ++ [Fetched (Embeddings q)].
Proof.
  unfold getEmbedding, doFetch, bindP, emit, lift, throw.
  destruct (fetch E (Embeddings q)) as [resp | e]; [| by intros [= <- <-]].
  destruct (ok resp); cbn [negb cache trace]; [| by intros [= <- <-]].
  destruct (json resp) as [j | e]; [| by intros [= <- <-]].
  destruct (embeddingOpt j) as [e0 | e]; [| by intros [= <- <-]].
  destruct (truthy e0); cbn [negb]; by intros [= <- <-].
Qed.

Lemma queryPineconeVector_effect E emb k w res w' :
  queryPineconeVector E emb k w = (res, w') ->
  cache w' = cache w /\ trace w' = trace w ++ [Fetched (PineconeQuery emb k)].
Proof.
  unfold queryPineconeVector, doFetch, bindP, emit, lift, throw.
  destruct (fetch E (PineconeQuery emb k)) as [resp | e]; [| by intros [= <- <-]].
  destruct (ok resp); cbn [negb cache trace]; by intros [= <- <-].
Qed.

Lemma extractTopMetadata_zeroMatches pc :
  zeroMatches pc -> extractTopMetadata pc = Normal None.
Proof.
  intros Hz.
  assert (Hm : matchesOf pc = Normal (Arr [])).
  { unfold matchesOf. destruct (truthy pc) eqn:Hpc.
    - rewrite (Get_field pc) by (by apply truthy_not_nullish). cbn [bindC].
      destruct Hz as [Hz | [Hz | Hz]]; [congruence | |].
      + unfold orElse. by rewrite Hz.
      + by rewrite Hz.
    - cbn [bindC]. unfold orElse. by rewrite Hpc. }
  unfold extractTopMetadata. rewrite Hm. by vm_compute.
Qed.

(** ** The handler *)

(** C9.  When the vector database returns no match, the handler answers
    with the fixed message "I couldn't find a matching model in the
    catalog. Try asking about a specific brand/model." and stops: after the embedding and
    the vector query nothing more is sent, the live price helper is not
    called and the cache is not touched, whatever the question asks. *)
Theorem POST_zero_matches
  (E : env) (request : jsval) (question : jsstring) (emb pc : jsval) (w w1 w2 : world) :
  questionOf request = Normal question ->
  trim question <> [] ->
  getEmbedding E question w = (Normal emb, w1) ->
  queryPineconeVector E emb 3 w1 = (Normal pc, w2) ->
  zeroMatches pc ->
  POST E (Normal request) w
  = (Normal (Json (AnswerBody
               (str "I couldn't find a matching model in the catalog. Try asking about a specific brand/model.")
               None None) 200), w2)
  /\ cache w2 = cache w
  /\ trace w2 = trace w ++ [Fetched (Embeddings question); Fetched (PineconeQuery emb 3)].
Proof.
  intros Hq Hne Hemb Hpc Hz. split.
  - unfold POST, tryCatch, POST_try, bindP, lift, retP.
    rewrite Hq, (trim_nonempty question Hne), Hemb, Hpc.
    by rewrite (extractTopMetadata_zeroMatches pc Hz).
  - destruct (getEmbedding_effect _ _ _ _ _ Hemb) as [Hc1 Ht1].
    destruct (queryPineconeVector_effect _ _ _ _ _ _ Hpc) as [Hc2 Ht2].
    split; [congruence |]. rewrite Ht2, Ht1, <- app_assoc. done.
Qed.

(** The [try] block, when it completes, gives an answer that is not
    empty. *)
Lemma POST_try_answer E request question w resp w' :
  questionOf request = Normal question ->
  trim question <> [] ->
  POST_try E (Normal request) w = (Normal resp, w') ->
  exists a p m, body resp = AnswerBody a p m /\ a <> [] /\ httpStatus resp = 200%Z.
Proof.
  intros Hq Hne. unfold POST_try, bindP, lift, retP, emit.
  rewrite Hq, (trim_nonempty question Hne).
  destruct (getEmbedding E question w) as [[emb | e] w1]; [| done].
  destruct (queryPineconeVector E emb 3 w1) as [[pc | e] w2]; [| done].
  destruct (extractTopMetadata pc) as [[meta |] | e]; [| | done].
  - destruct (regExpTest priceTerms question).
    + destruct (liveLibLoads E); cbn [negb].
      * destruct (getLivePriceNoUrl E _ _ _ _) as [[[live |] | e] w3]; [| | done].
        -- destruct (liveAnswer live) as [a |] eqn:Ha; [| done].
           intros [= <- <-]. eexists _, _, _. split; [done |].
           split; [by apply (liveAnswer_nonempty live) | done].
        -- destruct (degradedAnswer meta) as [a |] eqn:Ha; [| done].
           intros [= <- <-]. eexists _, _, _. split; [done |].
           split; [by apply (degradedAnswer_nonempty meta) | done].
      * destruct (unavailableAnswer meta) as [a |] eqn:Ha; [| done].
        intros [= <- <-]. eexists _, _, _. split; [done |].
        split; [by apply (unavailableAnswer_nonempty meta) | done].
    + destruct (catalogAnswer meta) as [a |] eqn:Ha; [| done].
      intros [= <- <-]. eexists _, _, _. split; [done |].
      split; [by apply (catalogAnswer_nonempty meta) | done].
  - intros [= <- <-]. eexists _, _, _. split; [done |].
    split; [apply noMatchAnswer_nonempty | done].
Qed.

(** C8, as the handler has it.  For every question that is not blank the
    handler returns a result and throws nothing.  When no step of the
    pipeline throws, the result carries an [answer], a non-empty string,
    with status 200.  When a step throws, as when the embedding call
    fails, the result is the internal error with status 500 and carries
    no [answer]. *)
Theorem POST_answer_or_internal_error
  (E : env) (request : jsval) (question : jsstring) (w : world) :
  questionOf request = Normal question ->
  trim question <> [] ->
  (forall resp w',
     POST_try E (Normal request) w = (Normal resp, w') ->
     POST E (Normal request) w = (Normal resp, w') /\
     exists a p m, body resp = AnswerBody a p m /\ a <> [] /\ httpStatus resp = 200%Z)
  /\
  (forall e w',
     POST_try E (Normal request) w = (Throw e, w') ->
     POST E (Normal request) w
     = (Normal (Json (ErrorBody (messageOf e ||| Str (str "internal error"))) 500), w'))
  /\
  (forall e,
     fetch E (Embeddings question) = Throw e ->
     POST E (Normal request) w
     = (Normal (Json (ErrorBody (messageOf e ||| Str (str "internal error"))) 500),
        World (cache w) (trace w ++ [Fetched (Embeddings question)])))
  /\
  (forall emb w1 e,
     getEmbedding E question w = (Normal emb, w1) ->
     fetch E (PineconeQuery emb 3) = Throw e ->
     POST E (Normal request) w
     = (Normal (Json (ErrorBody (messageOf e ||| Str (str "internal error"))) 500),
        World (cache w1) (trace w1 ++ [Fetched (PineconeQuery emb 3)]))).
Proof.
  intros Hq Hne. split; [| split; [| split]].
  - intros resp w' Hrun. split.
    + unfold POST, tryCatch. by rewrite Hrun.
    + by apply (POST_try_answer E request question w resp w').
  - intros e w' Hrun. unfold POST, tryCatch, retP. by rewrite Hrun.
  - intros e He. unfold POST, tryCatch, POST_try, bindP, lift, retP.
    rewrite Hq, (trim_nonempty question Hne).
    unfold getEmbedding, doFetch, bindP, emit, lift. by rewrite He.
  - intros emb w1 e Hemb He. unfold POST, tryCatch, POST_try, bindP, lift, retP.
    rewrite Hq, (trim_nonempty question Hne), Hemb.
    unfold queryPineconeVector, doFetch, bindP, emit, lift. by rewrite He.
Qed.

(** ** The two copies of extractTopMetadata *)

(** C10 at a top match with the similarity score 0: the copy that reads
    [top.score ?? null] keeps the score, the copy that reads
    [top.score || null] gives [null], so the two records differ. *)
Theorem extractTopMetadata_zero_score :
  (exists m, extractTopMetadata zeroScoreMatches = Normal (Some m)
             /\ score m = Num (S754_zero false)) /\
  (exists m, extractTopMetadata2 zeroScoreMatches = Normal (Some m)
             /\ score m = Null) /\
  extractTopMetadata zeroScoreMatches <> extractTopMetadata2 zeroScoreMatches.
Proof.
  split; [| split].
  - eexists. split; [by vm_compute | done].
  - eexists. split; [by vm_compute | done].
  - vm_compute. discriminate.
Qed.

(** The two copies agree on every answer whose top score is absent,
    [null], or truthy; they part only on a score that is falsy without
    being absent. *)
Lemma extractTopMetadata_copies_agree pc :
  match extractTopMetadata pc with
  | Normal (Some m) =>
      (score m = Null \/ truthy (score m) = true) ->
      extractTopMetadata2 pc = Normal (Some m)
  | other => extractTopMetadata2 pc = other
  end.
Proof.
  unfold extractTopMetadata, extractTopMetadata2.
  destruct (matchesOf pc) as [matches | e] eqn:Hm; [| done]. cbn [bindC].
  assert (Ht : truthy matches = true).
  { unfold matchesOf in Hm.
    destruct (if truthy pc then Get pc "matches" else Normal pc) as [m |]; [| done].
    injection Hm as <-. unfold orElse. by destruct (truthy m) eqn:?. }
  rewrite Ht. cbn [negb].
  destruct (Get matches "length") as [len | e]; [| done]. cbn [bindC].
  destruct (truthy len); [| done]. cbn [negb].
  destruct (GetIndex matches 0) as [top | e]; [| done]. cbn [bindC].
  destruct (Get top "metadata") as [md | e]; [| done]. cbn [bindC].
  destruct (Get top "id") as [top_id | e]; [| done]. cbn [bindC].
  destruct (Get (md ||| Obj []) "id") as [md_id | e]; [| done]. cbn [bindC].
  destruct (Get top "score") as [top_score | e]; [| done]. cbn [bindC].
  repeat (match goal with
          | |- context [bindC (Get ?v ?k) _] =>
              destruct (Get v k) as [? | ?]; [| done]; cbn [bindC]
          end).
  cbn [score]. unfold coalesce, orElse.
  destruct top_score as [| | [|] | n | [| c t] | xs | ps]; cbn [nullish truthy]; try done.
  - intros [H | H]; done.
  - destruct (isZero n || isNaN n) eqn:Hn; cbn [negb]; [| done].
    intros [H | H]; done.
  - intros [H | H]; done.
Qed.

(** * Further properties *)

(** ** The handler, path by path *)

Lemma trim_empty_blank s : trim s = [] -> isEmpty s || isEmpty (trim s) = true.
Proof. intros ->. by destruct s. Qed.

(** X1.  A question that is missing, empty or made of white space only is
    refused with "question required" and status 400; nothing is sent to a
    collaborator and the cache is not touched. *)
Theorem POST_blank_question (E : env) (request : jsval) (question : jsstring) (w : world) :
  questionOf request = Normal question ->
  trim question = [] ->
  POST E (Normal request) w
  = (Normal (Json (ErrorBody (Str (str "question required"))) 400), w).
Proof.
  intros Hq Hblank. unfold POST, tryCatch, POST_try, bindP, lift, retP.
  by rewrite Hq, (trim_empty_blank question Hblank).
Qed.

(** The handler once retrieval has found a match. *)
Lemma POST_retrieved E request question w emb pc w1 w2 meta :
  questionOf request = Normal question ->
  trim question <> [] ->
  getEmbedding E question w = (Normal emb, w1) ->
  queryPineconeVector E emb 3 w1 = (Normal pc, w2) ->
  extractTopMetadata pc = Normal (Some meta) ->
  cache w2 = cache w /\
  trace w2 = trace w ++ [Fetched (Embeddings question); Fetched (PineconeQuery emb 3)] /\
  POST_try E (Normal request) w =
    (if regExpTest priceTerms question then
       if negb (liveLibLoads E) then
         (a <- lift (unavailableAnswer meta) ;;
          retP (Json (AnswerBody a None (Some meta)) 200))%prog
       else
         (emit (Resolving (brand meta ||| Str []) (model_name meta ||| Str [])
                  (reference_number meta ||| Str [])) ;;
          live <- getLivePriceNoUrl E (brand meta ||| Str []) (model_name meta ||| Str [])
                    (reference_number meta ||| Str []) ;;
          match live with
          | Some live =>
              a <- lift (liveAnswer live) ;;
              retP (Json (AnswerBody a
                      (Some [Provenance (source live ||| Str (str "exa"))
                               (raw live ||| Str [])])
                      (Some meta)) 200)
          | None =>
              a <- lift (degradedAnswer meta) ;;
              retP (Json (AnswerBody a None (Some meta)) 200)
          end)%prog
     else
       (a <- lift (catalogAnswer meta) ;;
        retP (Json (AnswerBody a None (Some meta)) 200))%prog) w2.
Proof.
  intros Hq Hne Hemb Hpc Hmeta.
  destruct (getEmbedding_effect _ _ _ _ _ Hemb) as [Hc1 Ht1].
  destruct (queryPineconeVector_effect _ _ _ _ _ _ Hpc) as [Hc2 Ht2].
  split; [congruence |]. split; [by rewrite Ht2, Ht1, <- app_assoc |].
  unfold POST_try, bindP at 1 2 3 4 5, lift at 1 2 3.
  rewrite Hq, (trim_nonempty question Hne), Hemb, Hpc, Hmeta.
  by destruct (regExpTest priceTerms question), (liveLibLoads E).
Qed.

(** X2.  A question without price vocabulary is answered from the
    catalogue entry alone: brand, model, reference and description, with
    the metadata and no provenance.  Only the two retrieval requests are
    sent, the live price helper is not called, the cache is not touched. *)
Theorem POST_catalogue_question
  (E : env) (request : jsval) (question : jsstring) (emb pc : jsval)
  (w w1 w2 : world) (meta : CatalogMatch) (a : jsstring) :
  questionOf request = Normal question ->
  trim question <> [] ->
  getEmbedding E question w = (Normal emb, w1) ->
  queryPineconeVector E emb 3 w1 = (Normal pc, w2) ->
  extractTopMetadata pc = Normal (Some meta) ->
  regExpTest priceTerms question = false ->
  catalogAnswer meta = Normal a ->
  POST E (Normal request) w
  = (Normal (Json (AnswerBody a None (Some meta)) 200), w2)
  /\ cache w2 = cache w
  /\ trace w2 = trace w ++ [Fetched (Embeddings question); Fetched (PineconeQuery emb 3)].
Proof.
  intros Hq Hne Hemb Hpc Hmeta Hintent Ha.
  destruct (POST_retrieved E request question w emb pc w1 w2 meta Hq Hne Hemb Hpc Hmeta)
    as (Hc & Ht & Hrun).
  split; [| done].
  unfold POST, tryCatch. rewrite Hrun, Hintent.
  unfold bindP, lift, retP. by rewrite Ha.
Qed.

Lemma catalogHeading_text meta b m r :
  ToString (brand meta) = Normal b ->
  ToString (model_name meta) = Normal m ->
  ToString (reference_number meta) = Normal r ->
  catalogHeading meta = Normal (b ++ str " " ++ m ++ str " (" ++ r ++ str ")").
Proof. unfold catalogHeading. by intros -> -> ->. Qed.

(** X3.  When the import of the helper gives no function, a price
    question is answered with "Live price lookup is not available.
    Here's catalog info:", an empty line, the heading of the catalogue
    entry and its description; no search request is sent, the helper is
    not called and the cache is not touched. *)
Theorem POST_helper_unavailable
  (E : env) (request : jsval) (question : jsstring) (emb pc : jsval)
  (w w1 w2 : world) (meta : CatalogMatch) (b m r d : jsstring) :
  questionOf request = Normal question ->
  trim question <> [] ->
  getEmbedding E question w = (Normal emb, w1) ->
  queryPineconeVector E emb 3 w1 = (Normal pc, w2) ->
  extractTopMetadata pc = Normal (Some meta) ->
  regExpTest priceTerms question = true ->
  liveLibLoads E = false ->
  ToString (brand meta) = Normal b ->
  ToString (model_name meta) = Normal m ->
  ToString (reference_number meta) = Normal r ->
  ToString (description meta) = Normal d ->
  POST E (Normal request) w
  = (Normal (Json (AnswerBody
               (str "Live price lookup is not available. Here's catalog info:"
                  ++ newline ++ newline
                  ++ (b ++ str " " ++ m ++ str " (" ++ r ++ str ")")
                  ++ newline ++ d)
               None (Some meta)) 200), w2)
  /\ cache w2 = cache w
  /\ trace w2 = trace w ++ [Fetched (Embeddings question); Fetched (PineconeQuery emb 3)].
Proof.
  intros Hq Hne Hemb Hpc Hmeta Hintent Hlib Hb Hm Hr Hd.
  destruct (POST_retrieved E request question w emb pc w1 w2 meta Hq Hne Hemb Hpc Hmeta)
    as (Hc & Ht & Hrun).
  split; [| done].
  unfold POST, tryCatch. rewrite Hrun, Hintent, Hlib.
  unfold bindP, lift, retP. cbn [negb].
  unfold unavailableAnswer. by rewrite (catalogHeading_text meta b m r Hb Hm Hr), Hd.
Qed.

Lemma orElse_truthy_default x d d' : truthy d = true -> (x ||| d) ||| d' = x ||| d.
Proof. unfold orElse. intros Hd. destruct (truthy x) eqn:Hx; by rewrite ?Hx, ?Hd. Qed.

Lemma orElse_null_default x d : (x ||| Null) ||| d = x ||| d.
Proof. unfold orElse. destruct (truthy x) eqn:Hx; by rewrite ?Hx. Qed.

(** The resolver when the lookup fails, as a step of a larger run. *)
Lemma getLivePriceNoUrl_none E b m r w key query :
  makeCacheKey b m r = Normal key ->
  freshEntry (Date_now E) (cache w !! key) = None ->
  buildQuery b m r = Normal query ->
  providerFails E query \/ (exists data, providerReturns E query data /\ noCandidate data) ->
  exists w', getLivePriceNoUrl E b m r w = (Normal None, w') /\ cache w' = cache w.
Proof.
  intros Hkey Hfresh Hq Hfail.
  rewrite (getLivePriceNoUrl_miss E b m r w key query Hkey Hfresh Hq).
  destruct Hfail as [Hf | (data & Hret & Hno)].
  - destruct (callExaSearch_fails E query w Hf) as (e & tr & ->). by eexists.
  - rewrite (callExaSearch_returns E query data w Hret).
    destruct Hno as [-> | [e ->]]; by eexists.
Qed.

(** X4.  When the search provider fails, or its answer holds no price, a
    price question still gets an answer, status 200: "I couldn't fetch a
    clear live listing price right now. Here's the catalog info I
    found:", an empty line, the heading of the catalogue entry and its
    description, with the metadata and no provenance.  The cache is left
    as it was. *)
Theorem POST_provider_failure_degrades
  (E : env) (request : jsval) (question : jsstring) (emb pc : jsval)
  (w w1 w2 : world) (meta : CatalogMatch) (key query b m r d : jsstring) :
  questionOf request = Normal question ->
  trim question <> [] ->
  getEmbedding E question w = (Normal emb, w1) ->
  queryPineconeVector E emb 3 w1 = (Normal pc, w2) ->
  extractTopMetadata pc = Normal (Some meta) ->
  regExpTest priceTerms question = true ->
  liveLibLoads E = true ->
  makeCacheKey (brand meta ||| Str []) (model_name meta ||| Str [])
    (reference_number meta ||| Str []) = Normal key ->
  freshEntry (Date_now E) (cache w !! key) = None ->
  buildQuery (brand meta ||| Str []) (model_name meta ||| Str [])
    (reference_number meta ||| Str []) = Normal query ->
  providerFails E query \/ (exists data, providerReturns E query data /\ noCandidate data) ->
  ToString (brand meta) = Normal b ->
  ToString (model_name meta) = Normal m ->
  ToString (reference_number meta) = Normal r ->
  ToString (description meta) = Normal d ->
  exists w',
    POST E (Normal request) w
    = (Normal (Json (AnswerBody
                 (str "I couldn't fetch a clear live listing price right now. Here's the catalog info I found:"
                    ++ newline ++ newline
                    ++ (b ++ str " " ++ m ++ str " (" ++ r ++ str ")")
                    ++ newline ++ d)
                 None (Some meta)) 200), w')
    /\ cache w' = cache w.
Proof.
  intros Hq Hne Hemb Hpc Hmeta Hintent Hlib Hkey Hfresh Hquery Hfail Hb Hm Hr Hd.
  destruct (POST_retrieved E request question w emb pc w1 w2 meta Hq Hne Hemb Hpc Hmeta)
    as (Hc & Ht & Hrun).
  unfold POST, tryCatch. rewrite Hrun, Hintent, Hlib. cbn [negb].
  unfold bindP at 1 2, emit.
  set (w3 := World (cache w2) _).
  assert (Hfresh3 : freshEntry (Date_now E) (cache w3 !! key) = None)
    by (subst w3; cbn [cache]; by rewrite Hc).
  destruct (getLivePriceNoUrl_none E _ _ _ w3 key query Hkey Hfresh3 Hquery Hfail)
    as (w' & -> & Hc').
  unfold bindP, lift, retP.
  unfold degradedAnswer. rewrite (catalogHeading_text meta b m r Hb Hm Hr), Hd.
  exists w'. split; [done |]. rewrite Hc'. by subst w3.
Qed.

(** X5.  When the search provider returns a response from which the
    candidate [c] is extracted, a price question is answered with the
    live listing of the resolved record; its provenance has one entry,
    the source being the candidate's source, or "exa-search" when it has
    none (the defaults "exa" and "web search" of the handler are never
    used), and the raw text the candidate's, or the empty string.  The
    record is stored in the cache under the key of the match, and the
    run has sent the two retrieval requests and one search request. *)
Theorem POST_live_listing
  (E : env) (request : jsval) (question : jsstring) (emb pc data : jsval)
  (w w1 w2 : world) (meta : CatalogMatch) (key query a : jsstring) (c : price) :
  questionOf request = Normal question ->
  trim question <> [] ->
  getEmbedding E question w = (Normal emb, w1) ->
  queryPineconeVector E emb 3 w1 = (Normal pc, w2) ->
  extractTopMetadata pc = Normal (Some meta) ->
  regExpTest priceTerms question = true ->
  liveLibLoads E = true ->
  makeCacheKey (brand meta ||| Str []) (model_name meta ||| Str [])
    (reference_number meta ||| Str []) = Normal key ->
  freshEntry (Date_now E) (cache w !! key) = None ->
  buildQuery (brand meta ||| Str []) (model_name meta ||| Str [])
    (reference_number meta ||| Str []) = Normal query ->
  providerReturns E query data ->
  extractCandidateFromExaResponse data = Normal (Some c) ->
  liveAnswer (resolved c (toISOString E)) = Normal a ->
  POST E (Normal request) w
  = (Normal (Json (AnswerBody a
               (Some [Provenance (source c ||| Str (str "exa-search"))
                        (raw c ||| Str [])])
               (Some meta)) 200),
     World (<[key := Entry (Date_now E) (resolved c (toISOString E))]> (cache w))
       (trace w ++ [Fetched (Embeddings question); Fetched (PineconeQuery emb 3);
                    Resolving (brand meta ||| Str []) (model_name meta ||| Str [])
                      (reference_number meta ||| Str []);
                    Fetched (ExaSearch query)])).
Proof.
  intros Hq Hne Hemb Hpc Hmeta Hintent Hlib Hkey Hfresh Hquery Hret Hex Ha.
  destruct (POST_retrieved E request question w emb pc w1 w2 meta Hq Hne Hemb Hpc Hmeta)
    as (Hc & Ht & Hrun).
  unfold POST, tryCatch. rewrite Hrun, Hintent, Hlib. cbn [negb].
  unfold bindP at 1 2, emit.
  set (w3 := World (cache w2) _).
  assert (Hfresh3 : freshEntry (Date_now E) (cache w3 !! key) = None)
    by (subst w3; cbn [cache]; by rewrite Hc).
  rewrite (getLivePriceNoUrl_miss E _ _ _ w3 key query Hkey Hfresh3 Hquery).
  rewrite (callExaSearch_returns E query data w3 Hret), Hex.
  unfold bindP, lift, retP. rewrite Ha.
  subst w3. cbn [cache trace resolved source raw].
  rewrite orElse_truthy_default by done. rewrite orElse_null_default.
  rewrite Hc, Ht, <- !app_assoc. done.
Qed.

Lemma liveAnswer_servedFromCache p : liveAnswer (servedFromCache p) = liveAnswer p.
Proof. by destruct p. Qed.

(** X6.  While the cache holds an entry younger than five minutes for
    the key of the match, a price question is answered from it: the same
    listing text and provenance as the stored record gives, with no
    search request sent and the cache unchanged. *)
Theorem POST_answers_from_cache
  (E : env) (request : jsval) (question : jsstring) (emb pc : jsval)
  (w w1 w2 : world) (meta : CatalogMatch) (key a : jsstring) (c : CacheEntry) :
  questionOf request = Normal question ->
  trim question <> [] ->
  getEmbedding E question w = (Normal emb, w1) ->
  queryPineconeVector E emb 3 w1 = (Normal pc, w2) ->
  extractTopMetadata pc = Normal (Some meta) ->
  regExpTest priceTerms question = true ->
  liveLibLoads E = true ->
  makeCacheKey (brand meta ||| Str []) (model_name meta ||| Str [])
    (reference_number meta ||| Str []) = Normal key ->
  cache w !! key = Some c ->
  (Date_now E - timestamp c < CACHE_TTL_MS)%Z ->
  liveAnswer (payload c) = Normal a ->
  POST E (Normal request) w
  = (Normal (Json (AnswerBody a
               (Some [Provenance (source (payload c) ||| Str (str "exa"))
                        (raw (payload c) ||| Str [])])
               (Some meta)) 200),
     World (cache w)
       (trace w ++ [Fetched (Embeddings question); Fetched (PineconeQuery emb 3);
                    Resolving (brand meta ||| Str []) (model_name meta ||| Str [])
                      (reference_number meta ||| Str [])])).
Proof.
  intros Hq Hne Hemb Hpc Hmeta Hintent Hlib Hkey Hhit Hage Ha.
  destruct (POST_retrieved E request question w emb pc w1 w2 meta Hq Hne Hemb Hpc Hmeta)
    as (Hc & Ht & Hrun).
  unfold POST, tryCatch. rewrite Hrun, Hintent, Hlib. cbn [negb].
  unfold bindP at 1 2, emit.
  set (w3 := World (cache w2) _).
  assert (Hhit3 : cache w3 !! key = Some c) by (subst w3; cbn [cache]; by rewrite Hc).
  rewrite (getLivePriceNoUrl_hit E _ _ _ w3 key c Hkey Hhit3 Hage).
  unfold bindP, lift, retP. rewrite liveAnswer_servedFromCache, Ha.
  subst w3. destruct (payload c). cbn [servedFromCache source raw].
  rewrite Hc, Ht, <- !app_assoc. done.
Qed.

(** ** The cache key *)

Lemma lowerTrim_closed x :
  stringOrAbsent x -> lowerTrim x = Normal (normalizeField (fieldText x)).
Proof.
  unfold lowerTrim, orElse, normalizeField.
  intros [Hx | [s ->]].
  - rewrite Hx. destruct x as [| | | | [| c s] | |]; done.
  - by destruct s.
Qed.

Lemma lowerTrim_throws x :
  ~ stringOrAbsent x -> exists msg, lowerTrim x = Throw (TypeError msg).
Proof.
  unfold lowerTrim, orElse, stringOrAbsent. intros H.
  destruct (truthy x) eqn:Hx; [| exfalso; auto].
  destruct x; try (by eexists). exfalso. apply H. right. by eexists.
Qed.

Lemma stringOrAbsent_dec x : stringOrAbsent x \/ ~ stringOrAbsent x.
Proof.
  unfold stringOrAbsent. destruct x as [| | b | n | s | xs | ps]; cbn [truthy];
    try (by left; left); try (by left; right; eexists).
  - destruct b; [right; by intros [? | [? ?]] | by left; left].
  - destruct (negb (isZero n || isNaN n)); [right; by intros [? | [? ?]] | by left; left].
  - right. by intros [? | [? ?]].
  - right. by intros [? | [? ?]].
Qed.

(** X7.  The cache key in closed form: when each of brand, model and
    reference is a string or absent, the key is the three fields, each
    put through [toLowerCase] and then trimmed, joined by pipes, an
    absent field counting as the empty string; when one of them is any
    other value (a number, [true], an array, an object) the call throws
    a TypeError. *)
Theorem makeCacheKey_closed_form (b m r : jsval) :
  (stringOrAbsent b /\ stringOrAbsent m /\ stringOrAbsent r ->
   makeCacheKey b m r
   = Normal (normalizeField (fieldText b) ++ str "|" ++ normalizeField (fieldText m)
               ++ str "|" ++ normalizeField (fieldText r)))
  /\
  (~ (stringOrAbsent b /\ stringOrAbsent m /\ stringOrAbsent r) ->
   exists msg, makeCacheKey b m r = Throw (TypeError msg)).
Proof.
  unfold makeCacheKey. split.
  - intros (Hb & Hm & Hr).
    by rewrite (lowerTrim_closed b Hb), (lowerTrim_closed m Hm), (lowerTrim_closed r Hr).
  - intros H.
    destruct (stringOrAbsent_dec b) as [Hb | Hb];
      [| destruct (lowerTrim_throws b Hb) as [msg ->]; by eexists].
    rewrite (lowerTrim_closed b Hb). cbn [bindC].
    destruct (stringOrAbsent_dec m) as [Hm | Hm];
      [| destruct (lowerTrim_throws m Hm) as [msg ->]; by eexists].
    rewrite (lowerTrim_closed m Hm). cbn [bindC].
    destruct (stringOrAbsent_dec r) as [Hr | Hr];
      [| destruct (lowerTrim_throws r Hr) as [msg ->]; by eexists].
    exfalso. auto.
Qed.

Lemma dropWhile_idem p s : dropWhile p (dropWhile p s) = dropWhile p s.
Proof.
  induction s as [| c s IH]; [done |]. simpl.
  destruct (p c) eqn:Hc; [done |]. simpl. by rewrite Hc.
Qed.

Lemma dropWhile_head p s c r : dropWhile p s = c :: r -> p c = false.
Proof.
  induction s as [| d s IH]; [done |]. simpl.
  destruct (p d) eqn:Hd; [done |]. by intros [= <- <-].
Qed.

(** A trimmed string starts and ends with no white space. *)
Lemma trimStart_trimEnd s : trimStart (trimEnd (trimStart s)) = trimEnd (trimStart s).
Proof.
  unfold trimEnd, trimStart.
  destruct (dropWhile isSpace s) as [| c r] eqn:Hs; [done |].
  pose proof (dropWhile_head _ _ _ _ Hs) as Hc.
  destruct (rev (dropWhile isSpace (rev (c :: r)))) as [| d t] eqn:Ht; [done |].
  assert (Hd : d = c).
  { pose proof (takeWhile_dropWhile isSpace (rev (c :: r))) as Hsplit.
    apply (f_equal (@rev N)) in Hsplit.
    rewrite rev_involutive, rev_app_distr, Ht in Hsplit.
    by injection Hsplit as ->. }
  subst d. simpl. by rewrite Hc.
Qed.

Lemma trim_idem s : trim (trim s) = trim s.
Proof.
  unfold trim. rewrite (trimStart_trimEnd s).
  unfold trimEnd. by rewrite rev_involutive, dropWhile_idem.
Qed.

Lemma normalizeField_idem s : normalizeField (normalizeField s) = normalizeField s.
Proof.
  unfold normalizeField.
  by rewrite toLowerCase_trim, toLowerCase_twice, trim_idem.
Qed.

Lemma dropWhile_Forall (P : N -> Prop) p s : Forall P s -> Forall P (dropWhile p s).
Proof.
  induction 1 as [| c s Hc Hs IH]; simpl; [constructor |].
  destruct (p c); [done | by constructor].
Qed.

Lemma trim_Forall (P : N -> Prop) s : Forall P s -> Forall P (trim s).
Proof.
  intros H. unfold trim, trimEnd, trimStart.
  apply List.Forall_rev, dropWhile_Forall, List.Forall_rev. by apply dropWhile_Forall.
Qed.

Lemma normalizeField_lower s : Forall (fun c => isUpper c = false) (normalizeField s).
Proof.
  unfold normalizeField. apply trim_Forall. apply toLowerCase_lower.
Qed.

Lemma lowerTrim_normalized x s :
  lowerTrim x = Normal s ->
  s = normalizeField (fieldText x) /\ lowerTrim (Str s) = Normal s.
Proof.
  intros H. destruct (lowerTrim_normal x s H) as [Hx | [t ->]].
  - rewrite (lowerTrim_closed x (or_introl Hx)) in H. injection H as <-.
    split; [done |]. rewrite (lowerTrim_closed (Str _)) by (right; by eexists).
    cbn [fieldText]. by rewrite normalizeField_idem.
  - rewrite (lowerTrim_closed (Str t)) in H by (right; by eexists). injection H as <-.
    split; [done |]. rewrite (lowerTrim_closed (Str _)) by (right; by eexists).
    cbn [fieldText]. by rewrite normalizeField_idem.
Qed.

(** X8.  A key is in normal form: it has no upper-case letter, and it
    is the key of its own three fields, so normalising twice changes
    nothing. *)
Theorem makeCacheKey_normal_form (b m r : jsval) (key : jsstring) :
  makeCacheKey b m r = Normal key ->
  Forall (fun c => isUpper c = false) key /\
  exists kb km kr,
    key = kb ++ str "|" ++ km ++ str "|" ++ kr /\
    makeCacheKey (Str kb) (Str km) (Str kr) = Normal key.
Proof.
  unfold makeCacheKey.
  destruct (lowerTrim b) as [kb |] eqn:Hb; [| done]. cbn [bindC].
  destruct (lowerTrim m) as [km |] eqn:Hm; [| done]. cbn [bindC].
  destruct (lowerTrim r) as [kr |] eqn:Hr; [| done]. cbn [bindC].
  intros [= <-].
  apply lowerTrim_normalized in Hb as [Eb Hb], Hm as [Em Hm], Hr as [Er Hr].
  split.
  - rewrite Eb, Em, Er.
    change (str "|") with [124]. simpl.
    apply List.Forall_app; split; [apply normalizeField_lower |].
    constructor; [done |].
    apply List.Forall_app; split; [apply normalizeField_lower |].
    constructor; [done |]. apply normalizeField_lower.
  - exists kb, km, kr. split; [done |]. by rewrite Hb, Hm, Hr.
Qed.

Lemma split_at_pipe x y x' y' :
  pipeFree x -> pipeFree x' -> x ++ 124 :: y = x' ++ 124 :: y' -> x = x' /\ y = y'.
Proof.
  intros Hx. revert x'. induction Hx as [| c x Hc Hx IH]; intros x' Hx' Heq.
  - destruct x' as [| c' x']; simpl in Heq.
    + by injection Heq as <-.
    + injection Heq as <- _. by apply Forall_cons in Hx' as [? _].
  - destruct x' as [| c' x']; simpl in Heq.
    + by injection Heq as ->.
    + injection Heq as <- Heq. apply Forall_cons in Hx' as [_ Hx'].
      destruct (IH x' Hx' Heq) as [-> ->]. done.
Qed.

Lemma pipeFree_normalizeField s : pipeFree s -> pipeFree (normalizeField s).
Proof.
  intros H. unfold normalizeField, pipeFree. apply trim_Forall.
  by apply toLowerCase_pipe.
Qed.

(** X9.  Keys separate tuples whose brand and model hold no pipe: two
    such tuples with the same key have the same normalised brand, model
    and reference.  A pipe inside a field does let different tuples share
    a key, as ("a|b", "c") and ("a", "b|c") do. *)
Theorem makeCacheKey_injective (b m r b' m' r' : jsstring) :
  (pipeFree b -> pipeFree m -> pipeFree b' -> pipeFree m' ->
   makeCacheKey (Str b) (Str m) (Str r) = makeCacheKey (Str b') (Str m') (Str r') ->
   normalizeField b = normalizeField b' /\
   normalizeField m = normalizeField m' /\
   normalizeField r = normalizeField r')
  /\
  makeCacheKey (Str (str "a|b")) (Str (str "c")) (Str r)
  = makeCacheKey (Str (str "a")) (Str (str "b|c")) (Str r).
Proof.
  assert (E : forall x y z : jsstring,
             makeCacheKey (Str x) (Str y) (Str z)
             = Normal (normalizeField x ++ 124 :: normalizeField y
                         ++ 124 :: normalizeField z)).
  { intros x y z. unfold makeCacheKey.
    by rewrite !(lowerTrim_closed (Str _)) by (right; by eexists). }
  split.
  - intros Hb Hm Hb' Hm'. rewrite !E. intros [= Heq].
    apply pipeFree_normalizeField in Hb, Hm, Hb', Hm'.
    apply split_at_pipe in Heq as [Eb Heq]; [| done | done].
    apply split_at_pipe in Heq as [Em Er]; done.
  - rewrite !E. unfold normalizeField.
    rewrite (toLowerCase_ascii (str "a|b")), (toLowerCase_ascii (str "c")),
      (toLowerCase_ascii (str "a")), (toLowerCase_ascii (str "b|c")) by asciiUnits.
    reflexivity.
Qed.

(** ** The resolver: errors, effects, invariants *)

Lemma callExaSearch_trace E query w res w' :
  callExaSearch E query w = (res, w') ->
  (truthy (EXA_API_KEY E) = false /\ w' = w /\ exists e, res = Throw e) \/
  (truthy (EXA_API_KEY E) = true /\ trace w' = trace w ++ [Fetched (ExaSearch query)]).
Proof.
  intros Hcall. destruct (truthy (EXA_API_KEY E)) eqn:Hk.
  - right. split; [done |]. by apply (callExaSearch_any _ _ _ _ _ Hcall).
  - left. split; [done |]. unfold callExaSearch, throw in Hcall. rewrite Hk in Hcall.
    cbn [negb] in Hcall. injection Hcall as <- <-. split; [done | by eexists].
Qed.

(** X10.  The resolver throws only for a malformed tuple: when brand,
    model and reference are strings or absent it returns (a price or
    none) whatever the provider does; when one of them is another value
    it throws a TypeError before the cache is read or anything is sent,
    leaving the world as it was. *)
Theorem getLivePriceNoUrl_throws_only_on_key (E : env) (b m r : jsval) (w : world) :
  (stringOrAbsent b /\ stringOrAbsent m /\ stringOrAbsent r ->
   exists res w', getLivePriceNoUrl E b m r w = (Normal res, w'))
  /\
  (~ (stringOrAbsent b /\ stringOrAbsent m /\ stringOrAbsent r) ->
   exists msg, getLivePriceNoUrl E b m r w = (Throw (TypeError msg), w)).
Proof.
  split.
  - intros (Hb & Hm & Hr).
    assert (Hkey : exists key, makeCacheKey b m r = Normal key).
    { unfold makeCacheKey.
      rewrite (lowerTrim_closed b Hb), (lowerTrim_closed m Hm), (lowerTrim_closed r Hr).
      by eexists. }
    destruct Hkey as [key Hkey].
    destruct (freshEntry (Date_now E) (cache w !! key)) as [c |] eqn:Hfresh.
    + unfold getLivePriceNoUrl, bindP, lift, cacheGet, retP. rewrite Hkey, Hfresh.
      by eexists _, _.
    + destruct (buildQuery_normal b m r key Hkey) as [query Hq].
      rewrite (getLivePriceNoUrl_miss E b m r w key query Hkey Hfresh Hq).
      destruct (callExaSearch E query w) as [[data | e] w1]; [| by eexists _, _].
      destruct (extractCandidateFromExaResponse data) as [[c |] | e]; by eexists _, _.
  - intros H.
    assert (Hkey : exists msg, makeCacheKey b m r = Throw (TypeError msg)).
    { unfold makeCacheKey.
      destruct (stringOrAbsent_dec b) as [Hb | Hb];
        [| destruct (lowerTrim_throws b Hb) as [msg ->]; by eexists].
      rewrite (lowerTrim_closed b Hb). cbn [bindC].
      destruct (stringOrAbsent_dec m) as [Hm | Hm];
        [| destruct (lowerTrim_throws m Hm) as [msg ->]; by eexists].
      rewrite (lowerTrim_closed m Hm). cbn [bindC].
      destruct (stringOrAbsent_dec r) as [Hr | Hr];
        [| destruct (lowerTrim_throws r Hr) as [msg ->]; by eexists].
      exfalso. auto. }
    destruct Hkey as [msg Hkey]. exists msg.
    unfold getLivePriceNoUrl, bindP, lift. by rewrite Hkey.
Qed.

(** X11.  One resolution touches at most its own key and sends at most
    one request: every other key of the cache reads as before, no entry
    is ever removed, and the requests sent are none or the one search
    for the query (no retry). *)
Theorem getLivePriceNoUrl_frame
  (E : env) (b m r : jsval) (w w' : world) (res : completion (option price)) :
  getLivePriceNoUrl E b m r w = (res, w') ->
  (forall k, makeCacheKey b m r <> Normal k -> cache w' !! k = cache w !! k) /\
  (forall k, is_Some (cache w !! k) -> is_Some (cache w' !! k)) /\
  (trace w' = trace w \/
   exists query, buildQuery b m r = Normal query /\
     trace w' = trace w ++ [Fetched (ExaSearch query)]).
Proof.
  intros Hrun. split; [| split].
  - intros k Hk.
    destruct (getLivePriceNoUrl_writes _ _ _ _ _ _ _ Hrun)
      as [-> | (key & ? & ? & ? & Hkey & ? & ? & ? & ? & ->)]; [done |].
    apply lookup_insert_ne. intros Heq. apply Hk. by rewrite <- Heq.
  - intros k Hsome.
    destruct (getLivePriceNoUrl_writes _ _ _ _ _ _ _ Hrun)
      as [-> | (key & ? & ? & ? & Hkey & ? & ? & ? & ? & ->)]; [done |].
    destruct (decide (key = k)) as [-> | Hne].
    + rewrite lookup_insert_eq. by eexists.
    + by rewrite lookup_insert_ne.
  - destruct (makeCacheKey b m r) as [key | e] eqn:Hkey.
    + destruct (freshEntry (Date_now E) (cache w !! key)) as [c |] eqn:Hfresh.
      * unfold getLivePriceNoUrl, bindP, lift, cacheGet, retP in Hrun.
        rewrite Hkey, Hfresh in Hrun. injection Hrun as <- <-. by left.
      * destruct (buildQuery_normal b m r key Hkey) as [query Hq].
        rewrite (getLivePriceNoUrl_miss E b m r w key query Hkey Hfresh Hq) in Hrun.
        destruct (callExaSearch E query w) as [res1 w1] eqn:Hcall.
        assert (Htr : trace w' = trace w1).
        { destruct res1 as [data | e]; [| by injection Hrun as <- <-].
          destruct (extractCandidateFromExaResponse data) as [[c |] | e];
            by injection Hrun as <- <-. }
        rewrite Htr.
        destruct (callExaSearch_trace _ _ _ _ _ Hcall) as [(_ & -> & _) | [_ Ht]];
          [by left | right; by exists query].
    + unfold getLivePriceNoUrl, bindP, lift in Hrun. rewrite Hkey in Hrun.
      injection Hrun as <- <-. by left.
Qed.

Lemma orElse_nullOrTruthy x : nullOrTruthy (x ||| Null).
Proof. unfold nullOrTruthy, orElse. destruct (truthy x) eqn:Hx; auto. Qed.

Lemma orElse_truthy x d : truthy x = true -> x ||| d = x.
Proof. unfold orElse. by intros ->. Qed.

Lemma orElse_default_truthy x d : truthy d = true -> truthy (x ||| d) = true.
Proof. unfold orElse. intros Hd. by destruct (truthy x) eqn:Hx. Qed.

Lemma candidateOfPrice_evidence p src :
  structuredPrice p -> hasEvidence (candidateOfPrice p (src ||| Null)).
Proof.
  intros [_ Hev]. unfold hasEvidence, candidateOfPrice. cbn [value raw source ts cached].
  split; [| split; [apply orElse_nullOrTruthy | done]].
  destruct Hev as [Hv | Hr]; [left | right]; by rewrite orElse_truthy.
Qed.

Lemma priceRegExpExec_nonempty s m : priceRegExpExec s = Some m -> m0 m <> [].
Proof.
  intros H. apply priceRegExpExec_some in H as (pre & s' & _ & Hm & _).
  apply matchAt_some in Hm as (ws & rest & _ & Heq0 & _ & _ & [_ Hlen]).
  intros Heq. rewrite Heq in Heq0. symmetry in Heq0.
  apply (f_equal (@length N)) in Heq0. rewrite !length_app in Heq0.
  simpl in Heq0. lia.
Qed.

Lemma parsePriceFromText_evidence v c src :
  parsePriceFromText v = Normal (Some c) -> hasEvidence (withSource c (src ||| Null)).
Proof.
  unfold parsePriceFromText. destruct (truthy v); cbn [negb]; [| done].
  destruct v as [| | | | t | |]; try done.
  destruct (priceRegExpExec t) as [m |] eqn:He; [| done].
  pose proof (priceRegExpExec_nonempty t m He) as Hne.
  assert (Hraw : truthy (Str (m0 m)) = true) by (by destruct (m0 m)).
  destruct (isNaN _); intros [= <-]; unfold hasEvidence;
    cbn [withSource value raw source ts cached];
    (split; [by right | split; [apply orElse_nullOrTruthy | done]]).
Qed.

Lemma scanResults_evidence rs c :
  scanResults rs = Normal (Some c) -> hasEvidence c.
Proof.
  induction rs as [| r rest IH]; [done |]. cbn [scanResults].
  destruct (Get r "price") as [p |] eqn:Hp; [| done]. cbn [bindC].
  destruct (hasPrice_spec p) as (sp & -> & Hsp). cbn [bindC].
  destruct sp.
  - destruct (Get r "url") as [url |]; [| done]. cbn [bindC].
    destruct (Get r "source") as [src |]; [| done]. cbn [bindC].
    assert (Hs : structuredPrice p) by by apply Hsp.
    destruct Hs as [Ht Hev]. rewrite (priceOfField_spec p _ Ht). cbn [bindC].
    intros [= <-]. by apply candidateOfPrice_evidence.
  - destruct (Get r "title") as [title |]; [| done]. cbn [bindC].
    destruct (Get r "snippet") as [snippet |]; [| done]. cbn [bindC].
    destruct (Get r "summary") as [summary |]; [| done]. cbn [bindC].
    destruct (joinValues _ _) as [text |]; [| done]. cbn [bindC].
    destruct (parsePriceFromText (Str text)) as [[c0 |] |] eqn:Hparse; [| | done];
      cbn [bindC]; [| apply IH].
    destruct (Get r "url") as [url |]; [| done]. cbn [bindC].
    destruct (Get r "source") as [src |]; [| done]. cbn [bindC].
    intros [= <-]. by apply (parsePriceFromText_evidence (Str text)).
Qed.

Lemma extractCandidate_evidence_of data c :
  extractCandidateFromExaResponse data = Normal (Some c) -> hasEvidence c.
Proof.
  unfold extractCandidateFromExaResponse.
  destruct (truthy data); cbn [negb]; [| done].
  destruct (Get data "price") as [p |]; [| done]. cbn [bindC].
  destruct (hasPrice_spec p) as (sp & -> & Hsp). cbn [bindC].
  destruct sp.
  - destruct (Get data "source") as [src |]; [| done]. cbn [bindC].
    assert (Hs : structuredPrice p) by by apply Hsp.
    destruct Hs as [Ht Hev]. rewrite (priceOfField_spec p _ Ht). cbn [bindC].
    intros [= <-]. by apply candidateOfPrice_evidence.
  - destruct (Get data "results") as [results |]; [| done]. cbn [bindC].
    destruct (match results with Arr (r :: rest) => scanResults (r :: rest) | _ => Normal None end)
      as [[c0 |] |] eqn:Hscan; [| | done]; cbn [bindC].
    + intros [= <-].
      destruct results as [| | | | | [| r rest] |]; try done.
      by apply (scanResults_evidence (r :: rest)).
    + destruct (Get data "text") as [txt |]; [| done]. cbn [bindC].
      destruct (truthy txt); [| done].
      destruct (parsePriceFromText txt) as [[c0 |] |] eqn:Hparse; [| done | done].
      cbn [bindC].
      destruct (Get data "source") as [src |]; [| done]. cbn [bindC].
      intros [= <-]. by apply (parsePriceFromText_evidence txt).
Qed.

(** X12.  Every candidate extracted from a provider response carries
    evidence: a truthy value or a truthy raw text; its source is truthy
    or [null]; and it has no timestamp and no served-from-cache marker
    yet. *)
Theorem extractCandidate_evidence (data : jsval) (c : price) :
  extractCandidateFromExaResponse data = Normal (Some c) ->
  (truthy (value c) = true \/ truthy (raw c) = true) /\
  nullOrTruthy (source c) /\ ts c = Undefined /\ cached c = Undefined.
Proof.
  change (extractCandidateFromExaResponse data = Normal (Some c) -> hasEvidence c).
  unfold extractCandidateFromExaResponse.
  destruct (truthy data); cbn [negb]; [| done].
  destruct (Get data "price") as [p |]; [| done]. cbn [bindC].
  destruct (hasPrice_spec p) as (sp & -> & Hsp). cbn [bindC].
  destruct sp.
  - destruct (Get data "source") as [src |]; [| done]. cbn [bindC].
    assert (Hs : structuredPrice p) by by apply Hsp.
    destruct Hs as [Ht Hev]. rewrite (priceOfField_spec p _ Ht). cbn [bindC].
    intros [= <-]. by apply candidateOfPrice_evidence.
  - destruct (Get data "results") as [results |]; [| done]. cbn [bindC].
    destruct (match results with Arr (r :: rest) => scanResults (r :: rest) | _ => Normal None end)
      as [[c0 |] |] eqn:Hscan; [| | done]; cbn [bindC].
    + intros [= <-].
      destruct results as [| | | | | [| r rest] |]; try done.
      by apply (scanResults_evidence (r :: rest)).
    + destruct (Get data "text") as [txt |]; [| done]. cbn [bindC].
      destruct (truthy txt); [| done].
      destruct (parsePriceFromText txt) as [[c0 |] |] eqn:Hparse; [| done | done].
      cbn [bindC].
      destruct (Get data "source") as [src |]; [| done]. cbn [bindC].
      intros [= <-]. by apply (parsePriceFromText_evidence txt).
Qed.

Lemma resolved_wellStamped c iso :
  hasEvidence c -> wellStamped (resolved c iso) /\ cached (resolved c iso) = Undefined.
Proof.
  intros (Hev & _ & _ & _). split; [| done].
  unfold wellStamped, resolved. cbn [value currency raw source ts].
  split; [by apply orElse_default_truthy |].
  repeat (split; [apply orElse_nullOrTruthy |]).
  split; [| by exists iso].
  destruct Hev as [Hv | Hr]; [left | right]; by rewrite orElse_truthy.
Qed.

Lemma freshEntry_some now cached e :
  freshEntry now cached = Some e ->
  cached = Some e /\ (now - timestamp e < CACHE_TTL_MS)%Z.
Proof.
  unfold freshEntry. destruct cached as [c |]; [| done].
  destruct (now - timestamp c <? CACHE_TTL_MS)%Z eqn:H; [| done].
  intros [= <-]. split; [done |]. by apply Z.ltb_lt.
Qed.

(** What the resolver returns when it returns a record: a fresh stored
    one with the marker, or the one resolved from a candidate of the
    provider's response. *)
Lemma getLivePriceNoUrl_result E b m r w out w' :
  getLivePriceNoUrl E b m r w = (Normal (Some out), w') ->
  (exists key e, makeCacheKey b m r = Normal key /\ cache w !! key = Some e /\
     (Date_now E - timestamp e < CACHE_TTL_MS)%Z /\
     out = servedFromCache (payload e) /\ w' = w) \/
  (exists query data c, extractCandidateFromExaResponse data = Normal (Some c) /\
     out = resolved c (toISOString E) /\
     trace w' = trace w ++ [Fetched (ExaSearch query)]).
Proof.
  destruct (makeCacheKey b m r) as [key | e] eqn:Hkey.
  - destruct (freshEntry (Date_now E) (cache w !! key)) as [c |] eqn:Hfresh.
    + unfold getLivePriceNoUrl, bindP, lift, cacheGet, retP. rewrite Hkey, Hfresh.
      intros [= <- <-]. left. exists key, c.
      apply freshEntry_some in Hfresh as [Hc Hage]. done.
    + destruct (buildQuery_normal b m r key Hkey) as [query Hq].
      rewrite (getLivePriceNoUrl_miss E b m r w key query Hkey Hfresh Hq).
      destruct (callExaSearch E query w) as [[data | e] w1] eqn:Hcall; [| done].
      destruct (callExaSearch_any _ _ _ _ _ Hcall) as (_ & Htr & Hret).
      destruct (Hret data eq_refl) as [Hk _].
      destruct (extractCandidateFromExaResponse data) as [[c |] | e] eqn:Hex;
        intros [= <- <-].
      right. exists query, data, c. cbn [trace]. by rewrite (Htr Hk).
  - unfold getLivePriceNoUrl, bindP, lift. rewrite Hkey. done.
Qed.

(** X13.  The resolver keeps the cache well stamped: when every stored
    record has a truthy source, a value or a raw text, an instant, and no
    served-from-cache marker, so has every record stored after a call,
    and the record the call returns is well stamped too.  A returned
    record carries the marker [true] when it was served from the cache,
    with nothing sent; otherwise it carries none and one search request
    was sent. *)
Theorem getLivePriceNoUrl_wellStamped (E : env) (brand model reference_number : jsval)
    (w w' : world) (res : completion (option price)) :
  cacheWellStamped (cache w) ->
  getLivePriceNoUrl E brand model reference_number w = (res, w') ->
  cacheWellStamped (cache w') /\
  forall out, res = Normal (Some out) ->
    wellStamped out /\
    (cached out = Bool true /\ w' = w \/
     cached out = Undefined /\
     exists query, trace w' = trace w ++ [Fetched (ExaSearch query)]).
Proof.
  intros Hinv Hrun. split.
  - destruct (getLivePriceNoUrl_writes _ _ _ _ _ _ _ Hrun)
      as [-> | (key & ? & data & c & ? & ? & ? & Hex & ? & ->)]; [done |].
    intros k e. destruct (decide (k = key)) as [-> | Hne].
    + rewrite lookup_insert_eq. intros [= <-]. cbn [payload].
      apply resolved_wellStamped. by apply (extractCandidate_evidence_of data).
    + rewrite lookup_insert_ne by done. apply Hinv.
  - intros out ->.
    destruct (getLivePriceNoUrl_result _ _ _ _ _ _ _ Hrun)
      as [(key & e & ? & He & ? & -> & ->) | (query & data & c & Hex & -> & Htr)].
    + split; [| by left]. by destruct (Hinv key e He) as [Hw _].
    + destruct (resolved_wellStamped c (toISOString E)
                  (extractCandidate_evidence_of data c Hex)) as [Hw Hc].
      split; [done |]. right. split; [done |]. by exists query.
Qed.

(** X14.  Without a key for the search provider the resolver contacts
    nobody and stores nothing: the world after the call is the world
    before it, and a record it returns can only come from the cache. *)
Theorem getLivePriceNoUrl_without_key (E : env) (b m r : jsval) (w w' : world)
    (res : completion (option price)) :
  truthy (EXA_API_KEY E) = false ->
  getLivePriceNoUrl E b m r w = (res, w') ->
  w' = w /\
  forall out, res = Normal (Some out) ->
    exists key e, makeCacheKey b m r = Normal key /\ cache w !! key = Some e /\
      out = servedFromCache (payload e).
Proof.
  intros Hk Hrun.
  destruct (makeCacheKey b m r) as [key | e] eqn:Hkey.
  - destruct (freshEntry (Date_now E) (cache w !! key)) as [c |] eqn:Hfresh.
    + unfold getLivePriceNoUrl, bindP, lift, cacheGet, retP in Hrun.
      rewrite Hkey, Hfresh in Hrun. injection Hrun as <- <-.
      split; [done |]. intros out [= <-]. exists key, c.
      by apply freshEntry_some in Hfresh as [-> _].
    + destruct (buildQuery_normal b m r key Hkey) as [query Hq].
      rewrite (getLivePriceNoUrl_miss E b m r w key query Hkey Hfresh Hq) in Hrun.
      destruct (callExaSearch E query w) as [res1 w1] eqn:Hcall.
      destruct (callExaSearch_trace _ _ _ _ _ Hcall) as [(_ & -> & e & ->) | [Hk' _]];
        [| congruence].
      injection Hrun as <- <-. done.
  - unfold getLivePriceNoUrl, bindP, lift in Hrun. rewrite Hkey in Hrun.
    injection Hrun as <- <-. done.
Qed.

(** ** The price text parser, from its result *)

(** X15.  Soundness of the parser: a candidate it returns for a text is
    read off an occurrence of the pattern in that text, the leftmost
    one.  Its raw text is the occurrence as written (marker, gap,
    token), its currency the marker as written, its value the token
    read as a number or absent when the token is no number, never NaN;
    it names no source. *)
Theorem parsePriceFromText_sound (text : jsstring) (c : price) :
  parsePriceFromText (Str text) = Normal (Some c) ->
  exists pre cur ws num post,
    patternAt text pre cur ws num post /\
    (forall pre' cur' ws' num' post',
        patternAt text pre' cur' ws' num' post' -> (length pre <= length pre')%nat) /\
    c = Price (if isNaN (tokenValue num) then Undefined else Num (tokenValue num))
          (Str cur) (Str (cur ++ ws ++ num)) Undefined Undefined Undefined /\
    (forall x, value c = Num x -> isNaN x = false).
Proof.
  intros H. destruct (priceRegExpExec text) as [m |] eqn:He;
    [| by rewrite (parsePriceFromText_nomatch text He) in H].
  rewrite (parsePriceFromText_match text m He) in H. injection H as <-.
  apply priceRegExpExec_some in He as (pre & s' & -> & Hm & Hleft).
  apply matchAt_some in Hm as Hshape.
  destruct Hshape as (ws & rest & -> & H0 & Hcur & Hws & Htok).
  exists pre, (m1 m), ws, (m2 m), rest.
  split; [| split; [| split]].
  - split; [| done]. rewrite H0. by rewrite <- !app_assoc.
  - intros pre' cur' ws' num' post' (Heq & Hcur' & Hws' & Htok').
    destruct (le_lt_dec (length pre) (length pre')) as [Hle | Hlt]; [done |].
    pose proof (Hleft pre' _ Heq Hlt) as Hnone.
    destruct (matchAt_found cur' ws' num' post' Hcur' Hws' Htok') as [m' Hm'].
    congruence.
  - by rewrite H0.
  - cbn [value]. destruct (isNaN (tokenValue (m2 m))) eqn:Hn; [done |].
    by intros x [= <-].
Qed.

(** ** The intent classifier *)

Lemma sameLetter_canonicalize a b : sameLetter a b -> canonicalize a = canonicalize b.
Proof.
  assert (P : forall c, isUpper c = true -> canonicalize (c + 32) = canonicalize c).
  { intros c Hc. unfold canonicalize, upperUnit.
    unfold isUpper in Hc. apply andb_prop in Hc as [H1 H2]. apply N.leb_le in H1, H2.
    assert (Hl : isLower (c + 32) = true).
    { unfold isLower. apply andb_true_intro. split; apply N.leb_le; lia. }
    assert (Hn : isLower c = false).
    { unfold isLower. apply andb_false_iff. left. apply N.leb_gt. lia. }
    rewrite Hl, Hn. lia. }
  intros [-> | [[Ha ->] | [Hb ->]]]; [done | |].
  - by rewrite (P a Ha).
  - by rewrite (P b Hb).
Qed.

Lemma matchLiteral_same pat s t :
  Forall2 sameLetter s t ->
  is_Some (matchLiteral pat s) <-> is_Some (matchLiteral pat t).
Proof.
  revert s t. induction pat as [| p pat IH]; intros s t Hst; simpl.
  - split; intros _; by eexists.
  - destruct Hst as [| c d s t Hcd Hst]; [done |].
    rewrite (sameLetter_canonicalize c d Hcd).
    destruct (canonicalize p =? canonicalize d); [| done].
    destruct (IH s t Hst) as [H1 H2].
    destruct (matchLiteral pat s) as [[? ?] |] eqn:Ha,
             (matchLiteral pat t) as [[? ?] |] eqn:Hb.
    + split; intros _; by eexists.
    + destruct H1 as [? ?]; [by eexists | done].
    + destruct H2 as [? ?]; [by eexists | done].
    + done.
Qed.

Lemma anyLiteralAt_same alts s t :
  Forall2 sameLetter s t -> anyLiteralAt alts t = anyLiteralAt alts s.
Proof.
  intros Hst. unfold anyLiteralAt. induction alts as [| pat alts IH]; [done |].
  simpl. rewrite IH. f_equal.
  destruct (matchLiteral_same pat s t Hst) as [H1 H2].
  destruct (matchLiteral pat t) as [? |], (matchLiteral pat s) as [? |]; try done.
  - destruct H2 as [? ?]; [by eexists | done].
  - destruct H1 as [? ?]; [by eexists | done].
Qed.

Lemma regExpTest_same alts s t :
  Forall2 sameLetter s t -> regExpTest alts t = regExpTest alts s.
Proof.
  induction 1 as [| c d s t Hcd Hst IH]; [done |].
  cbn [regExpTest]. rewrite IH.
  by rewrite (anyLiteralAt_same alts (c :: s) (d :: t)) by by constructor.
Qed.

(** X16.  The intent classifier answers yes exactly when the question
    contains one of the terms, the letters A-Z compared without case; so
    a question with the case of some letters A-Z changed is classified
    as the question itself. *)
Theorem regExpTest_contains (terms : list jsstring) (q : jsstring) :
  (regExpTest terms q = true <-> containsTerm terms q) /\
  (forall q', Forall2 sameLetter q q' -> regExpTest terms q' = regExpTest terms q).
Proof.
  split.
  - split.
    + induction q as [| c q IH]; simpl.
      * rewrite orb_false_r. unfold anyLiteralAt. intros H.
        apply existsb_exists in H as (pat & Hin & Hm).
        destruct (matchLiteral pat []) as [[cur rest] |] eqn:Hl; [| done].
        apply matchLiteral_split in Hl as [Hs Hc].
        exists [], cur, rest, pat. done.
      * intros H. apply orb_prop in H as [H | H].
        -- unfold anyLiteralAt in H. apply existsb_exists in H as (pat & Hin & Hm).
           destruct (matchLiteral pat (c :: q)) as [[cur rest] |] eqn:Hl; [| done].
           apply matchLiteral_split in Hl as [Hs Hc].
           exists [], cur, rest, pat. done.
        -- destruct (IH H) as (pre & t & post & term & -> & Hin & Hc).
           by exists (c :: pre), t, post, term.
    + intros (pre & t & post & term & -> & Hin & Hc).
      induction pre as [| c pre IH]; simpl.
      * assert (Ha : anyLiteralAt terms (t ++ post) = true).
        { unfold anyLiteralAt. apply existsb_exists. exists term. split; [done |].
          by rewrite (matchLiteral_found term t post Hc). }
        destruct (t ++ post); simpl; by rewrite Ha.
      * rewrite IH. apply orb_true_r.
  - apply regExpTest_same.
Qed.

(** ** Retrieval *)

Lemma Get_normal v k : nullish v = false -> exists x, Get v k = Normal x.
Proof. intros H. exists (field v k). by apply Get_field. Qed.

Lemma GetIndex_normal v i : nullish v = false -> exists x, GetIndex v i = Normal x.
Proof. intros H. destruct v; try done; by eexists. Qed.

(** The optional read [j?.data?.[0]?.embedding] never throws, and when it
    finds something the plain read [j.data[0].embedding] finds the
    same. *)
Lemma embeddingOpt_embeddingOf j :
  exists e, embeddingOpt j = Normal e /\
    (truthy e = true -> embeddingOf j = Normal e).
Proof.
  unfold embeddingOpt, embeddingOf, GetOpt, GetIndexOpt.
  destruct (nullish j) eqn:Hj; cbn [bindC nullish]; [by exists Undefined |].
  destruct (Get_normal j "data" Hj) as [d ->]. cbn [bindC].
  destruct (nullish d) eqn:Hd; cbn [bindC nullish]; [by exists Undefined |].
  destruct (GetIndex_normal d 0 Hd) as [d0 ->]. cbn [bindC].
  destruct (nullish d0) eqn:Hd0; [by exists Undefined |].
  destruct (Get_normal d0 "embedding" Hd0) as [e He]. exists e. by rewrite He.
Qed.

(** X17.  The embedding call returns only a truthy embedding, the one at
    [data[0].embedding] of a successful JSON response.  It fails in four
    ways and no other: the request is rejected, the status is not a
    success (an Error with the status and the body text), the body is
    not JSON, or the document holds no embedding (an Error saying so);
    reading the embedding after the check never throws. *)
Theorem getEmbedding_outcome (E : env) (text : jsstring) (w : world) :
  match fst (getEmbedding E text w) with
  | Normal v =>
      truthy v = true /\
      exists resp j, fetch E (Embeddings text) = Normal resp /\ ok resp = true /\
        json resp = Normal j /\ embeddingOf j = Normal v
  | Throw e =>
      fetch E (Embeddings text) = Throw e \/
      exists resp, fetch E (Embeddings text) = Normal resp /\
        (ok resp = false /\
         e = Error (str "OpenAI embedding error: " ++ NumberToString (status resp)
                      ++ str " " ++ textOrEmpty resp) \/
         ok resp = true /\ json resp = Throw e \/
         ok resp = true /\ e = Error (str "OpenAI returned no embedding") /\
         exists j v, json resp = Normal j /\ embeddingOpt j = Normal v /\ truthy v = false)
  end.
Proof.
  unfold getEmbedding, doFetch, bindP, emit, lift, throw.
  destruct (fetch E (Embeddings text)) as [resp | e] eqn:Hf; cbn [fst]; [| by left].
  destruct (ok resp) eqn:Hok; cbn [negb fst].
  - destruct (json resp) as [j | e] eqn:Hj; cbn [fst].
    + destruct (embeddingOpt_embeddingOf j) as (v & Hv & Hstrict). rewrite Hv.
      destruct (truthy v) eqn:Ht; cbn [negb fst].
      * rewrite (Hstrict eq_refl). split; [done |]. exists resp, j. auto.
      * right. exists resp. split; [done |]. right. right.
        split; [done |]. split; [done |]. by exists j, v.
    + right. exists resp. split; [done |]. right. left. done.
  - right. exists resp. split; [done |]. by left.
Qed.

(** X18.  When the embedding provider answers with a status that is not
    a success, the handler answers 500 with the message
    "OpenAI embedding error: <status> <body text>"; the vector database
    and the search provider are not contacted and the cache is not
    touched. *)
Theorem POST_embedding_refused
  (E : env) (request : jsval) (question : jsstring) (resp : Response) (w : world) :
  questionOf request = Normal question ->
  trim question <> [] ->
  fetch E (Embeddings question) = Normal resp ->
  ok resp = false ->
  POST E (Normal request) w
  = (Normal (Json (ErrorBody (Str (str "OpenAI embedding error: "
                                     ++ NumberToString (status resp)
                                     ++ str " " ++ textOrEmpty resp))) 500),
     World (cache w) (trace w ++ [Fetched (Embeddings question)])).
Proof.
  intros Hq Hne Hf Hok.
  unfold POST, tryCatch, POST_try, bindP at 1 2 3, lift at 1 2.
  rewrite Hq, (trim_nonempty question Hne).
  unfold getEmbedding, doFetch, bindP, emit, lift, throw.
  rewrite Hf, Hok. cbn [negb]. unfold retP. do 3 f_equal.
Qed.

(** X19.  When the vector database answers with a status that is not a
    success, the handler answers 500 with the message
    "Pinecone query error: <status> <body text>", the body text being
    empty when it cannot be read; the search provider is not contacted
    and the cache is not touched. *)
Theorem POST_index_refused
  (E : env) (request : jsval) (question : jsstring) (emb : jsval) (resp : Response)
  (w w1 : world) :
  questionOf request = Normal question ->
  trim question <> [] ->
  getEmbedding E question w = (Normal emb, w1) ->
  fetch E (PineconeQuery emb 3) = Normal resp ->
  ok resp = false ->
  POST E (Normal request) w
  = (Normal (Json (ErrorBody (Str (str "Pinecone query error: "
                                     ++ NumberToString (status resp)
                                     ++ str " " ++ textOrEmpty resp))) 500),
     World (cache w)
       (trace w ++ [Fetched (Embeddings question); Fetched (PineconeQuery emb 3)])).
Proof.
  intros Hq Hne Hemb Hf Hok.
  destruct (getEmbedding_effect _ _ _ _ _ Hemb) as [Hc1 Ht1].
  unfold POST, tryCatch, POST_try, bindP at 1 2 3 4, lift at 1 2.
  rewrite Hq, (trim_nonempty question Hne), Hemb.
  unfold queryPineconeVector, doFetch, bindP, emit, lift, throw.
  rewrite Hf, Hok. cbn [negb cache trace]. unfold retP.
  rewrite Hc1, Ht1, <- app_assoc. do 3 f_equal.
Qed.

(** ** The catalogue record *)

Lemma orElse_cases x d : truthy (x ||| d) = true \/ x ||| d = d.
Proof. unfold orElse. destruct (truthy x) eqn:Hx; auto. Qed.

Lemma orElse_idem x d : (x ||| d) ||| d = x ||| d.
Proof.
  unfold orElse. destruct (truthy x) eqn:Hx; [by rewrite Hx |].
  by destruct (truthy d).
Qed.

Lemma extractTopMetadata_fields pc meta :
  extractTopMetadata pc = Normal (Some meta) ->
  exists top_id md_id top_score b m r d c mv cal,
    meta = Meta (top_id ||| md_id ||| Null) (top_score ??? Null)
             (b ||| Str []) (m ||| Str []) (r ||| Str []) (d ||| Str [])
             (c ||| Str []) (mv ||| Str []) (cal ||| Str []).
Proof.
  unfold extractTopMetadata.
  destruct (matchesOf pc) as [matches | e]; [| done]. cbn [bindC].
  destruct (truthy matches); [| done]. cbn [negb].
  destruct (Get matches "length") as [len | e]; [| done]. cbn [bindC].
  destruct (truthy len); [| done]. cbn [negb].
  destruct (GetIndex matches 0) as [top | e]; [| done]. cbn [bindC].
  destruct (Get top "metadata") as [md | e]; [| done]. cbn [bindC].
  repeat (match goal with
          | |- context [bindC (Get ?v ?k) _] =>
              destruct (Get v k) as [? | ?]; [| done]; cbn [bindC]
          end).
  intros [= <-]. by eexists _, _, _, _, _, _, _, _, _, _.
Qed.

(** X20.  The record of the top match has a stable shape: its id is
    truthy or [null], its score is never [undefined], and each of brand,
    model name, reference, description, category, movement and caliber is
    truthy or the empty string.  So the defaults the handler applies
    again to brand, model name and reference change nothing. *)
Theorem extractTopMetadata_stable_shape (pineconeResponse : jsval) (meta : CatalogMatch) :
  extractTopMetadata pineconeResponse = Normal (Some meta) ->
  nullOrTruthy (id meta) /\
  score meta <> Undefined /\
  Forall (fun x => truthy x = true \/ x = Str [])
    [brand meta; model_name meta; reference_number meta; description meta;
     category meta; movement meta; caliber meta] /\
  brand meta ||| Str [] = brand meta /\
  model_name meta ||| Str [] = model_name meta /\
  reference_number meta ||| Str [] = reference_number meta.
Proof.
  intros H.
  apply extractTopMetadata_fields in H
    as (top_id & md_id & top_score & b & m & r & d & c & mv & cal & ->).
  cbn [id score brand model_name reference_number description category movement caliber].
  split; [apply orElse_nullOrTruthy |].
  split; [unfold coalesce; by destruct top_score |].
  split; [repeat (constructor; [apply orElse_cases |]); constructor |].
  by rewrite !orElse_idem.
Qed.

(** ** The length of a list of matches, as a Number *)

Lemma digits2_pos_iter p k :
  digits2_pos (Pos.iter xO p k) = (digits2_pos p + k)%positive.
Proof.
  induction k as [| k IH] using Pos.peano_ind.
  - simpl. lia.
  - rewrite Pos.iter_succ. simpl. rewrite IH. lia.
Qed.

Lemma digits2_pos_bound p k :
  (0 <= k)%Z -> (Zpos p < 2 ^ k)%Z -> (Zpos (digits2_pos p) <= k)%Z.
Proof.
  revert k. induction p as [p IH | p IH |]; intros k Hk Hp; simpl.
  - assert (k <> 0)%Z by (intros ->; simpl in Hp; lia).
    replace k with (Z.succ (k - 1))%Z in Hp by lia.
    rewrite Z.pow_succ_r in Hp by lia.
    specialize (IH (k - 1)%Z). lia.
  - assert (k <> 0)%Z by (intros ->; simpl in Hp; lia).
    replace k with (Z.succ (k - 1))%Z in Hp by lia.
    rewrite Z.pow_succ_r in Hp by lia.
    specialize (IH (k - 1)%Z). lia.
  - assert (k <> 0)%Z by (intros ->; simpl in Hp; lia). lia.
Qed.

Lemma binary_round_aux_canonical m e :
  Zpos (digits2_pos m) = 53%Z -> (-1074 <= e <= 971)%Z ->
  binary_round_aux prec emax false (Zpos m) e loc_Exact = S754_finite false m e.
Proof.
  intros Hd He. unfold binary_round_aux, shr_fexp, fexp, emin, prec, emax, Zdigits2.
  rewrite Hd.
  replace (Z.max (53 + e - 53) (3 - 1024 - 53) - e)%Z with 0%Z by lia.
  cbn [shr shr_record_of_loc shr_m loc_of_shr_record round_nearest_even].
  rewrite Hd.
  replace (Z.max (53 + e - 53) (3 - 1024 - 53) - e)%Z with 0%Z by lia.
  cbn [shr shr_record_of_loc shr_m].
  replace (e <=? 1024 - 53)%Z with true; [done |].
  symmetry. apply Z.leb_le. lia.
Qed.

(** A positive integer below 2^53 is a finite Number, not zero. *)
Lemma numberOfZ_positive p :
  (Zpos p < 2 ^ 53)%Z -> exists m e, numberOfZ (Zpos p) = S754_finite false m e.
Proof.
  intros Hp. pose proof (digits2_pos_bound p 53 ltac:(lia) Hp) as Hd.
  unfold numberOfZ, binary_normalize, binary_round, shl_align, fexp, emin.
  change prec with 53%Z. change emax with 1024%Z.
  replace (Z.max (Z.pos (digits2_pos p) + 0 - 53) (3 - 1024 - 53))%Z
    with (Z.pos (digits2_pos p) - 53)%Z by lia.
  rewrite Z.sub_0_r.
  destruct (Z.pos (digits2_pos p) - 53)%Z as [| d | d] eqn:Hdiff; [| lia |].
  - eexists _, _. apply binary_round_aux_canonical; lia.
  - eexists _, _. apply binary_round_aux_canonical; [| lia].
    rewrite digits2_pos_iter. lia.
Qed.

Lemma length_truthy (xs : list jsval) :
  xs <> [] -> (Z.of_nat (length xs) < 2 ^ 53)%Z ->
  truthy (Num (numberOfZ (Z.of_nat (length xs)))) = true.
Proof.
  intros Hne Hlen. destruct xs as [| x xs]; [done |].
  destruct (Z.of_nat (length (x :: xs))) as [| p | p] eqn:Hz; [simpl in Hz; lia | | lia].
  by destruct (numberOfZ_positive p Hlen) as (m & e & ->).
Qed.

(** X21.  Only the top match counts: on an answer of the vector database
    with a non-empty list of matches the record is the one of the first
    match alone, whatever follows it in the list (a list being shorter
    than 2^32 entries). *)
Theorem extractTopMetadata_top_only (pineconeResponse top : jsval) (rest : list jsval) :
  truthy pineconeResponse = true ->
  field pineconeResponse "matches" = Arr (top :: rest) ->
  (Z.of_nat (length (top :: rest)) < 2 ^ 32)%Z ->
  extractTopMetadata pineconeResponse
  = extractTopMetadata (Obj [(str "matches", Arr [top])]).
Proof.
  intros Hpc Hm Hlen.
  assert (Hl : truthy (Num (numberOfZ (Z.of_nat (length (top :: rest))))) = true).
  { apply length_truthy; [done |]. eapply Z.lt_trans; [apply Hlen | done]. }
  assert (H1 : truthy (Num (numberOfZ (Z.of_nat (length [top])))) = true)
    by (by apply length_truthy).
  unfold extractTopMetadata, matchesOf. rewrite Hpc.
  rewrite (Get_field pineconeResponse) by (by apply truthy_not_nullish).
  rewrite Hm. cbn [bindC truthy orElse negb].
  change (Get (Arr (top :: rest)) "length")
    with (Normal (Num (numberOfZ (Z.of_nat (length (top :: rest)))))).
  cbn [bindC]. rewrite Hl. cbn [negb GetIndex nth bindC].
  change (Get (Obj [(str "matches", Arr [top])]) "matches") with (Normal (Arr [top])).
  cbn [bindC truthy orElse negb].
  change (Get (Arr [top]) "length")
    with (Normal (Num (numberOfZ (Z.of_nat (length [top]))))).
  cbn [bindC]. rewrite H1. done.
Qed.

(** ** A catalogue entry the resolver cannot take *)

Lemma makeCacheKey_throws b m r :
  ~ (stringOrAbsent b /\ stringOrAbsent m /\ stringOrAbsent r) ->
  exists msg, makeCacheKey b m r = Throw (TypeError msg).
Proof.
  intros Hno. unfold makeCacheKey.
  destruct (stringOrAbsent_dec b) as [Hb | Hb];
    [| destruct (lowerTrim_throws b Hb) as [msg ->]; by eexists].
  rewrite (lowerTrim_closed b Hb). cbn [bindC].
  destruct (stringOrAbsent_dec m) as [Hm | Hm];
    [| destruct (lowerTrim_throws m Hm) as [msg ->]; by eexists].
  rewrite (lowerTrim_closed m Hm). cbn [bindC].
  destruct (stringOrAbsent_dec r) as [Hr | Hr];
    [| destruct (lowerTrim_throws r Hr) as [msg ->]; by eexists].
  exfalso. auto.
Qed.

Lemma stringOrAbsent_default x : stringOrAbsent (x ||| Str []) <-> stringOrAbsent x.
Proof.
  unfold stringOrAbsent, orElse. destruct (truthy x) eqn:Hx; [by rewrite Hx |].
  split; intros _; by left.
Qed.

(** X22.  A price question about a catalogue entry whose brand, model
    name or reference is neither a string nor falsy (a number, an array,
    an object) is answered 500: the helper throws a TypeError while it
    builds the cache key, before the search provider is contacted, and
    the cache is not touched. *)
Theorem POST_malformed_entry
  (E : env) (request : jsval) (question : jsstring) (emb pc : jsval)
  (w w1 w2 : world) (meta : CatalogMatch) :
  questionOf request = Normal question ->
  trim question <> [] ->
  getEmbedding E question w = (Normal emb, w1) ->
  queryPineconeVector E emb 3 w1 = (Normal pc, w2) ->
  extractTopMetadata pc = Normal (Some meta) ->
  regExpTest priceTerms question = true ->
  liveLibLoads E = true ->
  ~ (stringOrAbsent (brand meta) /\ stringOrAbsent (model_name meta) /\
     stringOrAbsent (reference_number meta)) ->
  exists msg,
    POST E (Normal request) w
    = (Normal (Json (ErrorBody (Str msg ||| Str (str "internal error"))) 500),
       World (cache w)
         (trace w ++ [Fetched (Embeddings question); Fetched (PineconeQuery emb 3);
                      Resolving (brand meta ||| Str []) (model_name meta ||| Str [])
                        (reference_number meta ||| Str [])])).
Proof.
  intros Hq Hne Hemb Hpc Hmeta Hintent Hlib Hbad.
  destruct (POST_retrieved E request question w emb pc w1 w2 meta Hq Hne Hemb Hpc Hmeta)
    as (Hc & Ht & Hrun).
  destruct (makeCacheKey_throws (brand meta ||| Str []) (model_name meta ||| Str [])
              (reference_number meta ||| Str [])) as [msg Hkey].
  { by rewrite !stringOrAbsent_default. }
  exists msg. unfold POST, tryCatch. rewrite Hrun, Hintent, Hlib. cbn [negb].
  unfold bindP at 1 2, emit. unfold getLivePriceNoUrl, bindP, lift.
  rewrite Hkey. cbn [cache trace messageOf]. unfold retP.
  by rewrite Hc, Ht, <- app_assoc.
Qed.

(** ** Every response of the handler *)

Lemma isEmpty_false s : isEmpty s = false -> s <> [].
Proof. by destruct s. Qed.

Lemma errorMessage_truthy e :
  exists msg, messageOf e ||| Str (str "internal error") = Str msg /\ msg <> [].
Proof.
  destruct e as [[| c m] | [| c m] | [| c m]]; by eexists.
Qed.

(** X23.  The handler never throws and answers in one of three shapes,
    whatever the request and the collaborators do: status 200 with an
    answer that is not empty; status 400 with "question required", the
    world left as it was; status 500 with an error message that is not
    empty.  A request whose body is not JSON, or whose question cannot be
    turned into a string, gets the third. *)
Theorem POST_response_shape (E : env) (req_json : completion jsval) (w : world) :
  exists resp w',
    POST E req_json w = (Normal resp, w') /\
    ((httpStatus resp = 200%Z /\
      exists a p m, body resp = AnswerBody a p m /\ a <> []) \/
     (httpStatus resp = 400%Z /\
      body resp = ErrorBody (Str (str "question required")) /\ w' = w) \/
     (httpStatus resp = 500%Z /\
      exists msg, body resp = ErrorBody (Str msg) /\ msg <> [])).
Proof.
  assert (Hcatch : forall e w',
    POST_try E req_json w = (Throw e, w') ->
    exists resp w'',
      POST E req_json w = (Normal resp, w'') /\
      ((httpStatus resp = 200%Z /\
        exists a p m, body resp = AnswerBody a p m /\ a <> []) \/
       (httpStatus resp = 400%Z /\
        body resp = ErrorBody (Str (str "question required")) /\ w'' = w) \/
       (httpStatus resp = 500%Z /\
        exists msg, body resp = ErrorBody (Str msg) /\ msg <> []))).
  { intros e w' Hrun. destruct (errorMessage_truthy e) as (msg & Hmsg & Hne).
    eexists _, w'. split.
    - unfold POST, tryCatch, retP. rewrite Hrun. reflexivity.
    - right. right. split; [done |]. exists msg. cbn [body]. by rewrite Hmsg. }
  destruct req_json as [request | e];
    [| by apply (Hcatch e w)].
  destruct (questionOf request) as [question | e] eqn:Hq;
    [| apply (Hcatch e w); unfold POST_try, bindP, lift; by rewrite Hq].
  destruct (isEmpty question || isEmpty (trim question)) eqn:Hblank.
  - eexists _, w. split.
    + unfold POST, tryCatch, POST_try, bindP, lift, retP. rewrite Hq, Hblank. reflexivity.
    + right. left. done.
  - apply orb_false_elim in Hblank as [_ Hne]. apply isEmpty_false in Hne.
    destruct (POST_try E (Normal request) w) as [[resp | e] w'] eqn:Hrun;
      [| by apply (Hcatch e w')].
    exists resp, w'. split.
    + unfold POST, tryCatch. by rewrite Hrun.
    + left.
      destruct (POST_try_answer E request question w resp w' Hq Hne Hrun)
        as (a & p & m & Hb & Ha & Hs).
      split; [done |]. by exists a, p, m.
Qed.

(** * The Submariner listing *)

(** No currency marker has a unit that the pattern takes for a space. *)
Lemma currencyMarkers_no_space pat :
  In pat currencyMarkers -> Forall (fun p => canonicalize p <> 32) pat.
Proof.
  unfold currencyMarkers. cbn [In].
  intros H. repeat (destruct H as [<- | H]); try done;
    repeat constructor; by vm_compute.
Qed.

(** A literal without such a unit does not match across a space. *)
Lemma matchLiteral_within pat s rest cur after :
  Forall (fun p => canonicalize p <> 32) pat ->
  matchLiteral pat (s ++ 32 :: rest) = Some (cur, after) ->
  exists post, s = cur ++ post.
Proof.
  intros Hpat. revert s cur after.
  induction Hpat as [| p pat Hp _ IH]; intros s cur after; cbn [matchLiteral].
  - intros [= <- _]. by exists s.
  - destruct s as [| c s]; cbn [app].
    + destruct (canonicalize p =? canonicalize 32) eqn:Hc; [| done].
      apply N.eqb_eq in Hc. by vm_compute in Hc |- *.
    + destruct (canonicalize p =? canonicalize c); [| done].
      destruct (matchLiteral pat (s ++ 32 :: rest)) as [[m r] |] eqn:Hm; [| done].
      intros [= <- _]. destruct (IH s m r Hm) as [post ->]. by exists post.
Qed.

(** A text without currency marker, followed by a space, is passed over
    by the scan. *)
Lemma priceRegExpExec_skip title rest :
  ~ containsTerm currencyMarkers title ->
  priceRegExpExec (title ++ 32 :: rest) = priceRegExpExec (32 :: rest).
Proof.
  induction title as [| c title IH]; [done |]. intros Hfree.
  assert (Hno : matchAt ((c :: title) ++ 32 :: rest) = None).
  { destruct (matchAt ((c :: title) ++ 32 :: rest)) as [m |] eqn:Hm; [| done].
    exfalso. apply Hfree.
    apply matchAlternatives_some in Hm as (pat & Hin & Hm).
    unfold matchOne in Hm.
    destruct (matchLiteral pat ((c :: title) ++ 32 :: rest)) as [[cur after] |] eqn:Hl;
      [| done].
    destruct (matchLiteral_within pat (c :: title) rest cur after
                (currencyMarkers_no_space pat Hin) Hl) as [post Hpost].
    apply matchLiteral_split in Hl as [_ Hcur].
    exists [], cur, post, pat. by rewrite Hpost. }
  change (priceRegExpExec ((c :: title) ++ 32 :: rest))
    with (match matchAt ((c :: title) ++ 32 :: rest) with
          | Some m => Some m
          | None => priceRegExpExec (title ++ 32 :: rest)
          end).
  rewrite Hno. apply IH. intros (pre & t & post & term & -> & Hin & Ht).
  apply Hfree. by exists (c :: pre), t, post, term.
Qed.

(** The first price of the snippet, whatever follows it. *)
Lemma priceRegExpExec_chrono24 summary :
  priceRegExpExec (32 :: chrono24Snippet ++ 32 :: summary)
  = Some (Match (str "$9,500") (str "$") (str "9,500")).
Proof. by vm_compute. Qed.

Lemma orElse_fieldText x : stringOrAbsent x -> x ||| Str [] = Str (fieldText x).
Proof.
  unfold orElse. intros [Hf | [s ->]].
  - rewrite Hf. destruct x as [| | | | s | |]; try done. by destruct s.
  - by destruct s.
Qed.

(** What a result of the scenario yields: the price of the snippet, with
    the URL as its source. *)
Lemma snippetResult_yields r url :
  snippetResult r url ->
  entryYields r (Some (Price (Num (numberOfZ 9500)) (Str (str "$")) (Str (str "$9,500"))
                         (Str url) Undefined Undefined)).
Proof.
  intros (Hn & Hp & Hsn & Hurl & Hne & Ht & Hfree & Hs).
  assert (Htext : entryText r
                  = Normal (fieldText (field r "title")
                              ++ 32 :: chrono24Snippet
                              ++ 32 :: fieldText (field r "summary"))).
  { unfold entryText.
    rewrite Hsn, (orElse_fieldText _ Ht), (orElse_fieldText _ Hs).
    rewrite (orElse_truthy (Str chrono24Snippet)) by done.
    cbn [joinValues nullish ToString bindC]. done. }
  assert (Hparse : parsePriceFromText
                     (Str (fieldText (field r "title")
                             ++ 32 :: chrono24Snippet
                             ++ 32 :: fieldText (field r "summary")))
                   = Normal (Some (Price (Num (numberOfZ 9500)) (Str (str "$"))
                                     (Str (str "$9,500")) Undefined Undefined Undefined))).
  { rewrite (parsePriceFromText_match _ (Match (str "$9,500") (str "$") (str "9,500"))).
    - by vm_compute.
    - rewrite (priceRegExpExec_skip _ _ Hfree). apply priceRegExpExec_chrono24. }
  pose proof (yields_parsed r _ _ Hn Hp Htext Hparse) as Hy.
  assert (Hsrc : entrySource r = Str url).
  { unfold entrySource. rewrite Hurl. rewrite !orElse_truthy; [done | | ]; by destruct url. }
  unfold withSource in Hy. by rewrite Hsrc in Hy.
Qed.

(** C4, as the code has it.  A price question whose catalogue match has
    no fresh entry in the cache, and for which the search provider
    returns a document with no structured price at the top level and, in
    its result list after entries that yield nothing, a result with no
    structured price, the snippet "... listed at $9,500 on Chrono24 ..."
    and a URL, is answered with the live listing of value 9500 and
    currency "$": the source is the URL of the result and the provenance
    entry has the raw text "$9,500", the text matched in the snippet as
    it stands there, with no space after the sign.  The record stored in
    the cache carries the value 9500, the currency "$" and the same raw
    text and source. *)
Theorem POST_snippet_listing
  (E : env) (request : jsval) (question : jsstring) (emb pc data r : jsval)
  (before after : list jsval) (w w1 w2 : world) (meta : CatalogMatch)
  (key query url : jsstring) :
  questionOf request = Normal question ->
  trim question <> [] ->
  getEmbedding E question w = (Normal emb, w1) ->
  queryPineconeVector E emb 3 w1 = (Normal pc, w2) ->
  extractTopMetadata pc = Normal (Some meta) ->
  regExpTest priceTerms question = true ->
  liveLibLoads E = true ->
  makeCacheKey (brand meta ||| Str []) (model_name meta ||| Str [])
    (reference_number meta ||| Str []) = Normal key ->
  freshEntry (Date_now E) (cache w !! key) = None ->
  buildQuery (brand meta ||| Str []) (model_name meta ||| Str [])
    (reference_number meta ||| Str []) = Normal query ->
  providerReturns E query data ->
  ~ structuredPrice (field data "price") ->
  field data "results" = Arr (before ++ r :: after) ->
  Forall (fun r' => entryYields r' None) before ->
  snippetResult r url ->
  POST E (Normal request) w
  = (Normal (Json (AnswerBody
               (str "Live listing: $ 9500 " ++ emDash ++ str " source: " ++ url
                  ++ str " (as of " ++ toISOString E ++ str ").")
               (Some [Provenance (Str url) (Str (str "$9,500"))])
               (Some meta)) 200),
     World (<[key := Entry (Date_now E)
                       (Price (Num (numberOfZ 9500)) (Str (str "$")) (Str (str "$9,500"))
                          (Str url) (Str (toISOString E)) Undefined)]> (cache w))
       (trace w ++ [Fetched (Embeddings question); Fetched (PineconeQuery emb 3);
                    Resolving (brand meta ||| Str []) (model_name meta ||| Str [])
                      (reference_number meta ||| Str []);
                    Fetched (ExaSearch query)])).
Proof.
  intros Hq Hne Hemb Hpc Hmeta Hintent Hlib Hkey Hfresh Hquery Hret Htop Hrs Hbefore Hr.
  pose proof Hr as (_ & _ & _ & _ & Hurl & _).
  set (c := Price (Num (numberOfZ 9500)) (Str (str "$")) (Str (str "$9,500"))
              (Str url) Undefined Undefined).
  assert (Hex : extractCandidateFromExaResponse data = Normal (Some c)).
  { assert (Hd : truthy data = true)
      by (destruct data; try done; by vm_compute in Hrs).
    pose proof (truthy_not_nullish data Hd) as Hn.
    unfold extractCandidateFromExaResponse. rewrite Hd. cbn [negb].
    rewrite (Get_field data "price") by done. cbn [bindC].
    rewrite (hasPrice_false _ Htop). cbn [bindC].
    rewrite (Get_field data "results") by done. cbn [bindC]. rewrite Hrs.
    assert (Hscan : scanResults (before ++ r :: after) = Normal (Some c))
      by (apply scanResults_first; [done | by apply snippetResult_yields]).
    destruct (before ++ r :: after) as [| r0 rest] eqn:Heq; [by destruct before |].
    by rewrite Hscan. }
  assert (Hres : resolved c (toISOString E)
                 = Price (Num (numberOfZ 9500)) (Str (str "$")) (Str (str "$9,500"))
                     (Str url) (Str (toISOString E)) Undefined).
  { unfold resolved, c. cbn [value currency raw source].
    rewrite !orElse_truthy; [done | | | |]; try done. by destruct url. }
  assert (Ha : liveAnswer (resolved c (toISOString E))
               = Normal (str "Live listing: $ 9500 " ++ emDash ++ str " source: " ++ url
                           ++ str " (as of " ++ toISOString E ++ str ").")).
  { rewrite Hres. unfold liveAnswer. cbn [value currency source ts].
    rewrite (orElse_truthy (Str url)) by (by destruct url).
    rewrite (orElse_truthy (Str (str "$"))) by done.
    cbn [ToString bindC]. by vm_compute. }
  destruct (POST_retrieved E request question w emb pc w1 w2 meta Hq Hne Hemb Hpc Hmeta)
    as (Hc & Ht & Hrun).
  unfold POST, tryCatch. rewrite Hrun, Hintent, Hlib. cbn [negb].
  unfold bindP at 1 2, emit.
  set (w3 := World (cache w2) _).
  assert (Hfresh3 : freshEntry (Date_now E) (cache w3 !! key) = None)
    by (subst w3; cbn [cache]; by rewrite Hc).
  rewrite (getLivePriceNoUrl_miss E _ _ _ w3 key query Hkey Hfresh3 Hquery).
  rewrite (callExaSearch_returns E query data w3 Hret), Hex.
  unfold bindP, lift, retP. rewrite Ha, Hres.
  subst w3. cbn [cache trace source raw].
  rewrite (orElse_truthy (Str url)) by (by destruct url).
  rewrite (orElse_truthy (Str (str "$9,500"))) by done.
  rewrite Hc, Ht, <- !app_assoc. done.
Qed.

(** * The second copy of route.ts against the first *)

(** The plain read of the embedding finds what the optional read finds,
    or throws a TypeError where the optional read finds nothing. *)
Lemma embeddingOf_cases j :
  (exists v, embeddingOf j = Normal v /\ embeddingOpt j = Normal v) \/
  (exists msg, embeddingOf j = Throw (TypeError msg) /\ embeddingOpt j = Normal Undefined).
Proof.
  unfold embeddingOpt, embeddingOf, GetOpt, GetIndexOpt.
  destruct (nullish j) eqn:Hj.
  { right. destruct j; try done; by eexists. }
  destruct (Get_normal j "data" Hj) as [d ->]. cbn [bindC].
  destruct (nullish d) eqn:Hd.
  { right. destruct d; try done; by eexists. }
  destruct (GetIndex_normal d 0 Hd) as [d0 ->]. cbn [bindC].
  destruct (nullish d0) eqn:Hd0.
  { right. destruct d0; try done; by eexists. }
  destruct (Get_normal d0 "embedding" Hd0) as [e He]. left. exists e. by rewrite He.
Qed.

Lemma getEmbedding2_succeeds E text w v w' :
  getEmbedding E text w = (Normal v, w') -> getEmbedding2 E text w = (Normal v, w').
Proof.
  unfold getEmbedding, getEmbedding2, doFetch, bindP, emit, lift, throw.
  destruct (fetch E (Embeddings text)) as [resp | e]; [| done].
  destruct (ok resp); cbn [negb]; [| done].
  destruct (json resp) as [j | e]; [| done].
  destruct (embeddingOpt j) as [e0 | e]; [| done].
  by destruct (truthy e0).
Qed.

Lemma queryPineconeVector2_succeeds E emb k w v w' :
  queryPineconeVector E emb k w = (Normal v, w') ->
  queryPineconeVector2 E emb k w = (Normal v, w').
Proof.
  unfold queryPineconeVector, queryPineconeVector2, doFetch, bindP, emit, lift, throw.
  destruct (fetch E (PineconeQuery emb k)) as [resp | e]; [| done].
  by destruct (ok resp).
Qed.

(** X24.  The embedding call of the second copy returns whatever stands
    at [data[0].embedding].  It returns what the first copy returns
    whenever the first copy returns; and where the first copy refuses a
    document without embedding, the second returns the falsy value found
    there, or throws a TypeError when there is no place to read it
    from. *)
Theorem getEmbedding2_unchecked (E : env) (text : jsstring) (w : world) :
  (forall v w', getEmbedding E text w = (Normal v, w') ->
                getEmbedding2 E text w = (Normal v, w')) /\
  (forall v w', getEmbedding2 E text w = (Normal v, w') -> truthy v = true ->
                getEmbedding E text w = (Normal v, w')) /\
  (forall resp j v,
      fetch E (Embeddings text) = Normal resp -> ok resp = true ->
      json resp = Normal j -> embeddingOpt j = Normal v -> truthy v = false ->
      getEmbedding E text w
      = (Throw (Error (str "OpenAI returned no embedding")),
         World (cache w) (trace w ++ [Fetched (Embeddings text)])) /\
      (getEmbedding2 E text w
       = (Normal v, World (cache w) (trace w ++ [Fetched (Embeddings text)])) \/
       exists msg,
         getEmbedding2 E text w
         = (Throw (TypeError msg),
            World (cache w) (trace w ++ [Fetched (Embeddings text)])))).
Proof.
  split; [| split].
  - intros v w'. apply getEmbedding2_succeeds.
  - intros v w'.
    unfold getEmbedding, getEmbedding2, doFetch, bindP, emit, lift, throw.
    destruct (fetch E (Embeddings text)) as [resp | e]; [| done].
    destruct (ok resp); cbn [negb]; [| by destruct (textOf resp)].
    destruct (json resp) as [j | e]; [| done].
    destruct (embeddingOf_cases j) as [(v' & -> & ->) | (msg & -> & _)]; [| done].
    intros [= -> <-] Hv. by rewrite Hv.
  - intros resp j v Hf Hok Hj Hopt Hv.
    unfold getEmbedding, getEmbedding2, doFetch, bindP, emit, lift, throw.
    rewrite Hf, Hok, Hj, Hopt, Hv. cbn [negb]. split; [done |].
    destruct (embeddingOf_cases j) as [(v' & -> & Hv') | (msg & -> & _)].
    + left. congruence.
    + right. by exists msg.
Qed.

(** X25.  [extractTopMetadata] of the second copy gives what the first
    gives (a record, none, or the same exception) on every answer of the
    vector database whose top score is absent, [null] or truthy; on a
    top score that is falsy without being absent (0, the empty string,
    [false], NaN) it gives the same record with the score [null]. *)
Theorem extractTopMetadata2_refines (pineconeResponse : jsval) :
  match extractTopMetadata pineconeResponse with
  | Normal (Some m) =>
      extractTopMetadata2 pineconeResponse
      = Normal (Some (Meta (id m) (score m ||| Null) (brand m) (model_name m)
                        (reference_number m) (description m) (category m)
                        (movement m) (caliber m)))
      /\ ((score m = Null \/ truthy (score m) = true) ->
          extractTopMetadata2 pineconeResponse = Normal (Some m))
  | other => extractTopMetadata2 pineconeResponse = other
  end.
Proof.
  pose proof (extractTopMetadata_copies_agree pineconeResponse) as Hagree.
  destruct (extractTopMetadata pineconeResponse) as [[m |] | e] eqn:H1; [| done | done].
  split; [| done]. clear Hagree. revert H1.
  unfold extractTopMetadata, extractTopMetadata2.
  destruct (matchesOf pineconeResponse) as [matches | e]; [| done]. cbn [bindC].
  destruct (truthy matches); [| done]. cbn [negb].
  destruct (Get matches "length") as [len | e]; [| done]. cbn [bindC].
  destruct (truthy len); [| done]. cbn [negb].
  destruct (GetIndex matches 0) as [top | e]; [| done]. cbn [bindC].
  destruct (Get top "metadata") as [md | e]; [| done]. cbn [bindC].
  repeat (match goal with
          | |- context [bindC (Get ?v ?k) _] =>
              destruct (Get v k) as [? | ?]; [| done]; cbn [bindC]
          end).
  intros [= <-].
  cbn [id score brand model_name reference_number description category movement caliber].
  do 3 f_equal. unfold coalesce, orElse.
  match goal with |- context [nullish ?x] => destruct x as [| | [|] | n | [| c t] | xs | ps] end;
    cbn [nullish truthy]; try done.
Qed.

(** The second handler once retrieval has found a match. *)
Lemma POST2_retrieved E liveLib request question w emb pc w1 w2 meta :
  questionOf request = Normal question ->
  trim question <> [] ->
  getEmbedding2 E question w = (Normal emb, w1) ->
  queryPineconeVector2 E emb 3 w1 = (Normal pc, w2) ->
  extractTopMetadata2 pc = Normal (Some meta) ->
  POST2_try E liveLib (Normal request) w =
    (if regExpTest priceTerms question then
       (isFunction <- lift liveLib ;;
        if negb isFunction then
          (a <- lift (catalogAnswer meta) ;;
           retP (Json (AnswerBody a None (Some meta)) 200))
        else
          (emit (Resolving (brand meta ||| Str []) (model_name meta ||| Str [])
                   (reference_number meta ||| Str [])) ;;
           live <- getLivePriceNoUrl E (brand meta ||| Str []) (model_name meta ||| Str [])
                     (reference_number meta ||| Str []) ;;
           match live with
           | Some live =>
               a <- lift (liveAnswer live) ;;
               retP (Json (AnswerBody a
                       (Some [Provenance (source live ||| Str (str "exa"))
                                (raw live ||| Str [])])
                       (Some meta)) 200)
           | None =>
               a <- lift (degradedAnswer meta) ;;
               retP (Json (AnswerBody a None (Some meta)) 200)
           end))%prog
     else
       (a <- lift (catalogAnswer meta) ;;
        retP (Json (AnswerBody a None (Some meta)) 200))%prog) w2.
Proof.
  intros Hq Hne Hemb Hpc Hmeta.
  unfold POST2_try, bindP at 1 2 3 4 5, lift at 1 2 3.
  rewrite Hq, (trim_nonempty question Hne), Hemb, Hpc, Hmeta.
  by destruct (regExpTest priceTerms question).
Qed.

(** X26.  The two handlers answer alike, with the same requests sent and
    the same cache, on every request for which the first copy's
    retrieval succeeds, the top score is absent, [null] or truthy, and,
    when the question is about a price, the helper is imported as a
    function. *)
Theorem POST2_agrees
  (E : env) (liveLib : completion bool) (request : jsval) (question : jsstring)
  (emb pc : jsval) (w w1 w2 : world) :
  questionOf request = Normal question ->
  trim question <> [] ->
  getEmbedding E question w = (Normal emb, w1) ->
  queryPineconeVector E emb 3 w1 = (Normal pc, w2) ->
  (forall meta, extractTopMetadata pc = Normal (Some meta) ->
     (score meta = Null \/ truthy (score meta) = true) /\
     (regExpTest priceTerms question = true ->
      liveLib = Normal true /\ liveLibLoads E = true)) ->
  POST2 E liveLib (Normal request) w = POST E (Normal request) w.
Proof.
  intros Hq Hne Hemb Hpc Hmeta.
  pose proof (getEmbedding2_succeeds _ _ _ _ _ Hemb) as Hemb2.
  pose proof (queryPineconeVector2_succeeds _ _ _ _ _ _ Hpc) as Hpc2.
  pose proof (extractTopMetadata_copies_agree pc) as Hagree.
  assert (Htry : POST2_try E liveLib (Normal request) w = POST_try E (Normal request) w);
    [| unfold POST2, POST, tryCatch; by rewrite Htry].
  destruct (extractTopMetadata pc) as [[meta |] | e] eqn:Hm.
  - destruct (Hmeta meta eq_refl) as [Hscore Hlib].
    rewrite (POST2_retrieved E liveLib request question w emb pc w1 w2 meta
               Hq Hne Hemb2 Hpc2 (Hagree Hscore)).
    destruct (POST_retrieved E request question w emb pc w1 w2 meta Hq Hne Hemb Hpc Hm)
      as (_ & _ & ->).
    destruct (regExpTest priceTerms question); [| done].
    destruct (Hlib eq_refl) as [-> ->]. done.
  - unfold POST2_try, POST_try, bindP, lift.
    by rewrite Hq, (trim_nonempty question Hne), Hemb, Hemb2, Hpc, Hpc2, Hm, Hagree.
  - unfold POST2_try, POST_try, bindP, lift.
    by rewrite Hq, (trim_nonempty question Hne), Hemb, Hemb2, Hpc, Hpc2, Hm, Hagree.
Qed.

(** X27.  Where the two handlers part on the import of the helper, for a
    price question with a catalogue match.  In the second copy a module
    that exports no function gives the plain catalogue answer (where the
    first copy says "Live price lookup is not available"), and an import
    that rejects gives status 500 with the message of the rejection
    (where the first copy still answers from the catalogue).  In both
    cases no search request is sent and the cache is not touched. *)
Theorem POST2_without_helper
  (E : env) (liveLib : completion bool) (request : jsval) (question : jsstring)
  (emb pc : jsval) (w w1 w2 : world) (meta : CatalogMatch) :
  questionOf request = Normal question ->
  trim question <> [] ->
  getEmbedding2 E question w = (Normal emb, w1) ->
  queryPineconeVector2 E emb 3 w1 = (Normal pc, w2) ->
  extractTopMetadata2 pc = Normal (Some meta) ->
  regExpTest priceTerms question = true ->
  (liveLib = Normal false ->
   forall a, catalogAnswer meta = Normal a ->
     POST2 E liveLib (Normal request) w
     = (Normal (Json (AnswerBody a None (Some meta)) 200), w2)) /\
  (forall e, liveLib = Throw e ->
     POST2 E liveLib (Normal request) w
     = (Normal (Json (ErrorBody (messageOf e ||| Str (str "internal error"))) 500), w2)).
Proof.
  intros Hq Hne Hemb Hpc Hmeta Hintent.
  pose proof (POST2_retrieved E liveLib request question w emb pc w1 w2 meta
                Hq Hne Hemb Hpc Hmeta) as Hrun.
  rewrite Hintent in Hrun. split.
  - intros -> a Ha. unfold POST2, tryCatch. rewrite Hrun.
    unfold bindP, lift, retP. cbn [negb]. by rewrite Ha.
  - intros e ->. unfold POST2, tryCatch. rewrite Hrun. done.
Qed.

(** * The second copy of the helper *)

(** The miss branch of the first resolver is the search step. *)
Lemma getLivePriceNoUrl_searchStep E b m r w key query :
  makeCacheKey b m r = Normal key ->
  freshEntry (Date_now E) (cache w !! key) = None ->
  buildQuery b m r = Normal query ->
  getLivePriceNoUrl E b m r w = searchStep E key query w.
Proof.
  intros Hkey Hfresh Hq.
  unfold getLivePriceNoUrl, searchStep, bindP at 1 2 3, lift at 1 2, cacheGet.
  by rewrite Hkey, Hfresh, Hq.
Qed.

Lemma buildQuery2_normal b m r query :
  buildQuery b m r = Normal query -> exists query2, buildQuery2 b m r = Normal query2.
Proof.
  unfold buildQuery, buildQuery2.
  destruct (if truthy r then _ else _) as [refPart |]; [| done]. cbn [bindC].
  destruct (ToString b) as [tb |]; [| done]. cbn [bindC].
  destruct (ToString m) as [tm |]; [| done]. cbn [bindC].
  intros _. by eexists.
Qed.

(** What the call of the search provider does to the world. *)
Lemma callExaSearch_world E query w res w' :
  callExaSearch E query w = (res, w') ->
  w' = World (cache w)
         (trace w ++ if truthy (EXA_API_KEY E) then [Fetched (ExaSearch query)] else []).
Proof.
  intros Hcall. destruct (callExaSearch_any _ _ _ _ _ Hcall) as (Hc & _ & _).
  destruct (callExaSearch_trace _ _ _ _ _ Hcall) as [(Hk & -> & _) | [Hk Ht]]; rewrite Hk.
  - rewrite app_nil_r. by destruct w.
  - destruct w'. cbn in *. by rewrite Hc, Ht.
Qed.

(** The search step never throws; it leaves the request in the trace and
    at most its own entry in the cache. *)
Lemma searchStep_run E key query w :
  exists found,
    searchStep E key query w
    = (Normal found,
       World (match found with
              | Some out => <[key := Entry (Date_now E) out]> (cache w)
              | None => cache w
              end)
         (trace w ++ if truthy (EXA_API_KEY E) then [Fetched (ExaSearch query)] else [])).
Proof.
  unfold searchStep, tryCatch, bindP at 1.
  destruct (callExaSearch E query w) as [[data | e] w1] eqn:Hcall;
    rewrite (callExaSearch_world _ _ _ _ _ Hcall).
  - unfold bindP, lift, cacheSet, retP.
    destruct (extractCandidateFromExaResponse data) as [[c |] | e];
      [by eexists (Some _) | by exists None | by exists None].
  - by exists None.
Qed.

(** The outcome of the search step depends on the query only through the
    provider's answer. *)
Lemma searchStep_query E key q1 q2 w1 w2 :
  fetch E (ExaSearch q2) = fetch E (ExaSearch q1) ->
  fst (searchStep E key q2 w2) = fst (searchStep E key q1 w1).
Proof.
  intros Hf.
  unfold searchStep, callExaSearch, doFetch, tryCatch, bindP, emit, lift, throw, retP,
    cacheSet.
  destruct (truthy (EXA_API_KEY E)); cbn [negb fst]; [| reflexivity].
  rewrite Hf. destruct (fetch E (ExaSearch q1)) as [resp | e]; [| reflexivity].
  destruct (ok resp); cbn [negb fst]; [| reflexivity].
  destruct (json resp) as [data | e]; [| reflexivity].
  destruct (extractCandidateFromExaResponse data) as [[c |] | e]; reflexivity.
Qed.

Lemma searchStep_empty E key query w :
  searchEmpty E query ->
  fst (searchStep E key query w) = Normal None.
Proof.
  intros Hempty. unfold searchStep, tryCatch, bindP at 1.
  destruct Hempty as [Hfail | (data & Hret & Hno)].
  - destruct (callExaSearch_fails E query w Hfail) as (e & tr & ->). done.
  - rewrite (callExaSearch_returns E query data w Hret).
    unfold bindP, lift, retP.
    by destruct Hno as [-> | [e ->]].
Qed.

Lemma fallbackOff_skips S options :
  fallbackOff S options ->
  exists use,
    Get (match options with Undefined => Obj [] | _ => options end) "useScraperFallback"
    = Normal use /\
    truthy use && truthy (SCRAPER_BASE S) = false.
Proof.
  intros [-> | (Hn & Hoff)].
  - by exists Undefined.
  - exists (field options "useScraperFallback"). split.
    + destruct options; try done; by apply Get_field.
    + destruct Hoff as [-> | ->]; [done | apply andb_false_r].
Qed.

(** The second resolver on a miss. *)
Lemma getLivePriceNoUrl2_miss E S b m r options w2 key query :
  makeCacheKey b m r = Normal key ->
  freshEntry (Date_now E) (cache2 w2 !! key) = None ->
  buildQuery2 b m r = Normal query ->
  getLivePriceNoUrl2 E S b m r options w2 =
    match searchStep E key query (World (cache2 w2) []) with
    | (Normal (Some out), w') =>
        (Normal (Some out), World2 (cache w') (trace2 w2 ++ map Base (trace w')))
    | (Normal None, w') =>
        (use <- lift2 (Get (match options with Undefined => Obj [] | _ => options end)
                         "useScraperFallback") ;;
         if truthy use && truthy (SCRAPER_BASE S) then
           tryCatch2 (scrape E S key query) (fun e => retP2 None)
         else retP2 None)%prog2
          (World2 (cache w') (trace2 w2 ++ map Base (trace w')))
    | (Throw e, w') =>
        (Throw e, World2 (cache w') (trace2 w2 ++ map Base (trace w')))
    end.
Proof.
  intros Hkey Hfresh Hq.
  unfold getLivePriceNoUrl2, bindP2 at 1 2 3 4, lift2 at 1 2, cacheGet2, liftP.
  rewrite Hkey, Hfresh, Hq.
  by destruct (searchStep E key query (World (cache2 w2) [])) as [[[out |] | e] w'].
Qed.

Lemma getLivePriceNoUrl2_hit E S b m r options w2 key c :
  makeCacheKey b m r = Normal key ->
  freshEntry (Date_now E) (cache2 w2 !! key) = Some c ->
  getLivePriceNoUrl2 E S b m r options w2
  = (Normal (Some (servedFromCache (payload c))), w2).
Proof.
  intros Hkey Hfresh.
  unfold getLivePriceNoUrl2, bindP2, lift2, cacheGet2, retP2. by rewrite Hkey, Hfresh.
Qed.

Lemma searchSent_map E query :
  map Base (if truthy (EXA_API_KEY E) then [Fetched (ExaSearch query)] else [])
  = searchSent E query.
Proof. unfold searchSent. by destruct (truthy (EXA_API_KEY E)). Qed.

(** X28.  With the fallback off (no options, as the handler calls it, or
    options that do not ask for it, or no scraper configured) the second
    resolver is the first one up to the search query: on the same cache,
    when the provider answers the two queries alike, it returns the same
    result and leaves the same cache, and the scraper is not asked; what
    is sent is nothing or the one search request. *)
Theorem getLivePriceNoUrl2_fallback_off
  (E : env) (S : scraper) (b m r options : jsval) (w : world) (w2 : world2) :
  fallbackOff S options ->
  cache2 w2 = cache w ->
  (forall q1 q2, buildQuery b m r = Normal q1 -> buildQuery2 b m r = Normal q2 ->
                 fetch E (ExaSearch q2) = fetch E (ExaSearch q1)) ->
  fst (getLivePriceNoUrl2 E S b m r options w2) = fst (getLivePriceNoUrl E b m r w) /\
  cache2 (snd (getLivePriceNoUrl2 E S b m r options w2))
  = cache (snd (getLivePriceNoUrl E b m r w)) /\
  (trace2 (snd (getLivePriceNoUrl2 E S b m r options w2)) = trace2 w2 \/
   exists q2, buildQuery2 b m r = Normal q2 /\
     trace2 (snd (getLivePriceNoUrl2 E S b m r options w2))
     = trace2 w2 ++ [Base (Fetched (ExaSearch q2))]).
Proof.
  intros Hoff Hcache Hsame.
  destruct (fallbackOff_skips S options Hoff) as (use & Huse & Hskip).
  destruct (makeCacheKey b m r) as [key | e] eqn:Hkey.
  - destruct (freshEntry (Date_now E) (cache w !! key)) as [c |] eqn:Hfresh.
    + rewrite (getLivePriceNoUrl2_hit E S b m r options w2 key c Hkey)
        by (by rewrite Hcache).
      apply freshEntry_some in Hfresh as [Hc Hage].
      rewrite (getLivePriceNoUrl_hit E b m r w key c Hkey Hc Hage). cbn [fst snd]. auto.
    + destruct (buildQuery_normal b m r key Hkey) as [q1 Hq1].
      destruct (buildQuery2_normal b m r q1 Hq1) as [q2 Hq2].
      rewrite (getLivePriceNoUrl_searchStep E b m r w key q1 Hkey Hfresh Hq1).
      rewrite (getLivePriceNoUrl2_miss E S b m r options w2 key q2 Hkey)
        by (by rewrite ?Hcache).
      pose proof (searchStep_query E key q1 q2 w (World (cache2 w2) [])
                    (Hsame q1 q2 Hq1 Hq2)) as Hfst.
      destruct (searchStep_run E key q2 (World (cache2 w2) [])) as [found2 Hrun2].
      destruct (searchStep_run E key q1 w) as [found1 Hrun1].
      rewrite Hrun2, Hrun1 in Hfst. cbn [fst] in Hfst. injection Hfst as ->.
      rewrite Hrun2, Hrun1. cbn [cache trace app]. rewrite searchSent_map, Hcache.
      destruct found1 as [out |].
      * cbn [fst snd cache2 trace2]. split; [done |]. split; [done |].
        unfold searchSent.
        destruct (truthy (EXA_API_KEY E)); [right; by exists q2 | left; apply app_nil_r].
      * unfold bindP2, lift2. rewrite Huse, Hskip. unfold retP2.
        cbn [fst snd cache2 trace2]. split; [done |]. split; [done |].
        unfold searchSent.
        destruct (truthy (EXA_API_KEY E)); [right; by exists q2 | left; apply app_nil_r].
  - unfold getLivePriceNoUrl2, getLivePriceNoUrl, bindP2, bindP, lift2, lift.
    rewrite Hkey. cbn [fst snd]. auto.
Qed.

Lemma GetOpt_field v k : GetOpt v k = Normal (field v k).
Proof.
  unfold GetOpt, field. destruct (nullish v) eqn:Hn.
  - by destruct v.
  - destruct (Get_normal v k Hn) as [x ->]. done.
Qed.

Lemma field_truthy v k : truthy (field v k) = true -> nullish v = false.
Proof. unfold field. by destruct v. Qed.

(** The scraper step under its [try]: one request, and the record of a
    document with a price, stored, or nothing. *)
Lemma scrape_run E S key query w :
  tryCatch2 (scrape E S key query) (fun e => retP2 None) w
  = match scraperFetch S query with
    | Normal resp =>
        if ok resp then
          match json resp with
          | Normal js =>
              if truthy (field js "price") then
                (Normal (Some (scraped js (toISOString E))),
                 World2 (<[key := Entry (Date_now E) (scraped js (toISOString E))]> (cache2 w))
                   (trace2 w ++ [ScraperFetched query]))
              else (Normal None, World2 (cache2 w) (trace2 w ++ [ScraperFetched query]))
          | Throw _ => (Normal None, World2 (cache2 w) (trace2 w ++ [ScraperFetched query]))
          end
        else (Normal None, World2 (cache2 w) (trace2 w ++ [ScraperFetched query]))
    | Throw _ => (Normal None, World2 (cache2 w) (trace2 w ++ [ScraperFetched query]))
    end.
Proof.
  unfold tryCatch2, scrape, doScraperFetch, bindP2 at 1.
  destruct (scraperFetch S query) as [resp | e]; [| done].
  destruct (ok resp); [| done].
  unfold bindP2 at 1, lift2 at 1.
  destruct (json resp) as [js | e]; [| done].
  unfold bindP2 at 1, lift2 at 1. rewrite GetOpt_field.
  destruct (truthy (field js "price")) eqn:Hp; [| done].
  apply field_truthy in Hp.
  unfold bindP2, lift2, cacheSet2, retP2.
  by rewrite !(Get_field js) by done.
Qed.

(** X29.  The scraper fallback.  On a miss that the search provider does
    not settle, with the fallback on, the scraper is asked once, after
    the search.  A document with a truthy price becomes the record
    returned and stored under the key: its price, currency and raw text
    as they stand in the document (absent ones stay [undefined]), the
    document's source or "scraper-fallback", and the instant.  A scraper
    that rejects, answers with another status, with a body that is not
    JSON or with no price gives none, and nothing is stored. *)
Theorem getLivePriceNoUrl2_scraper
  (E : env) (S : scraper) (b m r options : jsval) (w2 : world2) (key query : jsstring) :
  makeCacheKey b m r = Normal key ->
  freshEntry (Date_now E) (cache2 w2 !! key) = None ->
  buildQuery2 b m r = Normal query ->
  searchEmpty E query ->
  fallbackOn S options ->
  (forall resp js,
      scraperFetch S query = Normal resp -> ok resp = true ->
      json resp = Normal js -> truthy (field js "price") = true ->
      getLivePriceNoUrl2 E S b m r options w2
      = (Normal (Some (scraped js (toISOString E))),
         World2 (<[key := Entry (Date_now E) (scraped js (toISOString E))]> (cache2 w2))
           (trace2 w2 ++ searchSent E query ++ [ScraperFetched query]))) /\
  ((exists e, scraperFetch S query = Throw e) \/
   (exists resp, scraperFetch S query = Normal resp /\
      (ok resp = false \/ (exists e, json resp = Throw e) \/
       exists js, json resp = Normal js /\ truthy (field js "price") = false)) ->
   getLivePriceNoUrl2 E S b m r options w2
   = (Normal None,
      World2 (cache2 w2) (trace2 w2 ++ searchSent E query ++ [ScraperFetched query]))).
Proof.
  intros Hkey Hfresh Hq Hempty (Hn & Huse & Hbase).
  assert (Hrun : getLivePriceNoUrl2 E S b m r options w2
                 = tryCatch2 (scrape E S key query) (fun e => retP2 None)
                     (World2 (cache2 w2) (trace2 w2 ++ searchSent E query))).
  { rewrite (getLivePriceNoUrl2_miss E S b m r options w2 key query Hkey Hfresh Hq).
    destruct (searchStep_run E key query (World (cache2 w2) [])) as [found Hrun].
    pose proof (searchStep_empty E key query (World (cache2 w2) []) Hempty) as Hnone.
    rewrite Hrun in Hnone. cbn [fst] in Hnone. injection Hnone as ->.
    rewrite Hrun. cbn [cache trace app]. rewrite searchSent_map.
    unfold bindP2, lift2.
    replace (match options with Undefined => Obj [] | _ => options end) with options
      by (by destruct options).
    rewrite (Get_field options) by done. by rewrite Huse, Hbase. }
  rewrite Hrun, scrape_run. cbn [cache2 trace2]. rewrite <- app_assoc. split.
  - intros resp js -> -> -> ->. done.
  - intros [[e ->] | (resp & -> & [-> | [[e He] | (js & Hjs & Hp)]])]; [done | done | |].
    + rewrite He. by destruct (ok resp).
    + rewrite Hjs, Hp. by destruct (ok resp).
Qed.

Lemma makeCacheKey_throw_kind b m r e :
  makeCacheKey b m r = Throw e -> exists msg, e = TypeError msg.
Proof.
  assert (P : forall x e, lowerTrim x = Throw e -> exists msg, e = TypeError msg).
  { intros x e'. unfold lowerTrim, callToLowerCase.
    destruct (x ||| Str []); try done; intros [= <-]; by eexists. }
  unfold makeCacheKey.
  destruct (lowerTrim b) as [sb | eb] eqn:Hb; [| intros [= <-]; by apply (P b)].
  destruct (lowerTrim m) as [sm | em] eqn:Hm; [| intros [= <-]; by apply (P m)].
  destruct (lowerTrim r) as [sr | er] eqn:Hr; [| intros [= <-]; by apply (P r)].
  done.
Qed.

Lemma scrape_outcome E S key query w :
  exists res c,
    tryCatch2 (scrape E S key query) (fun e => retP2 None) w
    = (Normal res, World2 c (trace2 w ++ [ScraperFetched query])) /\
    (forall k, k <> key -> c !! k = cache2 w !! k).
Proof.
  rewrite scrape_run.
  destruct (scraperFetch S query) as [resp | e]; [| by eexists _, _].
  destruct (ok resp); [| by eexists _, _].
  destruct (json resp) as [js | e]; [| by eexists _, _].
  destruct (truthy (field js "price")); [| by eexists _, _].
  eexists _, _. split; [done |]. intros k Hk. by rewrite lookup_insert_ne.
Qed.

(** X30.  What one call of the second resolver can do.  It sends nothing,
    or the one search request, or the search request and then one
    scraper request (the search request itself goes out only when a key
    is configured, so without a key the scraper request stands alone);
    the scraper is asked only with the fallback on, and never when the
    cache or the search provider gave a record.  It
    touches no key of the cache but its own.  It throws only a
    TypeError, for a tuple that is no key or for options that are
    [null]. *)
Theorem getLivePriceNoUrl2_frame (E : env) (S : scraper) (b m r options : jsval) (w2 : world2) :
  (exists evs,
     trace2 (snd (getLivePriceNoUrl2 E S b m r options w2)) = trace2 w2 ++ evs /\
     (evs = [] \/
      exists q, buildQuery2 b m r = Normal q /\
        (evs = searchSent E q \/
         evs = searchSent E q ++ [ScraperFetched q] /\ fallbackOn S options /\
         forall out, fst (getLivePriceNoUrl2 E S b m r options w2) = Normal (Some out) ->
                     exists js, out = scraped js (toISOString E)))) /\
  (forall k, makeCacheKey b m r <> Normal k ->
     cache2 (snd (getLivePriceNoUrl2 E S b m r options w2)) !! k = cache2 w2 !! k) /\
  (forall e, fst (getLivePriceNoUrl2 E S b m r options w2) = Throw e ->
     (exists msg, e = TypeError msg) /\
     ((exists e', makeCacheKey b m r = Throw e') \/ options = Null)).
Proof.
  destruct (makeCacheKey b m r) as [key | e] eqn:Hkey.
  - destruct (freshEntry (Date_now E) (cache2 w2 !! key)) as [c |] eqn:Hfresh.
    + rewrite (getLivePriceNoUrl2_hit E S b m r options w2 key c Hkey Hfresh).
      cbn [fst snd]. split; [| done]. exists []. split; [by rewrite app_nil_r | by left].
    + destruct (buildQuery_normal b m r key Hkey) as [q1 Hq1].
      destruct (buildQuery2_normal b m r q1 Hq1) as [q Hq].
      rewrite (getLivePriceNoUrl2_miss E S b m r options w2 key q Hkey Hfresh Hq).
      destruct (searchStep_run E key q (World (cache2 w2) [])) as [found ->].
      cbn [cache trace app]. rewrite searchSent_map.
      destruct found as [out |].
      * cbn [fst snd cache2 trace2]. split; [| split; [| done]].
        -- exists (searchSent E q). split; [done |]. right. exists q. auto.
        -- intros k Hk. apply lookup_insert_ne. congruence.
      * unfold bindP2, lift2.
        destruct (Get (match options with Undefined => Obj [] | _ => options end)
                    "useScraperFallback") as [use | e] eqn:Huse.
        -- destruct (truthy use && truthy (SCRAPER_BASE S)) eqn:Hon.
           ++ destruct (scrape_outcome E S key q
                          (World2 (cache2 w2) (trace2 w2 ++ searchSent E q)))
                as (res & c & Hrun & Hframe).
              pose proof (scrape_run E S key q
                            (World2 (cache2 w2) (trace2 w2 ++ searchSent E q))) as Hshape.
              rewrite Hrun in Hshape |- *. cbn [fst snd cache2 trace2] in *.
              split; [| split; [| done]].
              ** exists (searchSent E q ++ [ScraperFetched q]).
                 split; [by rewrite app_assoc |]. right. exists q. split; [done |].
                 right. split; [done |]. split.
                 { apply andb_prop in Hon as [Hu Hb].
                   destruct options; try done; cbn in Huse;
                     injection Huse as <-; done. }
                 intros out [= ->].
                 destruct (scraperFetch S q) as [resp | e]; [| done].
                 destruct (ok resp); [| done].
                 destruct (json resp) as [js | e]; [| done].
                 destruct (truthy (field js "price")); [| done].
                 injection Hshape as -> _. by exists js.
              ** intros k Hk. apply Hframe. congruence.
           ++ unfold retP2. cbn [fst snd cache2 trace2]. split; [| done].
              exists (searchSent E q). split; [done |]. right. exists q. auto.
        -- cbn [fst snd cache2 trace2]. split; [| split; [done |]].
           ++ exists (searchSent E q). split; [done |]. right. exists q. auto.
           ++ intros e' [= <-]. destruct options; try done. cbn in Huse.
              injection Huse as <-. split; [by eexists | by right].
  - unfold getLivePriceNoUrl2, bindP2, lift2. rewrite Hkey. cbn [fst snd].
    split; [exists []; split; [by rewrite app_nil_r | by left] |].
    split; [done |]. intros e' [= <-].
    split; [by apply (makeCacheKey_throw_kind b m r) | left; by exists e].
Qed.

End Engine.

(** * Instances

    The properties above hold for every case mapping with the facts
    stated of it.  The instances below run the two files with
    [asciiCase]: the strings of the scenarios are ASCII, where that
    mapping is the engine's; the one string that is not, the sharp s,
    is its own lower case under both. *)

#[global] Existing Instance asciiCase.

Ltac sameLetters :=
  repeat constructor;
  first [ by left | right; left; by vm_compute | right; right; by vm_compute ].

(** With the embedding provider down the handler gives the internal
    error, and no answer, for a question that is not blank. *)
Lemma POST_embedding_down :
  trim submarinerQuestion <> [] /\
  fst (POST embeddingDownEnv submarinerRequest initialWorld)
  = Normal (Json (ErrorBody (Str (str "fetch failed"))) 500) /\
  ~ (exists a p m st,
       fst (POST embeddingDownEnv submarinerRequest initialWorld)
       = Normal (Json (AnswerBody a p m) st)).
Proof.
  split; [by vm_compute |]. split; [by vm_compute |].
  intros (a & p & m & st & H). vm_compute in H. discriminate H.
Qed.

(** In the scenario the raw text of the provenance entry is not "$ 9,500". *)
Lemma POST_submariner_raw :
  ~ (exists a src m st,
       fst (POST (submarinerEnv chrono24Url 1700000000000 (str "2023-11-14T22:13:20.000Z"))
              submarinerRequest initialWorld)
       = Normal (Json (AnswerBody a
                         (Some [Provenance src (Str (str "$ 9,500"))]) m) st)).
Proof.
  intros (a & src & m & st & H). vm_compute in H. discriminate H.
Qed.

(** C7 as the specification states it fails at the sharp s: it is a
    lower-case letter, "SS" is its upper case, and the two give
    different keys.  The two keys are those of [makeCacheKey_sharp_s],
    the same under every case mapping. *)
Lemma makeCacheKey_normalized_counterexample :
  makeCacheKey (Str [223]) (Str (str "Submariner")) (Str (str "126610LN"))
  = Normal ([223] ++ str "|submariner|126610ln")
  /\ makeCacheKey (Str (str "SS")) (Str (str "Submariner")) (Str (str "126610LN"))
     = Normal (str "ss|submariner|126610ln")
  /\ [223] ++ str "|submariner|126610ln" <> str "ss|submariner|126610ln".
Proof.
  pose proof (makeCacheKey_sharp_s (CM := asciiCase) (str "Submariner") (str "126610LN"))
    as [H1 H2].
  split; [exact H1 |]. split; [exact H2 |]. intros H. vm_compute in H. discriminate H.
Qed.

Lemma makeCacheKey_normalized_witness :
  makeCacheKey (Str (str " ROLEX ")) (Str (str "submariner  ")) (Str (str "126610ln"))
  = makeCacheKey (Str (str "Rolex")) (Str (str "Submariner")) (Str (str "126610LN")).
Proof.
  apply (proj1 (proj2 (makeCacheKey_normalized (CM := asciiCase)))
           (str "Rolex") (str "Submariner") (str "126610LN")
           (str " ROLEX ") (str "submariner  ") (str "126610ln")).
  - exists (str " "), (str "ROLEX"), (str " ").
    split; [reflexivity |]. split; [by repeat constructor |].
    split; [by repeat constructor |].
    sameLetters.
  - exists [], (str "submariner"), (str "  ").
    split; [reflexivity |]. split; [by repeat constructor |].
    split; [by repeat constructor |].
    sameLetters.
  - exists [], (str "126610ln"), [].
    split; [reflexivity |]. split; [by repeat constructor |].
    split; [by repeat constructor |].
    sameLetters.
Defined.

(** C5 as the specification states it fails on three texts.  In the
    first a marker stands next to a token that is no number, after an
    earlier price: the parser returns the earlier price, with its value.
    In the second two spaces separate the marker from such a token, in
    the third the token has one unit only: the parser returns none. *)
Lemma parsePriceFromText_partial_signal_counterexample :
  (patternAt (str "$10 then " ++ [8364] ++ str "..") (str "$10 then ") [8364] [] (str "..") []
   /\ isNaN (tokenValue (str "..")) = true
   /\ parsePriceFromText (Str (str "$10 then " ++ [8364] ++ str ".."))
      = Normal (Some (Price (Num (numberOfZ 10)) (Str (str "$")) (Str (str "$10"))
                        Undefined Undefined Undefined)))
  /\ (isNaN (tokenValue (str "..")) = true
      /\ parsePriceFromText (Str (str "$  ..")) = Normal None)
  /\ (isNaN (tokenValue (str ".")) = true
      /\ parsePriceFromText (Str (str "$.")) = Normal None).
Proof.
  split; [| split; by vm_compute].
  split; [| split; by vm_compute].
  split; [reflexivity |]. split; [| split].
  - exists [8364]. split; [| reflexivity]. vm_compute. tauto.
  - by left.
  - split; [by repeat constructor | vm_compute; lia].
Qed.

Lemma parsePriceFromText_partial_signal_witness :
  isNaN (tokenValue (str "..")) = true /\
  parsePriceFromText (Str (str "$.. today"))
  = Normal (Some (Price Undefined (Str (str "$")) (Str (str "$.."))
                    Undefined Undefined Undefined)).
Proof.
  split; [reflexivity |].
  apply (proj1 (parsePriceFromText_partial_signal (str "$.. today"))
           [] (str "$") [] (str "..") (str " today")).
  - split; [reflexivity |]. split; [| split].
    + exists (str "$"). split; [| reflexivity]. vm_compute. tauto.
    + by left.
    + split; [by repeat constructor | vm_compute; lia].
  - intros pre' cur' ws' num' post' _. simpl. lia.
  - reflexivity.
  - reflexivity.
Defined.

Lemma parsePriceFromText_reparse_witness :
  exists c',
    parsePriceFromText (Str (str "usd 1,250.50")) = Normal (Some c') /\
    value c' = Num (decimalToNumber false 12505 (-1)) /\
    currency c' = Str (str "usd") /\
    raw c' = Str (str "usd 1,250.50").
Proof.
  apply (parsePriceFromText_reparse (str "now usd 1,250.50 at the boutique")
           (Price (Num (decimalToNumber false 12505 (-1))) (Str (str "usd"))
              (Str (str "usd 1,250.50")) Undefined Undefined Undefined)).
  by vm_compute.
Defined.

Lemma extractCandidate_priority_witness :
  extractCandidateFromExaResponse twoPrices
  = Normal (Some (Price (Num (numberOfZ 9500)) (Str (str "USD")) Null
                    (Str (str "https://api.exa.ai/answer")) Undefined Undefined)).
Proof.
  apply (proj1 (extractCandidate_priority twoPrices eq_refl)).
  split; [reflexivity |]. left. reflexivity.
Defined.

Lemma getLivePriceNoUrl_failure_not_cached_witness :
  exists w',
    getLivePriceNoUrl searchDownEnv (Str (str "Rolex")) (Str (str "Submariner"))
      (Str (str "126610LN")) initialWorld = (Normal None, w') /\
    cache w' = cache initialWorld.
Proof.
  destruct (proj1 ((getLivePriceNoUrl_failure_not_cached (CM := asciiCase)) searchDownEnv
             (Str (str "Rolex")) (Str (str "Submariner")) (Str (str "126610LN"))
             initialWorld submarinerKey submarinerQuery
             eq_refl eq_refl eq_refl)) as (w' & Hrun & Hcache & _).
  - left. right. split; [reflexivity |]. left. by eexists.
  - by exists w'.
Defined.

Lemma getLivePriceNoUrl_cache_window_witness :
  getLivePriceNoUrl laterEnv (Str (str "rolex")) (Str (str " submariner "))
    (Str (str "126610ln")) warmWorld
  = (Normal (Some (servedFromCache storedPrice)), warmWorld).
Proof.
  apply (proj1 (proj2 (getLivePriceNoUrl_cache_window (CM := asciiCase))) laterEnv
           (Str (str "rolex")) (Str (str " submariner ")) (Str (str "126610ln"))
           warmWorld submarinerKey (Entry 1700000000000 storedPrice)).
  - by vm_compute.
  - by vm_compute.
  - by vm_compute.
Defined.

Lemma POST_snippet_listing_witness :
  POST (submarinerEnv chrono24Url 1700000000000 (str "2023-11-14T22:13:20.000Z"))
    submarinerRequest initialWorld
  = (Normal (Json (AnswerBody
               (str "Live listing: $ 9500 " ++ emDash ++ str " source: " ++ chrono24Url
                  ++ str " (as of " ++ str "2023-11-14T22:13:20.000Z" ++ str ").")
               (Some [Provenance (Str chrono24Url) (Str (str "$9,500"))])
               (Some submarinerMeta)) 200),
     World (<[submarinerKey :=
                Entry 1700000000000
                  (Price (Num (numberOfZ 9500)) (Str (str "$")) (Str (str "$9,500"))
                     (Str chrono24Url) (Str (str "2023-11-14T22:13:20.000Z")) Undefined)]> ∅)
       ([] ++ [Fetched (Embeddings submarinerQuestion);
               Fetched (PineconeQuery (Arr [Num (numberOfZ 1); Num (numberOfZ 0)]) 3);
               Resolving (Str (str "Rolex")) (Str (str "Submariner"))
                 (Str (str "126610LN"));
               Fetched (ExaSearch submarinerQuery)])).
Proof.
  apply ((POST_snippet_listing (CM := asciiCase))
           (submarinerEnv chrono24Url 1700000000000 (str "2023-11-14T22:13:20.000Z"))
           (Obj [(str "question", Str submarinerQuestion)]) submarinerQuestion
           (Arr [Num (numberOfZ 1); Num (numberOfZ 0)]) submarinerMatches
           (searchResults chrono24Url)
           (Obj [(str "url", Str chrono24Url); (str "snippet", Str chrono24Snippet)])
           [] []
           initialWorld (World ∅ [Fetched (Embeddings submarinerQuestion)])
           (retrievedWorld ∅ submarinerQuestion) submarinerMeta
           submarinerKey submarinerQuery chrono24Url).
  - reflexivity.
  - by vm_compute.
  - by vm_compute.
  - by vm_compute.
  - by vm_compute.
  - by vm_compute.
  - reflexivity.
  - by vm_compute.
  - by vm_compute.
  - by vm_compute.
  - split; [reflexivity |]. eexists. split; [reflexivity |]. by split.
  - intros [H _]. by vm_compute in H.
  - reflexivity.
  - constructor.
  - split; [reflexivity |]. split; [intros [H _]; by vm_compute in H |].
    split; [reflexivity |]. split; [reflexivity |]. split; [by vm_compute |].
    split; [by left |]. split; [| by left].
    intros (pre & t & post & term & Heq & Hin & Ht).
    change (fieldText (field (Obj [(str "url", Str chrono24Url);
                                   (str "snippet", Str chrono24Snippet)]) "title"))
      with (@nil N) in Heq.
    destruct pre; [| done]. destruct t; [| done].
    destruct term; [| done].
    unfold currencyMarkers in Hin. cbn [In] in Hin.
    repeat (destruct Hin as [Hin | Hin]; [by vm_compute in Hin |]). done.
Defined.

Lemma POST_answer_or_internal_error_witness :
  POST embeddingDownEnv submarinerRequest initialWorld
  = (Normal (Json (ErrorBody (messageOf networkError ||| Str (str "internal error"))) 500),
     World (cache initialWorld)
       (trace initialWorld ++ [Fetched (Embeddings submarinerQuestion)])).
Proof.
  apply (proj1 (proj2 (proj2 ((POST_answer_or_internal_error (CM := asciiCase)) embeddingDownEnv
           (Obj [(str "question", Str submarinerQuestion)]) submarinerQuestion
           initialWorld eq_refl ltac:(by vm_compute))))).
  reflexivity.
Defined.

Lemma POST_zero_matches_witness :
  POST emptyIndexEnv submarinerRequest initialWorld
  = (Normal (Json (AnswerBody
               (str "I couldn't find a matching model in the catalog. Try asking about a specific brand/model.")
               None None) 200),
     World ∅ [Fetched (Embeddings submarinerQuestion);
              Fetched (PineconeQuery (Arr [Num (numberOfZ 1); Num (numberOfZ 0)]) 3)]).
Proof.
  apply ((POST_zero_matches (CM := asciiCase)) emptyIndexEnv
           (Obj [(str "question", Str submarinerQuestion)]) submarinerQuestion
           (Arr [Num (numberOfZ 1); Num (numberOfZ 0)]) (Obj [(str "matches", Arr [])])
           initialWorld
           (World ∅ [Fetched (Embeddings submarinerQuestion)])).
  - reflexivity.
  - by vm_compute.
  - by vm_compute.
  - by vm_compute.
  - right. right. reflexivity.
Defined.

Lemma POST_blank_question_witness :
  POST emptyIndexEnv (Normal (Obj [(str "question", Str (str "  "))])) warmWorld
  = (Normal (Json (ErrorBody (Str (str "question required"))) 400), warmWorld).
Proof.
  apply ((POST_blank_question (CM := asciiCase)) emptyIndexEnv (Obj [(str "question", Str (str "  "))])
           (str "  ") warmWorld).
  - reflexivity.
  - reflexivity.
Defined.

Lemma POST_catalogue_question_witness :
  POST (submarinerEnv chrono24Url 1700000000000 (str "2023-11-14T22:13:20.000Z"))
    catalogueRequest initialWorld
  = (Normal (Json (AnswerBody (str "Rolex Submariner (126610LN):" ++ newline) None
                     (Some submarinerMeta)) 200),
     retrievedWorld ∅ catalogueQuestion).
Proof.
  apply ((POST_catalogue_question (CM := asciiCase))
           (submarinerEnv chrono24Url 1700000000000 (str "2023-11-14T22:13:20.000Z"))
           (Obj [(str "question", Str catalogueQuestion)]) catalogueQuestion
           (Arr [Num (numberOfZ 1); Num (numberOfZ 0)]) submarinerMatches
           initialWorld (World ∅ [Fetched (Embeddings catalogueQuestion)])
           (retrievedWorld ∅ catalogueQuestion) submarinerMeta).
  - reflexivity.
  - by vm_compute.
  - by vm_compute.
  - by vm_compute.
  - by vm_compute.
  - by vm_compute.
  - by vm_compute.
Defined.

Lemma POST_helper_unavailable_witness :
  POST helperMissingEnv submarinerRequest initialWorld
  = (Normal (Json (AnswerBody
               (str "Live price lookup is not available. Here's catalog info:"
                  ++ newline ++ newline
                  ++ str "Rolex Submariner (126610LN)" ++ newline)
               None (Some submarinerMeta)) 200),
     retrievedWorld ∅ submarinerQuestion).
Proof.
  apply ((POST_helper_unavailable (CM := asciiCase)) helperMissingEnv
           (Obj [(str "question", Str submarinerQuestion)]) submarinerQuestion
           (Arr [Num (numberOfZ 1); Num (numberOfZ 0)]) submarinerMatches
           initialWorld (World ∅ [Fetched (Embeddings submarinerQuestion)])
           (retrievedWorld ∅ submarinerQuestion) submarinerMeta
           (str "Rolex") (str "Submariner") (str "126610LN") []).
  - reflexivity.
  - by vm_compute.
  - by vm_compute.
  - by vm_compute.
  - by vm_compute.
  - by vm_compute.
  - reflexivity.
  - reflexivity.
  - reflexivity.
  - reflexivity.
  - reflexivity.
Defined.

Lemma POST_provider_failure_degrades_witness :
  exists w',
    POST searchDownEnv submarinerRequest initialWorld
    = (Normal (Json (AnswerBody
                 (str "I couldn't fetch a clear live listing price right now. Here's the catalog info I found:"
                    ++ newline ++ newline
                    ++ str "Rolex Submariner (126610LN)" ++ newline)
                 None (Some submarinerMeta)) 200), w')
    /\ cache w' = cache initialWorld.
Proof.
  apply ((POST_provider_failure_degrades (CM := asciiCase)) searchDownEnv
           (Obj [(str "question", Str submarinerQuestion)]) submarinerQuestion
           (Arr [Num (numberOfZ 1); Num (numberOfZ 0)]) submarinerMatches
           initialWorld (World ∅ [Fetched (Embeddings submarinerQuestion)])
           (retrievedWorld ∅ submarinerQuestion) submarinerMeta
           submarinerKey submarinerQuery
           (str "Rolex") (str "Submariner") (str "126610LN") []).
  - reflexivity.
  - by vm_compute.
  - by vm_compute.
  - by vm_compute.
  - by vm_compute.
  - by vm_compute.
  - reflexivity.
  - by vm_compute.
  - by vm_compute.
  - by vm_compute.
  - left. right. split; [reflexivity |]. left. by eexists.
  - reflexivity.
  - reflexivity.
  - reflexivity.
  - reflexivity.
Defined.

Lemma POST_live_listing_witness :
  exists a,
    POST (submarinerEnv chrono24Url 1700000000000 (str "2023-11-14T22:13:20.000Z"))
      submarinerRequest initialWorld
    = (Normal (Json (AnswerBody a
                 (Some [Provenance (Str chrono24Url) (Str (str "$9,500"))])
                 (Some submarinerMeta)) 200),
       World {[ submarinerKey := Entry 1700000000000 storedPrice ]}
         ([] ++ [Fetched (Embeddings submarinerQuestion);
                 Fetched (PineconeQuery (Arr [Num (numberOfZ 1); Num (numberOfZ 0)]) 3);
                 Resolving (Str (str "Rolex")) (Str (str "Submariner"))
                   (Str (str "126610LN"));
                 Fetched (ExaSearch submarinerQuery)])).
Proof.
  eexists.
  apply ((POST_live_listing (CM := asciiCase))
           (submarinerEnv chrono24Url 1700000000000 (str "2023-11-14T22:13:20.000Z"))
           (Obj [(str "question", Str submarinerQuestion)]) submarinerQuestion
           (Arr [Num (numberOfZ 1); Num (numberOfZ 0)]) submarinerMatches
           (searchResults chrono24Url)
           initialWorld (World ∅ [Fetched (Embeddings submarinerQuestion)])
           (retrievedWorld ∅ submarinerQuestion) submarinerMeta
           submarinerKey submarinerQuery _
           (Price (Num (numberOfZ 9500)) (Str (str "$")) (Str (str "$9,500"))
              (Str chrono24Url) Undefined Undefined)).
  - reflexivity.
  - by vm_compute.
  - by vm_compute.
  - by vm_compute.
  - by vm_compute.
  - by vm_compute.
  - reflexivity.
  - by vm_compute.
  - by vm_compute.
  - by vm_compute.
  - split; [reflexivity |]. eexists. split; [reflexivity |]. by split.
  - by vm_compute.
  - by vm_compute.
Defined.

Lemma POST_answers_from_cache_witness :
  exists a,
    POST (submarinerEnv (str "https://elsewhere.example") 1700000060000
            (str "2023-11-14T22:14:20.000Z"))
      submarinerRequest warmWorld
    = (Normal (Json (AnswerBody a
                 (Some [Provenance (Str chrono24Url ||| Str (str "exa"))
                          (Str (str "$9,500") ||| Str [])])
                 (Some submarinerMeta)) 200),
       World (cache warmWorld)
         (trace warmWorld
            ++ [Fetched (Embeddings submarinerQuestion);
                Fetched (PineconeQuery (Arr [Num (numberOfZ 1); Num (numberOfZ 0)]) 3);
                Resolving (Str (str "Rolex")) (Str (str "Submariner"))
                  (Str (str "126610LN"))])).
Proof.
  eexists.
  apply ((POST_answers_from_cache (CM := asciiCase))
           (submarinerEnv (str "https://elsewhere.example") 1700000060000
              (str "2023-11-14T22:14:20.000Z"))
           (Obj [(str "question", Str submarinerQuestion)]) submarinerQuestion
           (Arr [Num (numberOfZ 1); Num (numberOfZ 0)]) submarinerMatches
           warmWorld
           (World (cache warmWorld) [Fetched (Embeddings submarinerQuestion)])
           (retrievedWorld (cache warmWorld) submarinerQuestion) submarinerMeta
           submarinerKey _ (Entry 1700000000000 storedPrice)).
  - reflexivity.
  - by vm_compute.
  - by vm_compute.
  - by vm_compute.
  - by vm_compute.
  - by vm_compute.
  - reflexivity.
  - by vm_compute.
  - by vm_compute.
  - by vm_compute.
  - by vm_compute.
Defined.

Lemma makeCacheKey_closed_form_witness :
  makeCacheKey (Str (str " Rolex")) Undefined (Num (S754_zero false))
  = Normal (normalizeField (fieldText (Str (str " Rolex"))) ++ str "|"
              ++ normalizeField (fieldText Undefined) ++ str "|"
              ++ normalizeField (fieldText (Num (S754_zero false)))).
Proof.
  apply (proj1 ((makeCacheKey_closed_form (CM := asciiCase)) (Str (str " Rolex")) Undefined
                  (Num (S754_zero false)))).
  split; [right; by eexists |]. split; left; reflexivity.
Defined.

Lemma makeCacheKey_normal_form_witness :
  exists kb km kr,
    str "rolex|submariner|126610ln" = kb ++ str "|" ++ km ++ str "|" ++ kr /\
    makeCacheKey (Str kb) (Str km) (Str kr) = Normal (str "rolex|submariner|126610ln").
Proof.
  apply ((makeCacheKey_normal_form (CM := asciiCase)) (Str (str " ROLEX")) (Str (str "Submariner "))
           (Str (str "126610LN")) (str "rolex|submariner|126610ln")).
  reflexivity.
Defined.

Lemma makeCacheKey_injective_witness :
  normalizeField (str "Rolex ") = normalizeField (str "ROLEX") /\
  normalizeField (str "Submariner") = normalizeField (str " submariner") /\
  normalizeField (str "126610LN") = normalizeField (str "126610ln").
Proof.
  apply (proj1 ((makeCacheKey_injective (CM := asciiCase)) (str "Rolex ") (str "Submariner") (str "126610LN")
                  (str "ROLEX") (str " submariner") (str "126610ln"))).
  - by repeat constructor.
  - by repeat constructor.
  - by repeat constructor.
  - by repeat constructor.
  - reflexivity.
Defined.

Lemma getLivePriceNoUrl_throws_only_on_key_witness :
  exists msg,
    getLivePriceNoUrl searchDownEnv (Num (numberOfZ 5)) Null Null warmWorld
    = (Throw (TypeError msg), warmWorld).
Proof.
  apply (proj2 ((getLivePriceNoUrl_throws_only_on_key (CM := asciiCase)) searchDownEnv
                  (Num (numberOfZ 5)) Null Null warmWorld)).
  intros [[H | [s H]] _]; [by vm_compute in H | discriminate H].
Defined.

Lemma getLivePriceNoUrl_frame_witness :
  cache (snd (getLivePriceNoUrl
                (submarinerEnv chrono24Url 1700000000000 (str "2023-11-14T22:13:20.000Z"))
                (Str (str "Omega")) (Str (str "Speedmaster")) Undefined warmWorld))
    !! submarinerKey
  = cache warmWorld !! submarinerKey.
Proof.
  apply (proj1 ((getLivePriceNoUrl_frame (CM := asciiCase))
                  (submarinerEnv chrono24Url 1700000000000 (str "2023-11-14T22:13:20.000Z"))
                  (Str (str "Omega")) (Str (str "Speedmaster")) Undefined warmWorld
                  _ _ (surjective_pairing _)) submarinerKey).
  by vm_compute.
Defined.

Lemma extractCandidate_evidence_witness :
  (truthy (Num (numberOfZ 9500)) = true \/ truthy Null = true) /\
  nullOrTruthy (Str (str "https://api.exa.ai/answer")) /\
  Undefined = Undefined /\ Undefined = Undefined.
Proof.
  apply (extractCandidate_evidence twoPrices
           (Price (Num (numberOfZ 9500)) (Str (str "USD")) Null
              (Str (str "https://api.exa.ai/answer")) Undefined Undefined)).
  by vm_compute.
Defined.

Lemma warmWorld_wellStamped : cacheWellStamped (cache warmWorld).
Proof.
  intros k e. unfold warmWorld. cbn [cache].
  intros H. apply lookup_singleton_Some in H as [_ <-]. cbn [payload].
  split; [| done]. unfold wellStamped, nullOrTruthy, storedPrice.
  cbn [value currency raw source ts].
  split; [done |]. split; [by right |]. split; [by right |]. split; [by right |].
  split; [by left | by eexists].
Qed.

Lemma getLivePriceNoUrl_wellStamped_witness :
  cacheWellStamped
    (cache (snd (getLivePriceNoUrl
                   (submarinerEnv chrono24Url 1700000000000 (str "2023-11-14T22:13:20.000Z"))
                   (Str (str "Omega")) (Str (str "Speedmaster")) Undefined warmWorld))).
Proof.
  apply (proj1 ((getLivePriceNoUrl_wellStamped (CM := asciiCase))
                  (submarinerEnv chrono24Url 1700000000000 (str "2023-11-14T22:13:20.000Z"))
                  (Str (str "Omega")) (Str (str "Speedmaster")) Undefined warmWorld _ _
                  warmWorld_wellStamped (surjective_pairing _))).
Defined.

Lemma getLivePriceNoUrl_without_key_witness :
  snd (getLivePriceNoUrl noKeyEnv (Str (str "Omega")) (Str (str "Speedmaster"))
         Undefined warmWorld) = warmWorld.
Proof.
  apply (proj1 ((getLivePriceNoUrl_without_key (CM := asciiCase)) noKeyEnv (Str (str "Omega"))
                  (Str (str "Speedmaster")) Undefined warmWorld _ _
                  eq_refl (surjective_pairing _))).
Defined.

Lemma parsePriceFromText_sound_witness :
  exists pre cur ws num post,
    patternAt (str "Listed at USD 9,500 today") pre cur ws num post /\
    (forall pre' cur' ws' num' post',
        patternAt (str "Listed at USD 9,500 today") pre' cur' ws' num' post' ->
        (length pre <= length pre')%nat) /\
    Price (Num (numberOfZ 9500)) (Str (str "USD")) (Str (str "USD 9,500"))
      Undefined Undefined Undefined
    = Price (if isNaN (tokenValue num) then Undefined else Num (tokenValue num))
          (Str cur) (Str (cur ++ ws ++ num)) Undefined Undefined Undefined /\
    (forall x, value (Price (Num (numberOfZ 9500)) (Str (str "USD")) (Str (str "USD 9,500"))
                        Undefined Undefined Undefined) = Num x -> isNaN x = false).
Proof.
  apply (parsePriceFromText_sound (str "Listed at USD 9,500 today")).
  by vm_compute.
Defined.

Lemma POST_embedding_refused_witness :
  POST unauthorizedEnv submarinerRequest warmWorld
  = (Normal (Json (ErrorBody (Str (str "OpenAI embedding error: "
                                     ++ NumberToString (numberOfZ 401)
                                     ++ str " " ++ str "bad key"))) 500),
     World (cache warmWorld) (trace warmWorld ++ [Fetched (Embeddings submarinerQuestion)])).
Proof.
  apply ((POST_embedding_refused (CM := asciiCase)) unauthorizedEnv
           (Obj [(str "question", Str submarinerQuestion)]) submarinerQuestion
           {| ok := false; status := numberOfZ 401;
              text := Normal (str "bad key");
              json := Throw (SyntaxError (str "not JSON")) |} warmWorld).
  - reflexivity.
  - by vm_compute.
  - reflexivity.
  - reflexivity.
Defined.

Lemma POST_index_refused_witness :
  POST indexDownEnv submarinerRequest initialWorld
  = (Normal (Json (ErrorBody (Str (str "Pinecone query error: "
                                     ++ NumberToString (numberOfZ 503)
                                     ++ str " " ++ []))) 500),
     World (cache initialWorld)
       (trace initialWorld ++
        [Fetched (Embeddings submarinerQuestion);
         Fetched (PineconeQuery (Arr [Num (numberOfZ 1); Num (numberOfZ 0)]) 3)])).
Proof.
  apply ((POST_index_refused (CM := asciiCase)) indexDownEnv
           (Obj [(str "question", Str submarinerQuestion)]) submarinerQuestion
           (Arr [Num (numberOfZ 1); Num (numberOfZ 0)])
           {| ok := false; status := numberOfZ 503;
              text := Throw networkError;
              json := Throw (SyntaxError (str "not JSON")) |}
           initialWorld (World ∅ [Fetched (Embeddings submarinerQuestion)])).
  - reflexivity.
  - by vm_compute.
  - by vm_compute.
  - reflexivity.
  - reflexivity.
Defined.

Lemma extractTopMetadata_stable_shape_witness :
  nullOrTruthy (id submarinerMeta) /\
  score submarinerMeta <> Undefined /\
  Forall (fun x => truthy x = true \/ x = Str [])
    [brand submarinerMeta; model_name submarinerMeta; reference_number submarinerMeta;
     description submarinerMeta; category submarinerMeta; movement submarinerMeta;
     caliber submarinerMeta] /\
  brand submarinerMeta ||| Str [] = brand submarinerMeta /\
  model_name submarinerMeta ||| Str [] = model_name submarinerMeta /\
  reference_number submarinerMeta ||| Str [] = reference_number submarinerMeta.
Proof.
  apply (extractTopMetadata_stable_shape submarinerMatches submarinerMeta).
  by vm_compute.
Defined.

Lemma extractTopMetadata_top_only_witness :
  extractTopMetadata
    (Obj [(str "matches", Arr [Obj [(str "id", Str (str "a"))]; Null; Str (str "b")])])
  = extractTopMetadata (Obj [(str "matches", Arr [Obj [(str "id", Str (str "a"))]])]).
Proof.
  apply (extractTopMetadata_top_only
           (Obj [(str "matches", Arr [Obj [(str "id", Str (str "a"))]; Null; Str (str "b")])])
           (Obj [(str "id", Str (str "a"))]) [Null; Str (str "b")]).
  - reflexivity.
  - reflexivity.
  - by vm_compute.
Defined.

Lemma POST_malformed_entry_witness :
  exists msg,
    POST numericBrandEnv submarinerRequest initialWorld
    = (Normal (Json (ErrorBody (Str msg ||| Str (str "internal error"))) 500),
       World (cache initialWorld)
         (trace initialWorld ++
          [Fetched (Embeddings submarinerQuestion);
           Fetched (PineconeQuery (Arr [Num (numberOfZ 1); Num (numberOfZ 0)]) 3);
           Resolving (brand numericBrandMeta ||| Str [])
             (model_name numericBrandMeta ||| Str [])
             (reference_number numericBrandMeta ||| Str [])])).
Proof.
  apply ((POST_malformed_entry (CM := asciiCase)) numericBrandEnv
           (Obj [(str "question", Str submarinerQuestion)]) submarinerQuestion
           (Arr [Num (numberOfZ 1); Num (numberOfZ 0)]) numericBrandMatches
           initialWorld (World ∅ [Fetched (Embeddings submarinerQuestion)])
           (retrievedWorld ∅ submarinerQuestion) numericBrandMeta).
  - reflexivity.
  - by vm_compute.
  - by vm_compute.
  - by vm_compute.
  - by vm_compute.
  - by vm_compute.
  - reflexivity.
  - intros (Hb & _ & _). destruct Hb as [Hb | [s Hb]]; [by vm_compute in Hb | done].
Defined.

Lemma POST2_agrees_witness :
  POST2 (submarinerEnv chrono24Url 1700000000000 (str "2023-11-14T22:13:20.000Z"))
    (Normal true) submarinerRequest initialWorld
  = POST (submarinerEnv chrono24Url 1700000000000 (str "2023-11-14T22:13:20.000Z"))
      submarinerRequest initialWorld.
Proof.
  apply ((POST2_agrees (CM := asciiCase))
           (submarinerEnv chrono24Url 1700000000000 (str "2023-11-14T22:13:20.000Z"))
           (Normal true) (Obj [(str "question", Str submarinerQuestion)]) submarinerQuestion
           (Arr [Num (numberOfZ 1); Num (numberOfZ 0)]) submarinerMatches
           initialWorld (World ∅ [Fetched (Embeddings submarinerQuestion)])
           (retrievedWorld ∅ submarinerQuestion)).
  - reflexivity.
  - by vm_compute.
  - by vm_compute.
  - by vm_compute.
  - intros meta Hmeta. assert (meta = submarinerMeta) as ->.
    { vm_compute in Hmeta. injection Hmeta as <-. by vm_compute. }
    split; [right; by vm_compute | done].
Defined.

Lemma POST2_without_helper_witness :
  POST2 helperMissingEnv (Normal false) submarinerRequest initialWorld
  = (Normal (Json (AnswerBody (str "Rolex Submariner (126610LN):" ++ newline) None
                     (Some submarinerMeta)) 200),
     retrievedWorld ∅ submarinerQuestion).
Proof.
  refine (proj1 ((POST2_without_helper (CM := asciiCase)) helperMissingEnv (Normal false)
                   (Obj [(str "question", Str submarinerQuestion)]) submarinerQuestion
                   (Arr [Num (numberOfZ 1); Num (numberOfZ 0)]) submarinerMatches
                   initialWorld (World ∅ [Fetched (Embeddings submarinerQuestion)])
                   (retrievedWorld ∅ submarinerQuestion) submarinerMeta
                   _ _ _ _ _ _) eq_refl _ _).
  - reflexivity.
  - by vm_compute.
  - by vm_compute.
  - by vm_compute.
  - by vm_compute.
  - by vm_compute.
  - by vm_compute.
Defined.

Lemma getLivePriceNoUrl2_fallback_off_witness :
  fst (getLivePriceNoUrl2
         (submarinerEnv chrono24Url 1700000000000 (str "2023-11-14T22:13:20.000Z"))
         scraperUp (Str (str "Rolex")) (Str (str "Submariner")) (Str (str "126610LN"))
         Undefined initialWorld2)
  = fst (getLivePriceNoUrl
           (submarinerEnv chrono24Url 1700000000000 (str "2023-11-14T22:13:20.000Z"))
           (Str (str "Rolex")) (Str (str "Submariner")) (Str (str "126610LN"))
           initialWorld).
Proof.
  apply (proj1 ((getLivePriceNoUrl2_fallback_off (CM := asciiCase))
                  (submarinerEnv chrono24Url 1700000000000 (str "2023-11-14T22:13:20.000Z"))
                  scraperUp (Str (str "Rolex")) (Str (str "Submariner"))
                  (Str (str "126610LN")) Undefined initialWorld initialWorld2
                  (or_introl eq_refl) eq_refl (fun _ _ _ _ => eq_refl))).
Defined.

Lemma getLivePriceNoUrl2_scraper_witness :
  getLivePriceNoUrl2 searchDownEnv scraperUp (Str (str "Rolex")) (Str (str "Submariner"))
    (Str (str "126610LN")) fallbackOptions initialWorld2
  = (Normal (Some (scraped (Obj [(str "price", Num (numberOfZ 9400));
                                 (str "raw_price_text", Str (str "9,400"))])
                     (str "2023-11-14T22:13:20.000Z"))),
     World2 (<[str "rolex|submariner|126610ln" :=
                 Entry 1700000000000
                   (scraped (Obj [(str "price", Num (numberOfZ 9400));
                                  (str "raw_price_text", Str (str "9,400"))])
                      (str "2023-11-14T22:13:20.000Z"))]> ∅)
       ([] ++ searchSent searchDownEnv
                (str "Rolex Submariner 126610LN price Chrono24 Jomashop Bob's Watches")
           ++ [ScraperFetched
                 (str "Rolex Submariner 126610LN price Chrono24 Jomashop Bob's Watches")])).
Proof.
  refine (proj1 ((getLivePriceNoUrl2_scraper (CM := asciiCase)) searchDownEnv scraperUp
                   (Str (str "Rolex")) (Str (str "Submariner")) (Str (str "126610LN"))
                   fallbackOptions initialWorld2 (str "rolex|submariner|126610ln")
                   (str "Rolex Submariner 126610LN price Chrono24 Jomashop Bob's Watches")
                   _ _ _ _ _)
            {| ok := true; status := numberOfZ 200; text := Normal [];
               json := Normal (Obj [(str "price", Num (numberOfZ 9400));
                                    (str "raw_price_text", Str (str "9,400"))]) |}
            _ _ _ _ _).
  - by vm_compute.
  - reflexivity.
  - by vm_compute.
  - left. right. split; [reflexivity |]. left. by eexists.
  - split; [reflexivity |]. split; by vm_compute.
  - reflexivity.
  - reflexivity.
  - reflexivity.
  - by vm_compute.
Defined.
